(** * Tour generation and route optimisation: a shallow embedding

    The tour store ([generateTour], [saveTour], [loadTour]), the
    nearest-neighbour optimiser ([optimizeTourSimple]), the delegated
    optimiser ([optimizeTourWithAI]), the tour assembler and the tier
    classifier ([determineSightTier]) of the tourist-guide application,
    written as Rocq functions, with the properties of its specification
    stated and proved over them.

    Modelling conventions.
    - A JavaScript [number] that carries a measure (kilometres, degrees,
      ratings) is an exact rational ([Q]); NaN and infinities are outside
      the model.  Integer-valued numbers (stop order, whole minutes,
      counters, clock readings) are [Z].
    - Where the rounding of a double operation decides a comparison
      between numbers that were typed in or recorded in tenths (the
      widened radius [maxDistance * 1.5], the borders of the map region),
      the operation is a parameter: the properties hold however the
      machine rounds it.
    - An optional field [f?: T] is an [option T]; [undefined] is [None].
    - Strings are [string], the text as a sequence of bytes.
      [toLowerCase] and [trim] follow the Unicode tables of the host and
      are parameters as well.
    - The haversine formula [calculateDistance] needs floating-point
      trigonometry; the engine is parametrised by it (a Section variable).
    - The zustand store is an explicit state; every [set] publishes a new
      state, and the sequence of published states is kept. *)

From Stdlib Require Import ZArith QArith Qround Lia Lqa List String Ascii Bool.
From Stdlib Require Import DecimalString Sorting.Sorted Sorting.Permutation.
From stdpp Require Import base list strings.
Import ListNotations.

Local Open Scope Z_scope.
Local Open Scope string_scope.
Local Open Scope list_scope.

(** ** JavaScript numbers and strings *)

Module JS.

(** [!x] on a number is true for zero (and for NaN, which is not modelled). *)
Definition truthy (x : Q) : bool := negb (Qeq_bool x 0).

(** [a < b], [a <= b], [a >= b], [a > b] on numbers. *)
Definition lt (a b : Q) : bool := negb (Qle_bool b a).
Definition le (a b : Q) : bool := Qle_bool a b.
Definition ge (a b : Q) : bool := Qle_bool b a.
Definition gt (a b : Q) : bool := negb (Qle_bool a b).

(** [x || 0] on a number. *)
Definition orZero (x : Q) : Q := if truthy x then x else 0%Q.

(** [Math.ceil], for a result that is a whole number. *)
Definition ceil (x : Q) : Z := Qceiling x.

(** [n.toString()] for an integer. *)
Definition toString (n : Z) : string := NilZero.string_of_int (Z.to_int n).

(** Truthiness of a string: the empty string is falsy. *)
Definition nonEmpty (s : string) : bool :=
  match s with EmptyString => false | String _ _ => true end.

(** [c.toUpperCase()] for a character of [\w]: only the letters a-z
    change. *)
Definition upperChar (c : ascii) : ascii :=
  let n := nat_of_ascii c in
  if (97 <=? n)%nat && (n <=? 122)%nat then ascii_of_nat (n - 32) else c.

(** [s.includes(sub)]: [sub] occurs in [s] as a contiguous substring. *)
Fixpoint includes (s sub : string) : bool :=
  if String.prefix sub s then true
  else match s with
       | EmptyString => false
       | String _ r => includes r sub
       end.

(** [s.split(",")]: always at least one piece. *)
Fixpoint splitComma (s : string) : list string :=
  match s with
  | EmptyString => [EmptyString]
  | String c r =>
      if Ascii.eqb c ","%char then EmptyString :: splitComma r
      else match splitComma r with
           | h :: t => String c h :: t
           | [] => [String c EmptyString]
           end
  end.

(** [s.charAt(0).toUpperCase() + s.slice(1)]. *)
Definition capitalize (s : string) : string :=
  match s with
  | EmptyString => EmptyString
  | String c r => String (upperChar c) r
  end.

(** [l.reduce(f)] without an initial value; [None] stands for the
    TypeError on an empty array. *)
Definition reduce1 {A : Type} (f : A -> A -> A) (l : list A) : option A :=
  match l with
  | [] => None
  | x :: xs => Some (fold_left f xs x)
  end.

End JS.

(** ** Data model (types/sight.ts, settings-store, tour-store) *)

Inductive SightTier : Set := Tier1 | Tier2 | Tier3.

Definition SightTier_eqb (a b : SightTier) : bool :=
  match a, b with
  | Tier1, Tier1 | Tier2, Tier2 | Tier3, Tier3 => true
  | _, _ => false
  end.

(** [id: number | string]. *)
Inductive SightId : Set :=
| IdNum (n : Z)
| IdStr (s : string).

Definition SightId_eqb (a b : SightId) : bool :=
  match a, b with
  | IdNum x, IdNum y => Z.eqb x y
  | IdStr x, IdStr y => String.eqb x y
  | _, _ => false
  end.

Record SavedContent : Set := mkSavedContent {
  sc_id : string;
  sc_language : string;
  sc_length : string;
  sc_interests : string;
  sc_content : string;
  sc_createdAt : Z
}.

(** What the [category] field holds.  It is declared a string;
    [formatCategory] can also hand a member of [Object.prototype] to it
    (the constructor function, for the type "constructor"), which is
    kept here by its key. *)
Inductive Category : Set :=
| CategoryText (text : string)
| CategoryMember (key : string).

Record Sight : Set := mkSight {
  id : SightId;
  name : string;
  category : Category;
  latitude : Q;
  longitude : Q;
  distance : option Q;
  imageUrl : string;
  yearBuilt : option Z;
  briefDescription : string;
  fullDescription : string;
  briefDescriptionDE : string;
  fullDescriptionDE : string;
  rating : option Q;
  placeId : option string;
  tier : SightTier;
  savedContent : option (list SavedContent)
}.

Record Location : Set := mkLocation {
  loc_latitude : Q;
  loc_longitude : Q
}.

Inductive AudioLength : Set := Brief | Medium | Expert.
Inductive TransportMode : Set := Walk | Taxi | Public | Mix.
Inductive TourType : Set := RoundTrip | PointToPoint.

Record TourWizardSettings : Set := mkWizard {
  numberOfDays : Z;
  dailyDurationHours : Q;
  maxLengthKm : Q;
  transportMode : TransportMode;
  interestLevel : list SightTier;
  tourType : TourType;
  detailLevelPerSight : AudioLength
}.

(** [interface TourStop extends Sight]. *)
Record TourStop : Set := mkStop {
  stop_sight :> Sight;
  order : Z;
  distanceToNext : option Q;
  walkingTimeToNext : option Z
}.

Record Tour : Set := mkTour {
  tour_id : string;
  tour_name : string;
  sights : list TourStop;
  totalDistance : Q;
  estimatedDuration : Z;
  createdAt : Z
}.

Record TourState : Set := mkState {
  currentTour : option Tour;
  savedTours : list Tour;
  isGenerating : bool;
  tourDistance : Q
}.

(** ** Tier classifier (sights-store, [determineSightTier]) *)

(** [!x] for an optional number: true when it is [undefined] or zero. *)
Definition falsyNumber (x : option Q) : bool :=
  match x with
  | None => true
  | Some v => negb (JS.truthy v)
  end.

(** [x >= c] and [x < c] for an optional number: a comparison with
    [undefined] is false. *)
Definition geNumber (x : option Q) (c : Q) : bool :=
  match x with Some v => JS.ge v c | None => false end.
Definition ltNumber (x : option Q) (c : Q) : bool :=
  match x with Some v => JS.lt v c | None => false end.

Definition determineSightTier (rating userRatingsTotal : option Q) : SightTier :=
  if falsyNumber rating || falsyNumber userRatingsTotal then Tier2
  else if geNumber rating 4.3 && geNumber userRatingsTotal 500 then Tier1
  else if ltNumber rating 4.0 || ltNumber userRatingsTotal 50 then Tier3
  else Tier2.

(** The classifier as the specification words it: only a missing value
    defaults to tier 2, then the tier-1 test, then the tier-3 test. *)
Definition referenceTier (rating userRatingsTotal : option Q) : SightTier :=
  match rating, userRatingsTotal with
  | None, _ | _, None => Tier2
  | Some r, Some n =>
      if Qle_bool 4.3 r && Qle_bool 500 n then Tier1
      else if negb (Qle_bool 4.0 r) || negb (Qle_bool 50 n) then Tier3
      else Tier2
  end.

(** ** The store as a state monad with errors

    A store action starts from a state and ends in a final state, with the
    states it published through [set] (oldest first) and either a thrown
    error or a value. *)

Inductive TourError : Set :=
| NoSightsFound (radiusKm : Q)
| CouldNotCreateTour.

Record Outcome (A : Type) : Type := mkOutcome {
  final : TourState;
  published : list TourState;
  result : TourError + A
}.
Arguments mkOutcome {A} _ _ _.
Arguments final {A} _.
Arguments published {A} _.
Arguments result {A} _.

Definition Store (A : Type) : Type := TourState -> Outcome A.

#[global] Instance Store_ret : MRet Store :=
  fun A a st => mkOutcome st [] (inr a).

#[global] Instance Store_bind : MBind Store :=
  fun A B k m st =>
    let o := m st in
    match result o with
    | inl e => mkOutcome (final o) (published o) (inl e)
    | inr a =>
        let o' := k a (final o) in
        mkOutcome (final o') (published o ++ published o') (result o')
    end.

Definition get : Store TourState :=
  fun st => mkOutcome st [] (inr st).

(** [set(patch)]: the patch is merged into the state and published. *)
Definition set (patch : TourState -> TourState) : Store unit :=
  fun st => mkOutcome (patch st) [patch st] (inr tt).

Definition throw {A : Type} (e : TourError) : Store A :=
  fun st => mkOutcome st [] (inl e).

(** [try { m } catch (error) { handler(error) }]. *)
Definition tryCatch {A : Type} (m : Store A) (handler : TourError -> Store A)
  : Store A :=
  fun st =>
    let o := m st in
    match result o with
    | inl e =>
        let o' := handler e (final o) in
        mkOutcome (final o') (published o ++ published o') (result o')
    | inr _ => o
    end.

(** [try { m } finally { fin }]: [fin] runs on every exit of [m]; the
    outcome of [m] stands unless [fin] itself throws. *)
Definition tryFinally {A : Type} (m : Store A) (fin : Store unit) : Store A :=
  fun st =>
    let o := m st in
    let o' := fin (final o) in
    mkOutcome (final o') (published o ++ published o')
      (match result o' with
       | inl e => inl e
       | inr _ => result o
       end).

(** The patches of the store. *)
Definition patch_isGenerating (b : bool) (st : TourState) : TourState :=
  mkState (currentTour st) (savedTours st) b (tourDistance st).
Definition patch_currentTour (t : option Tour) (st : TourState) : TourState :=
  mkState t (savedTours st) (isGenerating st) (tourDistance st).
Definition patch_savedTours (l : list Tour) (st : TourState) : TourState :=
  mkState (currentTour st) l (isGenerating st) (tourDistance st).
Definition patch_tourDistance (d : Q) (st : TourState) : TourState :=
  mkState (currentTour st) (savedTours st) (isGenerating st) d.

Definition initialState : TourState := mkState None [] false 5%Q.

(** ** Store operations other than [generateTour] *)

Definition setTourDistance (distance : Q) : Store unit :=
  set (patch_tourDistance distance).

Definition clearTour : Store unit :=
  set (patch_currentTour None).

Definition renameTour (t : Tour) (n : string) : Tour :=
  mkTour (tour_id t) n (sights t) (totalDistance t) (estimatedDuration t)
    (createdAt t).

Definition saveTour (name : string) : Store unit :=
  st ← get;
  match currentTour st with
  | None => mret tt
  | Some current =>
      let tourToSave :=
        renameTour current
          (if JS.nonEmpty name then name else tour_name current) in
      match list_find (fun tour => tour_id tour = tour_id tourToSave)
              (savedTours st) with
      | Some (existingIndex, _) =>
          set (patch_savedTours (<[existingIndex := tourToSave]> (savedTours st)))
      | None =>
          set (patch_savedTours (savedTours st ++ [tourToSave]))
      end
  end.

Definition loadTour (tourId : string) : Store unit :=
  st ← get;
  match list_find (fun t => tour_id t = tourId) (savedTours st) with
  | Some (_, tour) => set (patch_currentTour (Some tour))
  | None => mret tt
  end.

Definition deleteTour (tourId : string) : Store unit :=
  st ← get;
  set (patch_savedTours
         (List.filter (fun tour => negb (String.eqb (tour_id tour) tourId))
            (savedTours st))).

(** ** Inputs that [generateTour] reads from its environment *)

(** What the request to the text-completion endpoint comes to: [fetch]
    rejects, or a response arrives with its [ok] flag and, when the body
    parses and [data.completion] is a string, that string ([None] is every
    body on which [response.json()] or [data.completion.split] throws).
    The prompt has no part in the model: the response is an input. *)
Inductive FetchOutcome : Set :=
| FetchRejected
| FetchResponse (ok : bool) (completion : option string).

Record Env : Set := mkEnv {
  openAiApiKey : string;
  fetchOutcome : FetchOutcome;
  dateNow : Z;
  newDate : Z
}.

(** ** Helper tables of the assembler *)

(** Minutes per kilometre; a number that multiplies a distance. *)
Definition getTransportTimeMultiplier (mode : TransportMode) : Q :=
  match mode with
  | Walk => 12
  | Taxi => 3
  | Public => 6
  | Mix => 8
  end.

(** Minutes spent at a sight. *)
Definition getDetailLevelTime (detailLevel : AudioLength) : Z :=
  match detailLevel with
  | Brief => 5
  | Medium => 15
  | Expert => 25
  end.

Definition transportModeString (mode : TransportMode) : string :=
  match mode with
  | Walk => "walk"
  | Taxi => "taxi"
  | Public => "public"
  | Mix => "mix"
  end.

(** ** Candidate filter and the sort by distance *)

(** [wizardSettings.interestLevel.includes(sight.tier)]. *)
Definition tierAccepted (w : TourWizardSettings) (sight : Sight) : bool :=
  existsb (SightTier_eqb (tier sight)) (interestLevel w).

Definition filterByTier (wizardSettings : option TourWizardSettings)
    (availableSights : list Sight) : list Sight :=
  match wizardSettings with
  | Some w => List.filter (tierAccepted w) availableSights
  | None => availableSights
  end.

(** [sight.distance !== undefined && sight.distance <= radius]. *)
Definition withinRadius (radius : Q) (sight : Sight) : bool :=
  match distance sight with
  | Some d => JS.le d radius
  | None => false
  end.

(** [a.distance || 0]. *)
Definition distanceOrZero (sight : Sight) : Q :=
  match distance sight with
  | Some d => JS.orZero d
  | None => 0%Q
  end.

(** [l.sort((a, b) => (a.distance || 0) - (b.distance || 0))]: a stable
    ascending sort; an element goes before the first one that is not
    smaller than it. *)
Fixpoint insertByDistance (x : Sight) (l : list Sight) : list Sight :=
  match l with
  | [] => [x]
  | y :: l' =>
      if JS.lt (distanceOrZero y) (distanceOrZero x)
      then y :: insertByDistance x l'
      else x :: l
  end.

Definition sortByDistance (l : list Sight) : list Sight :=
  fold_right insertByDistance [] l.

(** The order the sort establishes. *)
Definition byDistance (a b : Sight) : Prop :=
  (distanceOrZero a <= distanceOrZero b)%Q.

(** [visited.has(id)] and [visited.add(id)] on a [Set] of identifiers, kept
    in insertion order. *)
Definition has (visited : list SightId) (i : SightId) : bool :=
  existsb (SightId_eqb i) visited.

Definition add (visited : list SightId) (i : SightId) : list SightId :=
  if has visited i then visited else visited ++ [i].

(** [route.find(r => r.id === i)] as a truth value. *)
Definition inRoute (route : list Sight) (i : SightId) : bool :=
  match List.find (fun r => SightId_eqb (id r) i) route with
  | Some _ => true
  | None => false
  end.

Definition locationOf (sight : Sight) : Location :=
  mkLocation (latitude sight) (longitude sight).

(** The failures of the external call that the [try] block of the
    delegated optimiser turns into exceptions: [fetch] rejects, the
    response is not a success, or its body cannot be read. *)
Definition externalCallFails (response : FetchOutcome) : bool :=
  match response with
  | FetchRejected => true
  | FetchResponse ok completion =>
      negb ok || match completion with None => true | Some _ => false end
  end.

Definition withApiKey (key : string) (env : Env) : Env :=
  mkEnv key (fetchOutcome env) (dateNow env) (newDate env).

(** ** Sample data

    Points on the equator around an origin at (0, 0), and a rational
    stand-in for the haversine formula to run the engine on them: along
    the equator the great-circle distance is 6371 * pi / 180 = 111.195 km
    per degree of longitude. *)

Module Samples.

Definition kmPerDegree : Q := 111.195.

Definition absQ (x : Q) : Q := if Qle_bool 0 x then x else (- x)%Q.

Definition gridDistance (lat1 lon1 lat2 lon2 : Q) : Q :=
  (kmPerDegree * (absQ (lat2 - lat1) + absQ (lon2 - lon1)))%Q.

(** The host functions on the sample strings.  The sample names and
    answers are ASCII: there [toLowerCase] changes the letters A-Z and
    nothing else, and [trim] strips tabs, line breaks and spaces. *)
Definition lowerChar (c : ascii) : ascii :=
  let n := nat_of_ascii c in
  if (65 <=? n)%nat && (n <=? 90)%nat then ascii_of_nat (n + 32) else c.

Fixpoint lowerAscii (s : string) : string :=
  match s with
  | EmptyString => EmptyString
  | String c r => String (lowerChar c) (lowerAscii r)
  end.

Definition isWhiteSpace (c : ascii) : bool :=
  let n := nat_of_ascii c in
  ((9 <=? n)%nat && (n <=? 13)%nat) || (n =? 32)%nat.

Fixpoint trimStartChars (l : list ascii) : list ascii :=
  match l with
  | c :: r => if isWhiteSpace c then trimStartChars r else l
  | [] => []
  end.

Definition trimAscii (s : string) : string :=
  string_of_list_ascii
    (rev (trimStartChars (rev (trimStartChars (list_ascii_of_string s))))).

(** 1 * 1.5, 5 * 1.5 and 10 * 1.5 are doubles: on the sample budgets the
    double product is the exact one. *)
Definition exactTimes (a b : Q) : Q := (a * b)%Q.

(** The exact sum and difference keep the order, as the double ones
    do. *)
Definition exactPlus (a b : Q) : Q := (a + b)%Q.
Definition exactMinus (a b : Q) : Q := (a - b)%Q.

Definition origin : Location := mkLocation 0 0.

Definition sightAt (n : Z) (label : string) (lon : Q) (d : option Q)
    (t : SightTier) : Sight :=
  mkSight (IdNum n) label (CategoryText "landmark") 0 lon d "" None "" "" ""
    "" None None t None.

(** About 1.22 km east and 1.33 km west of the origin. *)
Definition alpha : Sight := sightAt 1 "Alpha" 0.011 (Some 1.22%Q) Tier1.
Definition beta : Sight := sightAt 2 "Beta" (-0.012) (Some 1.33%Q) Tier1.
(** Four sights within 700 m, east of the origin. *)
Definition gamma : Sight := sightAt 3 "Gamma" 0.002 (Some 0.22%Q) Tier2.
Definition delta : Sight := sightAt 4 "Delta" 0.004 (Some 0.44%Q) Tier2.
Definition epsilon : Sight := sightAt 5 "Epsilon" 0.005 (Some 0.56%Q) Tier1.
Definition zeta : Sight := sightAt 6 "Zeta" 0.006 (Some 0.67%Q) Tier3.
(** A sight whose distance from the user was never computed. *)
Definition eta : Sight := sightAt 7 "Eta" 0.001 None Tier1.

(** Ten sights 111 m apart, east of the origin. *)
Definition cluster : list Sight :=
  map (fun k =>
         sightAt (100 + Z.of_nat k) "Stop"
           (inject_Z (Z.of_nat k) / 1000)%Q
           (Some (inject_Z (Z.of_nat k) * 0.111)%Q) Tier2)
    (seq 1 10).

Definition walkingTour : TourWizardSettings :=
  mkWizard 1 2 5 Walk [Tier1; Tier2; Tier3] RoundTrip Medium.

Definition noKey : Env := mkEnv "" FetchRejected 1700000000000 1700000000001.
Definition keyButOffline : Env :=
  mkEnv "sk-sample" FetchRejected 1700000000000 1700000000001.
Definition keyAndAnswer : Env :=
  mkEnv "sk-sample" (FetchResponse true (Some "Zeta, delta")) 1700000000000
    1700000000001.

End Samples.

(** ** The settings store (settings-store) *)

Record SettingsState : Set := mkSettings {
  googleMapsApiKey : string;
  settingsOpenAiApiKey : string;
  userName : string;
  language : string;
  specialInterests : string;
  selectedTiers : list SightTier;
  audioLength : AudioLength;
  tourWizardSettings : TourWizardSettings
}.

(** The number of a tier, [1], [2] or [3]. *)
Definition tierNumber (t : SightTier) : Z :=
  match t with
  | Tier1 => 1
  | Tier2 => 2
  | Tier3 => 3
  end.

(** [tiers.sort()]: the default order compares the decimal strings of the
    elements, which for the one-digit tier numbers is their order as
    numbers; the sort is stable. *)
Fixpoint insertTier (t : SightTier) (l : list SightTier) : list SightTier :=
  match l with
  | [] => [t]
  | u :: l' =>
      if Z.ltb (tierNumber u) (tierNumber t) then u :: insertTier t l'
      else t :: l
  end.

Definition sortTiers (l : list SightTier) : list SightTier :=
  fold_right insertTier [] l.

(** The update of [toggleTier] (settings store) and of the tier buttons
    of the tour wizard, on a list of tiers. *)
Definition toggledTiers (currentTiers : list SightTier) (t : SightTier)
  : list SightTier :=
  if existsb (SightTier_eqb t) currentTiers
  then List.filter (fun u => negb (SightTier_eqb u t)) currentTiers
  else sortTiers (currentTiers ++ [t]).

Definition toggleTier (t : SightTier) (s : SettingsState) : SettingsState :=
  mkSettings (googleMapsApiKey s) (settingsOpenAiApiKey s) (userName s)
    (language s) (specialInterests s) (toggledTiers (selectedTiers s) t)
    (audioLength s) (tourWizardSettings s).

(** A tier selection in ascending order without repeats, as a
    proposition and as a test. *)
Definition sortedTiers (l : list SightTier) : Prop :=
  StronglySorted (fun a b => tierNumber a < tierNumber b) l.

Fixpoint sortedTiersb (l : list SightTier) : bool :=
  match l with
  | [] => true
  | a :: rest =>
      match rest with
      | [] => true
      | b :: _ => Z.ltb (tierNumber a) (tierNumber b) && sortedTiersb rest
      end
  end.

(** ** The sights store (sights-store) *)

Module SightsStore.

(** What the store reads from the clock when it saves a narration. *)
Record Clock : Set := mkClock {
  clockNow : Z;
  clockDate : Z
}.

Record SightsState : Set := mkSights {
  sights : list Sight;
  allSights : list Sight;
  favorites : list string;
  userLocation : option Location;
  radius : Q;
  loading : bool
}.

Definition initialState : SightsState := mkSights [] [] [] None 10%Q false.

(** The patches of the store. *)
Definition patch_sights (l : list Sight) (st : SightsState) : SightsState :=
  mkSights l (allSights st) (favorites st) (userLocation st) (radius st)
    (loading st).
Definition patch_allSights (l : list Sight) (st : SightsState) : SightsState :=
  mkSights (sights st) l (favorites st) (userLocation st) (radius st)
    (loading st).
Definition patch_favorites (l : list string) (st : SightsState) : SightsState :=
  mkSights (sights st) (allSights st) l (userLocation st) (radius st)
    (loading st).
Definition patch_userLocation (loc : Location) (st : SightsState) : SightsState :=
  mkSights (sights st) (allSights st) (favorites st) (Some loc) (radius st)
    (loading st).
Definition patch_radius (r : Q) (st : SightsState) : SightsState :=
  mkSights (sights st) (allSights st) (favorites st) (userLocation st) r
    (loading st).
Definition patch_loading (b : bool) (st : SightsState) : SightsState :=
  mkSights (sights st) (allSights st) (favorites st) (userLocation st)
    (radius st) b.

Definition setUserLocation (location : Location) (st : SightsState) : SightsState :=
  patch_userLocation location st.

(** [selectedTiers.includes(sight.tier)]. *)
Definition tierSelected (selectedTiers0 : list SightTier) (sight : Sight) : bool :=
  existsb (SightTier_eqb (tier sight)) selectedTiers0.

Definition filterSightsByTiers (settings : SettingsState) (st : SightsState)
  : SightsState :=
  let radiusFilteredSights :=
    List.filter (withinRadius (radius st)) (allSights st) in
  let tierFilteredSights :=
    List.filter (tierSelected (selectedTiers settings)) radiusFilteredSights in
  patch_sights tierFilteredSights st.

Definition filterSightsByRadius (settings : SettingsState) (st : SightsState)
  : SightsState :=
  filterSightsByTiers settings st.

Definition setRadius (settings : SettingsState) (radius0 : Q) (st : SightsState)
  : SightsState :=
  filterSightsByRadius settings (patch_radius radius0 st).

(** [sightId.toString()]. *)
Definition idString (i : SightId) : string :=
  match i with
  | IdNum n => JS.toString n
  | IdStr s => s
  end.

Definition toggleFavorite (sightId : SightId) (st : SightsState) : SightsState :=
  let idString0 := idString sightId in
  if existsb (String.eqb idString0) (favorites st)
  then patch_favorites
         (List.filter (fun i => negb (String.eqb i idString0)) (favorites st)) st
  else patch_favorites (favorites st ++ [idString0]) st.

(** [{...sight, savedContent: c}]. *)
Definition withSavedContent (sight : Sight) (c : list SavedContent) : Sight :=
  mkSight (id sight) (name sight) (category sight) (latitude sight)
    (longitude sight) (distance sight) (imageUrl sight) (yearBuilt sight)
    (briefDescription sight) (fullDescription sight)
    (briefDescriptionDE sight) (fullDescriptionDE sight) (rating sight)
    (placeId sight) (tier sight) (Some c).

(** [sight.id.toString() === sightId.toString()]. *)
Definition sameIdString (sightId : SightId) (sight : Sight) : bool :=
  String.eqb (idString (id sight)) (idString sightId).

Definition saveSightContent (clock : Clock) (sightId : SightId)
    (language0 length0 interests content : string) (st : SightsState)
  : SightsState :=
  let newSavedContent :=
    mkSavedContent (JS.toString (clockNow clock)) language0 length0 interests
      content (clockDate clock) in
  let updateSight (sight : Sight) :=
    if sameIdString sightId sight then
      withSavedContent sight
        (match savedContent sight with
         | Some l => l
         | None => []
         end ++ [newSavedContent])
    else sight in
  patch_allSights (map updateSight (allSights st))
    (patch_sights (map updateSight (sights st)) st).

Definition deleteSavedContent (sightId : SightId) (contentId : string)
    (st : SightsState) : SightsState :=
  let updateSight (sight : Sight) :=
    if sameIdString sightId sight then
      withSavedContent sight
        (match savedContent sight with
         | Some l =>
             List.filter (fun content => negb (String.eqb (sc_id content) contentId)) l
         | None => []
         end)
    else sight in
  patch_allSights (map updateSight (allSights st))
    (patch_sights (map updateSight (sights st)) st).

Definition contentMatches (language0 length0 interests : string)
    (content : SavedContent) : bool :=
  String.eqb (sc_language content) language0
  && String.eqb (sc_length content) length0
  && String.eqb (sc_interests content) interests.

Definition getSavedContent (sightId : SightId)
    (language0 length0 interests : string) (st : SightsState)
  : option SavedContent :=
  match List.find (sameIdString sightId) (allSights st) with
  | Some sight =>
      match savedContent sight with
      | Some l => List.find (contentMatches language0 length0 interests) l
      | None => None
      end
  | None => None
  end.

(** The description that ships with a sight, for a language and a
    length. *)
Definition builtInDescription (sight : Sight) (language0 length0 : string)
  : string :=
  if String.eqb language0 "EN" then
    if String.eqb length0 "brief" then briefDescription sight
    else fullDescription sight
  else
    if String.eqb length0 "brief" then briefDescriptionDE sight
    else fullDescriptionDE sight.

(** What the request for a narration comes to: [fetch] rejects; the body
    cannot be read ([resp.json()] throws, or the content is there and is
    no string); or the body is read, with the string at
    [choices[0].message.content] when there is one. *)
Inductive NarrationOutcome : Set :=
| NarrationRejected
| NarrationUnreadable
| NarrationBody (content : option string).

(** [generateSightContent]: the text it resolves to and the store it
    leaves.  [trim] is [String.prototype.trim] of the host. *)
Definition generateSightContent (trim : string -> string)
    (settings : SettingsState) (clock : Clock)
    (response : NarrationOutcome) (sight : Sight)
    (language0 length0 : string) (st : SightsState) : string * SightsState :=
  let interests :=
    if JS.nonEmpty (specialInterests settings) then specialInterests settings
    else "general" in
  match getSavedContent (id sight) language0 length0 interests st with
  | Some saved => (sc_content saved, st)
  | None =>
      if negb (JS.nonEmpty (settingsOpenAiApiKey settings)) then
        (builtInDescription sight language0 length0, st)
      else
        match response with
        | NarrationRejected | NarrationUnreadable =>
            (builtInDescription sight language0 length0, st)
        | NarrationBody content =>
            let trimmed :=
              match content with
              | Some c => trim c
              | None => EmptyString
              end in
            let generatedContent :=
              if JS.nonEmpty trimmed then trimmed
              else builtInDescription sight language0 length0 in
            (generatedContent,
             saveSightContent clock (id sight) language0 length0 interests
               generatedContent st)
        end
  end.

(** The radius of the places request, in metres:
    [Math.max(100, Math.min(50000, Math.round(radius * 1000)))]. *)
Definition radiusMeters (radiusKm : Q) : Z :=
  Z.max 100 (Z.min 50000 (Qfloor (radiusKm * 1000 + (1 # 2))%Q)).

End SightsStore.

(** *** Places to sights *)

(** The names of the members that every object inherits from
    [Object.prototype]. *)
Definition inheritedMember (key : string) : bool :=
  match key with
  | "constructor" | "hasOwnProperty" | "isPrototypeOf"
  | "propertyIsEnumerable" | "toLocaleString" | "toString" | "valueOf"
  | "__proto__" | "__defineGetter__" | "__defineSetter__"
  | "__lookupGetter__" | "__lookupSetter__" => true
  | _ => false
  end.

(** The own keys of the object literal [categoryMap], with their
    labels. *)
Definition categoryLabels (type : string) : option string :=
  match type with
  | "tourist_attraction" => Some "Tourist Attraction"
  | "museum" => Some "Museum"
  | "church" => Some "Religious Site"
  | "park" => Some "Park"
  | "monument" => Some "Monument"
  | "castle" => Some "Castle"
  | "art_gallery" => Some "Art Gallery"
  | "zoo" => Some "Zoo"
  | "amusement_park" => Some "Amusement Park"
  | "aquarium" => Some "Aquarium"
  | "library" => Some "Library"
  | "university" => Some "University"
  | "stadium" => Some "Stadium"
  | "shopping_mall" => Some "Shopping"
  | "restaurant" => Some "Restaurant"
  | "cafe" => Some "Cafe"
  | "bar" => Some "Bar"
  | "night_club" => Some "Nightlife"
  | "movie_theater" => Some "Entertainment"
  | "bowling_alley" => Some "Entertainment"
  | "gym" => Some "Sports & Fitness"
  | "spa" => Some "Wellness"
  | "hospital" => Some "Healthcare"
  | "pharmacy" => Some "Healthcare"
  | "bank" => Some "Services"
  | "atm" => Some "Services"
  | "gas_station" => Some "Services"
  | "car_rental" => Some "Transportation"
  | "subway_station" => Some "Transportation"
  | "bus_station" => Some "Transportation"
  | "train_station" => Some "Transportation"
  | "airport" => Some "Transportation"
  | "lodging" => Some "Accommodation"
  | "campground" => Some "Accommodation"
  | "rv_park" => Some "Accommodation"
  | _ => None
  end.

(** What indexing [categoryMap] gives: the label of an own key, the
    inherited member for a name of [Object.prototype], [undefined] for
    any other string. *)
Inductive CategoryLookup : Set :=
| OwnLabel (label : string)
| Inherited
| NoEntry.

Definition categoryMap (type : string) : CategoryLookup :=
  match categoryLabels type with
  | Some label => OwnLabel label
  | None => if inheritedMember type then Inherited else NoEntry
  end.

(** The characters of [\w]: letters, digits and the underscore. *)
Definition isWordChar (c : ascii) : bool :=
  let n := nat_of_ascii c in
  ((48 <=? n)%nat && (n <=? 57)%nat)
  || ((65 <=? n)%nat && (n <=? 90)%nat)
  || ((97 <=? n)%nat && (n <=? 122)%nat)
  || (n =? 95)%nat.

(** [s.replace(/_/g, " ")]. *)
Fixpoint underscoresToSpaces (s : string) : string :=
  match s with
  | EmptyString => EmptyString
  | String c r =>
      String (if Ascii.eqb c "_"%char then " "%char else c)
        (underscoresToSpaces r)
  end.

(** [s.replace(/\b\w/g, l => l.toUpperCase())]: a word character that
    does not follow a word character is put in upper case. *)
Fixpoint capitalizeWords (afterWordChar : bool) (s : string) : string :=
  match s with
  | EmptyString => EmptyString
  | String c r =>
      String (if isWordChar c && negb afterWordChar then JS.upperChar c else c)
        (capitalizeWords (isWordChar c) r)
  end.

(** Truthiness of what a category can hold: only the empty string is
    falsy. *)
Definition categoryTruthy (c : Category) : bool :=
  match c with
  | CategoryText text => JS.nonEmpty text
  | CategoryMember _ => true
  end.

(** [formatCategory(type)], for a type that may be [undefined].  The
    labels of the table are not empty, so [categoryMap[type] || ...]
    takes the label of an own key and the member of an inherited one. *)
Definition formatCategory (type : option string) : Category :=
  match type with
  | None => CategoryText "Attraction"
  | Some t =>
      if negb (JS.nonEmpty t) then CategoryText "Attraction"
      else
        match categoryMap t with
        | OwnLabel label => CategoryText label
        | Inherited => CategoryMember t
        | NoEntry => CategoryText (capitalizeWords false (underscoresToSpaces t))
        end
  end.

(** [c || fallback] for a category. *)
Definition categoryOr (c : Category) (fallback : string) : Category :=
  if categoryTruthy c then c else CategoryText fallback.

(** A result of the places search, with the fields the store reads. *)
Record Place : Set := mkPlace {
  place_id : option string;
  place_name : string;
  place_types : option (list string);
  place_lat : Q;
  place_lng : Q;
  place_photo_reference : option string;
  place_vicinity : option string;
  place_rating : option Q;
  place_user_ratings_total : option Q
}.

(** What the places request comes to: [fetch] rejects, or a response
    arrives with its [ok] flag and, when the body can be read and its
    results have a location each, the [status] and the [results] of the
    body ([None] for [results] when the field is missing). *)
Inductive PlacesOutcome : Set :=
| PlacesRejected
| PlacesResponse (ok : bool) (body : option (string * option (list Place))).

(** [parseFloat(x.toFixed(1))]: the nearest multiple of 0.1, the larger
    in size of two equally near. *)
Definition roundTenth (x : Q) : Q :=
  if Qle_bool 0 x then
    if Qle_bool (inject_Z (10 ^ 21)) x then x
    else (inject_Z (Qfloor (x * 10 + (1 # 2))) / 10)%Q
  else
    if Qle_bool (inject_Z (10 ^ 21)) (- x) then x
    else (- (inject_Z (Qfloor (- x * 10 + (1 # 2))) / 10))%Q.

(** [x || fallback] for an optional string. *)
Definition stringOr (x : option string) (fallback : string) : string :=
  match x with
  | Some s => if JS.nonEmpty s then s else fallback
  | None => fallback
  end.

(** The saved narrations of the first cached sight with an identifier
    (none saved yet counts as the empty list); [None] when no cached
    sight has the identifier. *)
Definition cachedContent (sightId : SightId) (st : SightsStore.SightsState)
  : option (list SavedContent) :=
  match List.find (SightsStore.sameIdString sightId) (SightsStore.allSights st) with
  | Some sight =>
      Some (match savedContent sight with Some l => l | None => [] end)
  | None => None
  end.

(** ** The sights store that filters by the map region

    The version of the sights store whose visible list follows the region
    shown on the map instead of the radius. *)

Module RegionStore.

(** [Region] of the map component. *)
Record Region : Set := mkRegion {
  region_latitude : Q;
  region_longitude : Q;
  latitudeDelta : Q;
  longitudeDelta : Q
}.

Record SightsState : Set := mkSights {
  sights : list Sight;
  allSights : list Sight;
  favorites : list string;
  userLocation : option Location;
  radius : Q;
  loading : bool;
  lastRegion : option Region
}.

Definition patch_sights (l : list Sight) (st : SightsState) : SightsState :=
  mkSights l (allSights st) (favorites st) (userLocation st) (radius st)
    (loading st) (lastRegion st).
Definition patch_lastRegion (r : Region) (st : SightsState) : SightsState :=
  mkSights (sights st) (allSights st) (favorites st) (userLocation st)
    (radius st) (loading st) (Some r).

Definition setLastRegion (r : Region) (st : SightsState) : SightsState :=
  patch_lastRegion r st.

Section Doubles.

(** [a + b] and [a - b] as the machine computes them on doubles.  Halving
    a double is exact, so [delta / 2] is the exact quotient. *)
Variables (plusDouble minusDouble : Q -> Q -> Q).

(** The test of the bounding box. *)
Definition inBox (region : Region) (s : Sight) : bool :=
  let latMin := minusDouble (region_latitude region) (latitudeDelta region / 2)%Q in
  let latMax := plusDouble (region_latitude region) (latitudeDelta region / 2)%Q in
  let lonMin := minusDouble (region_longitude region) (longitudeDelta region / 2)%Q in
  let lonMax := plusDouble (region_longitude region) (longitudeDelta region / 2)%Q in
  JS.ge (latitude s) latMin
  && JS.le (latitude s) latMax
  && JS.ge (longitude s) lonMin
  && JS.le (longitude s) lonMax.

Definition filterByMapRegion (settings : SettingsState) (region : Region)
    (st : SightsState) : SightsState :=
  let st1 := patch_lastRegion region st in
  let box := List.filter (inBox region) (allSights st1) in
  let filtered :=
    List.filter (SightsStore.tierSelected (selectedTiers settings)) box in
  patch_sights filtered st1.

Definition filterSightsByTiers (settings : SettingsState) (st : SightsState)
  : SightsState :=
  match lastRegion st with
  | None =>
      patch_sights
        (List.filter (SightsStore.tierSelected (selectedTiers settings))
           (allSights st)) st
  | Some region => filterByMapRegion settings region st
  end.

Definition filterSightsByRadius (settings : SettingsState) (st : SightsState)
  : SightsState :=
  filterSightsByTiers settings st.

End Doubles.

End RegionStore.

(** ** Sample data for the stores *)

Module StoreSamples.

Definition sampleSettings : SettingsState :=
  mkSettings "maps-sample" "sk-sample" "" "EN" "" [Tier1; Tier2] Medium
    Samples.walkingTour.

Definition samplePlaces : list Place :=
  [ mkPlace (Some "ChIJ-far") "Far tower" (Some ["museum"]) 0 0.02 None
      (Some "Tower street 1") (Some 4.6%Q) (Some 2500%Q);
    mkPlace None "Near fountain" None 0 0.001 (Some "photo-1") None None None ].

Definition sampleResponse : PlacesOutcome :=
  PlacesResponse true (Some ("OK", Some samplePlaces)).

Definition cachedStore : SightsStore.SightsState :=
  SightsStore.patch_sights [Samples.gamma]
    (SightsStore.patch_allSights [Samples.gamma; Samples.delta] SightsStore.initialState).

End StoreSamples.

(** ** The engine, over the great-circle distance *)

Section Engine.

#[local] Set Default Proof Using "Type".
#[local] Set Proof Using Clear Unused.

(** [calculateDistance(lat1, lon1, lat2, lon2)], in kilometres. *)
Variable calculateDistance : Q -> Q -> Q -> Q -> Q.

(** [a * b] as the machine computes it on doubles: the double nearest to
    the product.  It stands where the budget, a number that is typed in,
    is widened and compared with distances recorded in tenths: there the
    rounding decides (for the budget 0.6 the product with 1.5 lies below
    0.9). *)
Variable timesDouble : Q -> Q -> Q.

(** [s.toLowerCase()] and [s.trim()] of the host. *)
Variables (toLowerCase trim : string -> string).

(** The empty string has no letter to fold. *)
Hypothesis toLowerCase_empty : toLowerCase EmptyString = EmptyString.

Definition distanceFrom (from : Location) (sight : Sight) : Q :=
  calculateDistance (loc_latitude from) (loc_longitude from)
    (latitude sight) (longitude sight).

(** *** Heuristic optimiser: nearest neighbour under a budget *)

(** The callback of both [reduce] calls: keep the closer of the two to
    the current location, the earlier one on a tie. *)
Definition closer (currentLocation : Location) (closest sight : Sight) : Sight :=
  let distance := distanceFrom currentLocation sight in
  let closestDistance := distanceFrom currentLocation closest in
  if JS.lt distance closestDistance then sight else closest.

(** The variables of the [while] loop. *)
Record LoopState : Set := mkLoop {
  visited : list SightId;
  route : list Sight;
  currentLocation : Location;
  loop_totalDistance : Q
}.

Definition unvisitedOf (sights : list Sight) (w : LoopState) : list Sight :=
  List.filter (fun sight => negb (has (visited w) (id sight))) sights.

(** [totalDistance + distanceToNext + estimatedReturnDistance], the left
    side of the budget test for the candidate [nextSight]. *)
Definition budgetNeed (userLocation : Location) (w : LoopState)
    (nextSight : Sight) : Q :=
  let distanceToNext := distanceFrom (currentLocation w) nextSight in
  let estimatedReturnDistance :=
    (calculateDistance (latitude nextSight) (longitude nextSight)
       (loc_latitude userLocation) (loc_longitude userLocation) * 0.5)%Q in
  (loop_totalDistance w + distanceToNext + estimatedReturnDistance)%Q.

Definition visit (w : LoopState) (nextSight : Sight) : LoopState :=
  mkLoop (add (visited w) (id nextSight))
    (route w ++ [nextSight])
    (locationOf nextSight)
    (loop_totalDistance w + distanceFrom (currentLocation w) nextSight)%Q.

(** One turn of the [while] loop: [None] when the loop is left (its
    condition fails or a [break] is taken), the next variables
    otherwise. *)
Definition walkStep (userLocation : Location) (sights : list Sight)
    (maxDistance : Q) (w : LoopState) : option LoopState :=
  if (length (visited w) <? length sights)%nat
     && (length (visited w) <? 8)%nat
  then
    match JS.reduce1 (closer (currentLocation w)) (unvisitedOf sights w) with
    | None => None
    | Some nextSight =>
        if JS.gt (budgetNeed userLocation w nextSight) (maxDistance * 0.9)%Q
        then None
        else Some (visit w nextSight)
    end
  else None.

(** The loop, run for at most [fuel] turns. *)
Fixpoint walkLoop (fuel : nat) (userLocation : Location)
    (sights : list Sight) (maxDistance : Q) (w : LoopState) : LoopState :=
  match fuel with
  | O => w
  | S fuel' =>
      match walkStep userLocation sights maxDistance w with
      | None => w
      | Some w' => walkLoop fuel' userLocation sights maxDistance w'
      end
  end.

(** Every turn adds an identifier to [visited] and the loop needs fewer
    than 8 of them, so 8 turns are never used up (see [walkLoop_exit] and
    [walkLoop_fuel]). *)
Definition optimizeTourSimple (userLocation : Location) (sights : list Sight)
    (maxDistance : Q) (wizardSettings : option TourWizardSettings)
  : list Sight :=
  if (length sights <=? 1)%nat then sights
  else
    match JS.reduce1 (closer userLocation) sights with
    | None => []
    | Some closestSight =>
        let start :=
          mkLoop (add [] (id closestSight)) [closestSight]
            (locationOf closestSight) 0%Q in
        route (walkLoop 8 userLocation sights maxDistance start)
    end.

(** *** Delegated optimiser *)

(** The fuzzy match of a returned name against a candidate. *)
Definition nameMatches (name0 : string) (s : Sight) : bool :=
  JS.includes (toLowerCase (name s)) (toLowerCase name0)
  || JS.includes (toLowerCase name0) (toLowerCase (name s)).

(** The body of [sightNames.forEach]. *)
Definition pushMatch (sights : list Sight) (optimizedRoute : list Sight)
    (name0 : string) : list Sight :=
  match List.find (nameMatches name0) sights with
  | Some sight =>
      if inRoute optimizedRoute (id sight) then optimizedRoute
      else optimizedRoute ++ [sight]
  | None => optimizedRoute
  end.

(** The top-up of a route of fewer than 3 stops. *)
Definition topUp (sights : list Sight) (optimizedRoute : list Sight) : list Sight :=
  if (length optimizedRoute <? 3)%nat then
    let remainingSights :=
      sortByDistance
        (List.filter (fun sight => negb (inRoute optimizedRoute (id sight))) sights) in
    optimizedRoute
      ++ firstn (Nat.min 5 (length remainingSights)) remainingSights
  else optimizedRoute.

(** The [try] block: [None] when it throws. *)
Definition delegatedRoute (response : FetchOutcome) (userLocation : Location)
    (sights : list Sight) (maxDistance : Q) : option (list Sight) :=
  match response with
  | FetchRejected => None
  | FetchResponse false _ => None
  | FetchResponse true None => None
  | FetchResponse true (Some completion) =>
      let sightNames := map trim (JS.splitComma completion) in
      let optimizedRoute :=
        topUp sights (fold_left (pushMatch sights) sightNames []) in
      Some (if (0 <? length optimizedRoute)%nat then optimizedRoute
            else optimizeTourSimple userLocation sights maxDistance None)
  end.

Definition optimizeTourWithAI (response : FetchOutcome) (userLocation : Location)
    (sights : list Sight) (maxDistance : Q)
    (wizardSettings : option TourWizardSettings) : list Sight :=
  match delegatedRoute response userLocation sights maxDistance with
  | Some optimizedRoute => optimizedRoute
  | None => optimizeTourSimple userLocation sights maxDistance wizardSettings
  end.

(** *** Tour assembler *)

(** [stop.distanceToNext || 0] and [stop.walkingTimeToNext || 0]. *)
Definition distanceToNextOrZero (stop : TourStop) : Q :=
  match distanceToNext stop with
  | Some d => JS.orZero d
  | None => 0%Q
  end.

Definition walkingTimeToNextOrZero (stop : TourStop) : Z :=
  match walkingTimeToNext stop with
  | Some t => if Z.eqb t 0 then 0 else t
  | None => 0
  end.

(** The callback of [optimizedRoute.map((sight, index) => ...)]. *)
Definition toTourStop (wizardSettings : option TourWizardSettings)
    (optimizedRoute : list Sight) (index : nat) (sight : Sight) : TourStop :=
  match optimizedRoute !! S index with
  | Some nextSight =>
      let distanceToNext := distanceFrom (locationOf sight) nextSight in
      let transportMultiplier :=
        match wizardSettings with
        | Some w => getTransportTimeMultiplier (transportMode w)
        | None => 12%Q
        end in
      mkStop sight (Z.of_nat index + 1) (Some distanceToNext)
        (Some (JS.ceil (distanceToNext * transportMultiplier)))
  | None =>
      mkStop sight (Z.of_nat index + 1) (Some 0%Q) (Some 0)
  end.

Definition tourName (wizardSettings : option TourWizardSettings)
    (tourStops : list TourStop) : string :=
  match wizardSettings with
  | Some w =>
      JS.toString (numberOfDays w) ++ "-Day "
        ++ JS.capitalize (transportModeString (transportMode w)) ++ " Tour"
  | None =>
      JS.toString (Z.of_nat (length tourStops)) ++ "-Stop Tour"
  end.

Definition assembleTour (env : Env) (wizardSettings : option TourWizardSettings)
    (optimizedRoute : list Sight) : Tour :=
  let tourStops := imap (toTourStop wizardSettings optimizedRoute) optimizedRoute in
  let totalWalkingDistance :=
    fold_left (fun sum stop => (sum + distanceToNextOrZero stop)%Q) tourStops 0%Q in
  let totalWalkingTime :=
    fold_left (fun sum stop => sum + walkingTimeToNextOrZero stop) tourStops 0 in
  let sightTimePerStop :=
    match wizardSettings with
    | Some w => getDetailLevelTime (detailLevelPerSight w)
    | None => 15
    end in
  let totalSightTime := Z.of_nat (length tourStops) * sightTimePerStop in
  mkTour (JS.toString (dateNow env))
    (tourName wizardSettings tourStops)
    tourStops
    totalWalkingDistance
    (totalWalkingTime + totalSightTime)
    (newDate env).

(** *** [generateTour] *)

(** The candidates handed to the optimiser: those within the budget or,
    when there is none, the closest 8 within the widened radius, the
    double product of the budget and 1.5. *)
Definition selectCandidates (maxDistance : Q) (filteredSights : list Sight)
  : Store (list Sight) :=
  let nearSights := List.filter (withinRadius maxDistance) filteredSights in
  if (length nearSights =? 0)%nat then
    let expandedSights :=
      List.filter (withinRadius (timesDouble maxDistance 1.5)) filteredSights in
    if (length expandedSights =? 0)%nat then
      throw (NoSightsFound (timesDouble maxDistance 1.5))
    else
      let sortedSights := sortByDistance expandedSights in
      mret (nearSights
              ++ firstn (Nat.min 8 (length sortedSights)) sortedSights)
  else mret nearSights.

(** The choice between the two optimisers. *)
Definition optimizeRoute (env : Env) (userLocation : Location)
    (nearSights : list Sight) (maxDistance : Q)
    (wizardSettings : option TourWizardSettings) : list Sight :=
  if JS.nonEmpty (openAiApiKey env) && (3 <? length nearSights)%nat then
    optimizeTourWithAI (fetchOutcome env) userLocation nearSights
      maxDistance wizardSettings
  else
    optimizeTourSimple userLocation nearSights maxDistance wizardSettings.

(** The [try] block. *)
Definition generateTourBody (env : Env) (userLocation : Location)
    (maxDistance : Q) (availableSights : list Sight)
    (wizardSettings : option TourWizardSettings) : Store unit :=
  let filteredSights := filterByTier wizardSettings availableSights in
  nearSights ← selectCandidates maxDistance filteredSights;
  let optimizedRoute :=
    optimizeRoute env userLocation nearSights maxDistance wizardSettings in
  if (length optimizedRoute =? 0)%nat then throw CouldNotCreateTour
  else
    let tour := assembleTour env wizardSettings optimizedRoute in
    set (patch_currentTour (Some tour)).

Definition generateTour (env : Env) (userLocation : Location)
    (maxDistance : Q) (availableSights : list Sight)
    (wizardSettings : option TourWizardSettings) : Store unit :=
  _ ← set (patch_isGenerating true);
  tryFinally
    (tryCatch
       (generateTourBody env userLocation maxDistance availableSights
          wizardSettings)
       (fun error => throw error))
    (set (patch_isGenerating false)).

(** *** Vocabulary of the properties *)

(** The location reached after [route]: its last stop, the user's
    location before the first stop. *)
Definition whereAfter (userLocation : Location) (route0 : list Sight) : Location :=
  match last route0 with
  | Some s => locationOf s
  | None => userLocation
  end.

(** Sum of the distances between consecutive stops, added up from the
    first leg on. *)
Fixpoint pathFrom (acc : Q) (from : Sight) (rest : list Sight) : Q :=
  match rest with
  | [] => acc
  | s :: rest' =>
      pathFrom (acc + distanceFrom (locationOf from) s)%Q s rest'
  end.

Definition pathLength (route0 : list Sight) : Q :=
  match route0 with
  | [] => 0%Q
  | s :: rest => pathFrom 0%Q s rest
  end.

(** Accumulated distance, plus the distance to the candidate, plus half
    the candidate's distance back to the origin. *)
Definition needAfter (userLocation : Location) (route0 : list Sight)
    (candidate : Sight) : Q :=
  (pathLength route0
   + distanceFrom (whereAfter userLocation route0) candidate
   + calculateDistance (latitude candidate) (longitude candidate)
       (loc_latitude userLocation) (loc_longitude userLocation) * 0.5)%Q.

(** The candidates whose identifier is not among those of [route]. *)
Definition remaining (sights0 : list Sight) (route0 : list Sight) : list Sight :=
  List.filter (fun sight => negb (has (map id route0) (id sight))) sights0.

(** The nearest remaining candidate from the end of [route]. *)
Definition nearestRemaining (userLocation : Location) (sights0 : list Sight)
    (route0 : list Sight) : option Sight :=
  JS.reduce1 (closer (whereAfter userLocation route0)) (remaining sights0 route0).

(** Every stop is the nearest remaining candidate from the stops before
    it, and every stop after the first passed the budget test. *)
Definition greedyStops (userLocation : Location) (sights0 : list Sight)
    (maxDistance : Q) (route0 : list Sight) : Prop :=
  forall pre s post,
    route0 = pre ++ s :: post ->
    nearestRemaining userLocation sights0 pre = Some s
    /\ (pre <> [] -> (needAfter userLocation pre s <= maxDistance * 0.9)%Q).

(** [s] is the nearest candidate that is not yet in [route0], measured
    from the end of [route0]: a candidate whose identifier is not in the
    route, closer than every such candidate before it in the list and at
    least as close as every such candidate after it. *)
Definition nearestUnvisited (userLocation : Location)
    (sights0 route0 : list Sight) (s : Sight) : Prop :=
  exists before after,
    sights0 = before ++ s :: after
    /\ ~ In (id s) (map id route0)
    /\ (forall c, In c before -> ~ In (id c) (map id route0) ->
          (distanceFrom (whereAfter userLocation route0) s
           < distanceFrom (whereAfter userLocation route0) c)%Q)
    /\ (forall c, In c after -> ~ In (id c) (map id route0) ->
          (distanceFrom (whereAfter userLocation route0) s
           <= distanceFrom (whereAfter userLocation route0) c)%Q).

Definition allVisited (sights0 route0 : list Sight) : Prop :=
  forall s, In s sights0 -> In (id s) (map id route0).

(** Why the loop was left: every candidate is visited, 8 stops are
    reached, or the nearest remaining candidate, which is not in the
    route, needs more than 0.9 times the budget. *)
Definition stopReason (userLocation : Location) (sights0 : list Sight)
    (maxDistance : Q) (route0 : list Sight) : Prop :=
  allVisited sights0 route0
  \/ length route0 = 8%nat
  \/ exists c,
       nearestRemaining userLocation sights0 route0 = Some c
       /\ (maxDistance * 0.9 < needAfter userLocation route0 c)%Q
       /\ ~ In c route0.

(** What the loop keeps true of its variables. *)
Record WalkInv (userLocation : Location) (sights0 : list Sight)
    (maxDistance : Q) (w : LoopState) : Prop := mkWalkInv {
  inv_nonempty : route w <> [];
  inv_visited : visited w = map id (route w);
  inv_nodup : List.NoDup (visited w);
  inv_where : currentLocation w = whereAfter userLocation (route w);
  inv_total : loop_totalDistance w = pathLength (route w);
  inv_cap : (length (visited w) <= 8)%nat;
  inv_incl : incl (route w) sights0;
  inv_greedy : greedyStops userLocation sights0 maxDistance (route w)
}.

(** The sums of the per-stop fields; an absent field adds nothing. *)
Definition sumDistanceToNext (stops : list TourStop) : Q :=
  fold_right
    (fun stop acc =>
       match distanceToNext stop with
       | Some d => (d + acc)%Q
       | None => acc
       end) 0%Q stops.

Definition sumWalkingTimeToNext (stops : list TourStop) : Z :=
  fold_right
    (fun stop acc =>
       match walkingTimeToNext stop with
       | Some t => t + acc
       | None => acc
       end) 0 stops.

(** The distances between consecutive stops, added up from the last leg
    on. *)
Fixpoint legsTotal (route0 : list Sight) : Q :=
  match route0 with
  | [] => 0%Q
  | a :: rest =>
      match rest with
      | [] => 0%Q
      | b :: _ => (distanceFrom (locationOf a) b + legsTotal rest)%Q
      end
  end.

(** Half the straight-line distance from a sight back to the user. *)
Definition returnEstimate (userLocation : Location) (sight : Sight) : Q :=
  (calculateDistance (latitude sight) (longitude sight)
     (loc_latitude userLocation) (loc_longitude userLocation) * 0.5)%Q.

(** The names of an answer of the completion service. *)
Definition answerNames (completion : string) : list string :=
  map trim (JS.splitComma completion).

(** [sub] occurs in [s] as a run of consecutive characters. *)
Definition occursIn (sub s : string) : Prop :=
  exists pre post : string, s = (pre ++ sub ++ post)%string.

(** The lower-case forms of a returned name and of the name of a
    candidate: one occurs in the other. *)
Definition namesAlike (name0 : string) (s : Sight) : Prop :=
  occursIn (toLowerCase name0) (toLowerCase (name s))
  \/ occursIn (toLowerCase (name s)) (toLowerCase name0).

(** The candidates matched by the names of an answer, before the top-up. *)
Definition matchedRoute (sights0 : list Sight) (completion : string) : list Sight :=
  fold_left (pushMatch sights0) (answerNames completion) [].

(** The sights of a list whose identifier did not occur before, in [seen]
    or earlier in the list. *)
Fixpoint keepNew (seen : list Sight) (l : list Sight) : list Sight :=
  match l with
  | [] => []
  | x :: l' =>
      if inRoute seen (id x) then keepNew seen l'
      else x :: keepNew (seen ++ [x]) l'
  end.

(** *** [fetchNearbySights] (sights-store) *)

(** The callback of [results.map((place, index) => ...)]. *)
Definition placeToSight (googleMapsApiKey0 : string) (latitude0 longitude0 : Q)
    (index : nat) (place : Place) : Sight :=
  let distance0 :=
    calculateDistance latitude0 longitude0 (place_lat place) (place_lng place) in
  let tier0 :=
    determineSightTier (place_rating place) (place_user_ratings_total place) in
  mkSight
    (IdStr (stringOr (place_id place)
              ("place_" ++ JS.toString (Z.of_nat index))))
    (place_name place)
    (categoryOr
       (formatCategory
          (match place_types place with
           | Some (t :: _) => Some t
           | _ => None
           end))
       "Attraction")
    (place_lat place)
    (place_lng place)
    (Some (roundTenth distance0))
    (match place_photo_reference place with
     | Some reference =>
         "https://maps.googleapis.com/maps/api/place/photo?maxwidth=400&photo_reference="
           ++ reference ++ "&key=" ++ googleMapsApiKey0
     | None =>
         "https://images.unsplash.com/photo-1469474968028-56623f02e42e?q=80&w=2070&auto=format&fit=crop"
     end)
    None
    (stringOr (place_vicinity place) "A notable attraction in the area")
    (stringOr (place_vicinity place) "A notable attraction in the area")
    (stringOr (place_vicinity place)
       "Eine bemerkenswerte Attraktion in der Gegend")
    (stringOr (place_vicinity place)
       "Eine bemerkenswerte Attraktion in der Gegend")
    (place_rating place)
    (place_id place)
    tier0
    None.

(** The sights of a response, sorted by distance; [None] when the [try]
    block throws before it has them. *)
Definition fetchedSights (googleMapsApiKey0 : string) (response : PlacesOutcome)
    (latitude0 longitude0 : Q) : option (list Sight) :=
  match response with
  | PlacesRejected => None
  | PlacesResponse false _ => None
  | PlacesResponse true None => None
  | PlacesResponse true (Some (status, results)) =>
      if negb (String.eqb status "OK") && negb (String.eqb status "ZERO_RESULTS")
      then None
      else
        let results0 := match results with Some l => l | None => [] end in
        let sightsWithDistance :=
          imap (placeToSight googleMapsApiKey0 latitude0 longitude0) results0 in
        Some (sortByDistance sightsWithDistance)
  end.

(** [set({ allSights: [], sights: [] })]. *)
Definition clearSights (st : SightsStore.SightsState) : SightsStore.SightsState :=
  SightsStore.patch_sights [] (SightsStore.patch_allSights [] st).

(** [fetchNearbySights]: the states it publishes, in order; the last one
    is the state it leaves.  It raises nothing: the [catch] clause keeps
    every error. *)
Definition fetchNearbySights (settings : SettingsState) (response : PlacesOutcome)
    (latitude0 longitude0 : Q) (st : SightsStore.SightsState)
  : list SightsStore.SightsState :=
  let st1 := SightsStore.patch_loading true st in
  let inTry :=
    if negb (JS.nonEmpty (googleMapsApiKey settings)) then [clearSights st1]
    else
      match fetchedSights (googleMapsApiKey settings) response latitude0
              longitude0 with
      | Some sortedSights =>
          let st2 := SightsStore.patch_allSights sortedSights st1 in
          [st2; SightsStore.filterSightsByRadius settings st2]
      | None => [clearSights st1]
      end in
  let st3 := List.last inTry st1 in
  st1 :: inTry ++ [SightsStore.patch_loading false st3].

(** The state [fetchNearbySights] leaves. *)
Definition afterFetch (settings : SettingsState) (response : PlacesOutcome)
    (latitude0 longitude0 : Q) (st : SightsStore.SightsState)
  : SightsStore.SightsState :=
  List.last (fetchNearbySights settings response latitude0 longitude0 st) st.

(** ** Properties of the heuristic optimiser *)

Lemma SightId_eqb_eq (a b : SightId) : SightId_eqb a b = true <-> a = b.
Proof.
  destruct a as [x|x], b as [y|y]; simpl.
  - rewrite Z.eqb_eq. split; congruence.
  - split; discriminate.
  - split; discriminate.
  - rewrite String.eqb_eq. split; congruence.
Qed.

Lemma has_In (l : list SightId) (i : SightId) : has l i = true <-> In i l.
Proof.
  unfold has. rewrite existsb_exists. split.
  - intros [x [Hx He]]. apply SightId_eqb_eq in He. now subst.
  - intros Hi. exists i. split; [assumption | now apply SightId_eqb_eq].
Qed.

Lemma has_false (l : list SightId) (i : SightId) : has l i = false <-> ~ In i l.
Proof.
  rewrite <- has_In. destruct (has l i); split; congruence.
Qed.

Lemma add_fresh (l : list SightId) (i : SightId) :
  ~ In i l -> add l i = l ++ [i].
Proof.
  intros H. unfold add. apply has_false in H. now rewrite H.
Qed.

Lemma closer_cases (cur : Location) (a b : Sight) :
  closer cur a b = a \/ closer cur a b = b.
Proof.
  unfold closer. destruct (JS.lt _ _); auto.
Qed.

Lemma fold_closer_In (cur : Location) (l : list Sight) (x : Sight) :
  In (fold_left (closer cur) l x) (x :: l).
Proof.
  revert x. induction l as [|y l IH]; intros x; simpl.
  - now left.
  - destruct (closer_cases cur x y) as [E|E]; rewrite E.
    + destruct (IH x) as [H|H]; auto.
    + right. apply IH.
Qed.

Lemma reduce1_closer_In (cur : Location) (l : list Sight) (s : Sight) :
  JS.reduce1 (closer cur) l = Some s -> In s l.
Proof.
  destruct l as [|x l]; simpl; [discriminate|].
  intros [= <-]. apply fold_closer_In.
Qed.

Lemma reduce1_closer_None (cur : Location) (l : list Sight) :
  JS.reduce1 (closer cur) l = None -> l = [].
Proof.
  destruct l; [reflexivity | discriminate].
Qed.

Lemma whereAfter_snoc (user : Location) (r : list Sight) (s : Sight) :
  whereAfter user (r ++ [s]) = locationOf s.
Proof.
  unfold whereAfter. now rewrite last_snoc.
Qed.

Lemma pathFrom_snoc (user : Location) (rest : list Sight) :
  forall acc x s,
    pathFrom acc x (rest ++ [s])
    = (pathFrom acc x rest + distanceFrom (whereAfter user (x :: rest)) s)%Q.
Proof.
  induction rest as [|y rest IH]; intros acc x s; simpl.
  - reflexivity.
  - rewrite IH. unfold whereAfter. now rewrite !last_cons_cons.
Qed.

Lemma pathLength_snoc (user : Location) (r : list Sight) (s : Sight) :
  r <> [] ->
  pathLength (r ++ [s])
  = (pathLength r + distanceFrom (whereAfter user r) s)%Q.
Proof.
  destruct r as [|x rest]; [congruence|]. intros _.
  simpl. apply pathFrom_snoc.
Qed.

Section Walk.

Variables (userLocation : Location) (sights0 : list Sight) (maxDistance : Q).

Local Abbreviation Inv := (WalkInv userLocation sights0 maxDistance).
Local Abbreviation step := (walkStep userLocation sights0 maxDistance).
Local Abbreviation loop := (fun fuel => walkLoop fuel userLocation sights0 maxDistance).

Lemma unvisitedOf_remaining (w : LoopState) :
  Inv w -> unvisitedOf sights0 w = remaining sights0 (route w).
Proof.
  intros I. unfold unvisitedOf, remaining. now rewrite (inv_visited _ _ _ _ I).
Qed.

Lemma budgetNeed_needAfter (w : LoopState) (c : Sight) :
  Inv w -> budgetNeed userLocation w c = needAfter userLocation (route w) c.
Proof.
  intros I. unfold budgetNeed, needAfter.
  now rewrite (inv_where _ _ _ _ I), (inv_total _ _ _ _ I).
Qed.

(** What a turn that goes on has done. *)
Lemma walkStep_Some (w w' : LoopState) :
  Inv w -> step w = Some w' ->
  exists nextSight,
    w' = visit w nextSight
    /\ (length (visited w) < 8)%nat
    /\ nearestRemaining userLocation sights0 (route w) = Some nextSight
    /\ (needAfter userLocation (route w) nextSight <= maxDistance * 0.9)%Q.
Proof.
  intros I. unfold walkStep.
  destruct (_ && _) eqn:Hc; [|discriminate].
  apply andb_true_iff in Hc as [_ Hc]. apply Nat.ltb_lt in Hc.
  rewrite (unvisitedOf_remaining w I).
  destruct (JS.reduce1 _ _) as [nextSight|] eqn:Hn; [|discriminate].
  rewrite (budgetNeed_needAfter w nextSight I).
  unfold JS.gt. destruct (Qle_bool _ _) eqn:Hb; simpl; [|discriminate].
  intros [= <-]. exists nextSight.
  split; [reflexivity|]. split; [assumption|]. split.
  - unfold nearestRemaining. now rewrite <- (inv_where _ _ _ _ I).
  - now apply Qle_bool_iff.
Qed.

Lemma nearestRemaining_fresh (r : list Sight) (s : Sight) :
  nearestRemaining userLocation sights0 r = Some s ->
  In s sights0 /\ ~ In (id s) (map id r).
Proof.
  intros H. apply reduce1_closer_In in H. unfold remaining in H.
  apply filter_In in H as [Hs Hv]. split; [assumption|].
  apply negb_true_iff in Hv. now apply has_false.
Qed.

Lemma greedyStops_snoc (r : list Sight) (s : Sight) :
  r <> [] ->
  greedyStops userLocation sights0 maxDistance r ->
  nearestRemaining userLocation sights0 r = Some s ->
  (needAfter userLocation r s <= maxDistance * 0.9)%Q ->
  greedyStops userLocation sights0 maxDistance (r ++ [s]).
Proof.
  intros Hne G Hn Hb pre x post E.
  destruct post as [|y post' _] using rev_ind.
  - assert (E' : r ++ [s] = pre ++ [x]) by exact E.
    apply app_inj_tail in E' as [<- <-]. split; [assumption | intros _; assumption].
  - assert (E' : r ++ [s] = (pre ++ x :: post') ++ [y]).
    { rewrite E. now rewrite <- app_assoc. }
    apply app_inj_tail in E' as [-> _]. eapply G. reflexivity.
Qed.

Lemma walkStep_inv (w w' : LoopState) :
  Inv w -> step w = Some w' -> Inv w'.
Proof.
  intros I H. destruct (walkStep_Some w w' I H) as (n & -> & Hlt & Hn & Hb).
  destruct (nearestRemaining_fresh _ _ Hn) as [Hin Hfresh].
  assert (Hadd : add (visited w) (id n) = visited w ++ [id n]).
  { apply add_fresh. now rewrite (inv_visited _ _ _ _ I). }
  constructor; unfold visit; simpl.
  - intros E. now apply app_eq_nil in E as [_ E].
  - rewrite Hadd, map_app. simpl. now rewrite (inv_visited _ _ _ _ I).
  - rewrite Hadd. apply List.NoDup_app.
    + apply (inv_nodup _ _ _ _ I).
    + constructor; [intros [] | constructor].
    + intros x Hx [<-|[]]. apply Hfresh. now rewrite <- (inv_visited _ _ _ _ I).
  - now rewrite whereAfter_snoc.
  - rewrite (pathLength_snoc userLocation _ _ (inv_nonempty _ _ _ _ I)).
    now rewrite (inv_total _ _ _ _ I), (inv_where _ _ _ _ I).
  - rewrite Hadd, length_app. simpl. lia.
  - intros x Hx. apply in_app_or in Hx as [Hx|[<-|[]]]; [|assumption].
    now apply (inv_incl _ _ _ _ I).
  - apply greedyStops_snoc; try assumption.
    + apply (inv_nonempty _ _ _ _ I).
    + apply (inv_greedy _ _ _ _ I).
Qed.

Lemma walkLoop_inv (fuel : nat) :
  forall w, Inv w -> Inv (loop fuel w).
Proof.
  induction fuel as [|fuel IH]; intros w I; simpl; [assumption|].
  destruct (step w) as [w'|] eqn:H; [|assumption].
  apply IH. now apply (walkStep_inv w).
Qed.

(** With enough fuel the loop is left by its own test, not cut short. *)
Lemma walkLoop_exit (fuel : nat) :
  forall w, Inv w -> (8 <= fuel + length (visited w))%nat ->
            step (loop fuel w) = None.
Proof.
  induction fuel as [|fuel IH]; intros w I Hf; simpl.
  - unfold walkStep.
    replace (length (visited w) <? 8)%nat with false
      by (symmetry; apply Nat.ltb_ge; lia).
    now rewrite andb_false_r.
  - destruct (step w) as [w'|] eqn:H; [|assumption].
    apply IH; [now apply (walkStep_inv w)|].
    destruct (walkStep_Some w w' I H) as (n & -> & _ & Hn & _).
    destruct (nearestRemaining_fresh _ _ Hn) as [_ Hfresh].
    unfold visit; simpl. rewrite add_fresh.
    + rewrite length_app. simpl. lia.
    + now rewrite (inv_visited _ _ _ _ I).
Qed.

(** More fuel changes nothing once the loop has been left. *)
Lemma walkLoop_fuel (fuel extra : nat) :
  forall w, step (loop fuel w) = None ->
            loop (fuel + extra)%nat w = loop fuel w.
Proof.
  induction fuel as [|fuel IH]; intros w H; simpl in *.
  - destruct extra; simpl; [reflexivity|]. now rewrite H.
  - destruct (step w) as [w'|] eqn:Hs; [|reflexivity]. now apply IH.
Qed.

Lemma walkStep_None (w : LoopState) :
  Inv w -> step w = None ->
  stopReason userLocation sights0 maxDistance (route w).
Proof.
  intros I. unfold walkStep.
  pose proof (inv_visited _ _ _ _ I) as Hv.
  destruct (length (visited w) <? length sights0)%nat eqn:H1; simpl.
  - destruct (length (visited w) <? 8)%nat eqn:H2; simpl.
    + rewrite (unvisitedOf_remaining w I).
      destruct (JS.reduce1 _ _) as [c|] eqn:Hn.
      * rewrite (budgetNeed_needAfter w c I). unfold JS.gt.
        destruct (Qle_bool _ _) eqn:Hb; simpl; [discriminate|]. intros _.
        assert (Hc : nearestRemaining userLocation sights0 (route w) = Some c).
        { unfold nearestRemaining. now rewrite <- (inv_where _ _ _ _ I). }
        right; right. exists c. split; [assumption|]. split.
        -- apply Qnot_le_lt. intros Hle. apply Qle_bool_iff in Hle. congruence.
        -- destruct (nearestRemaining_fresh _ _ Hc) as [_ Hfresh].
           intros Hin. apply Hfresh. now apply in_map.
      * intros _. left. intros s Hs.
        apply reduce1_closer_None in Hn.
        destruct (has (map id (route w)) (id s)) eqn:Hh.
        -- now apply has_In.
        -- assert (Hr : In s (remaining sights0 (route w))).
           { apply filter_In. split; [assumption|]. now rewrite Hh. }
           rewrite Hn in Hr. destruct Hr.
    + intros _. right; left. apply Nat.ltb_ge in H2.
      pose proof (inv_cap _ _ _ _ I) as Hc.
      rewrite Hv, length_map in *. lia.
  - intros _. left. apply Nat.ltb_ge in H1.
    intros s Hs. rewrite <- Hv.
    assert (Hincl : incl (map id sights0) (visited w)).
    { apply NoDup_length_incl.
      - apply (inv_nodup _ _ _ _ I).
      - now rewrite length_map.
      - rewrite Hv. intros x Hx. apply in_map_iff in Hx as (y & <- & Hy).
        apply in_map. now apply (inv_incl _ _ _ _ I). }
    apply Hincl. now apply in_map.
Qed.

End Walk.

Lemma remaining_nil (sights0 : list Sight) : remaining sights0 [] = sights0.
Proof.
  unfold remaining. induction sights0 as [|x l IH]; simpl; [reflexivity|].
  f_equal. exact IH.
Qed.

(** With two candidates or more, the result is the route of a walk that
    keeps the invariant and has left the loop by its own test. *)
Lemma optimizeTourSimple_walk (userLocation : Location) (sights0 : list Sight)
    (maxDistance : Q) (wizardSettings : option TourWizardSettings) :
  (1 < length sights0)%nat ->
  exists w,
    optimizeTourSimple userLocation sights0 maxDistance wizardSettings = route w
    /\ WalkInv userLocation sights0 maxDistance w
    /\ walkStep userLocation sights0 maxDistance w = None.
Proof.
  intros Hlen. unfold optimizeTourSimple.
  replace (length sights0 <=? 1)%nat with false
    by (symmetry; apply Nat.leb_gt; lia).
  destruct (JS.reduce1 (closer userLocation) sights0) as [c|] eqn:Hc.
  - set (start := mkLoop (add [] (id c)) [c] (locationOf c) 0%Q).
    assert (I : WalkInv userLocation sights0 maxDistance start).
    { constructor; simpl.
      - discriminate.
      - reflexivity.
      - constructor; [intros [] | constructor].
      - reflexivity.
      - reflexivity.
      - lia.
      - intros x [<-|[]]. now apply reduce1_closer_In in Hc.
      - intros pre s post E. destruct pre as [|p pre].
        + injection E as <- _. split; [|congruence].
          unfold nearestRemaining. now rewrite remaining_nil.
        + injection E as _ E. now destruct pre. }
    exists (walkLoop 8 userLocation sights0 maxDistance start).
    split; [reflexivity|]. split.
    + now apply walkLoop_inv.
    + apply walkLoop_exit; [assumption | simpl; lia].
  - apply reduce1_closer_None in Hc. subst. simpl in Hlen. lia.
Qed.

Lemma optimizeTourSimple_small (userLocation : Location) (sights0 : list Sight)
    (maxDistance : Q) (wizardSettings : option TourWizardSettings) :
  (length sights0 <= 1)%nat ->
  optimizeTourSimple userLocation sights0 maxDistance wizardSettings = sights0.
Proof.
  intros H. unfold optimizeTourSimple.
  now replace (length sights0 <=? 1)%nat with true
    by (symmetry; apply Nat.leb_le; lia).
Qed.

(** The heuristic route is made of candidates. *)
Lemma optimizeTourSimple_incl (userLocation : Location) (sights0 : list Sight)
    (maxDistance : Q) (wizardSettings : option TourWizardSettings) :
  incl (optimizeTourSimple userLocation sights0 maxDistance wizardSettings) sights0.
Proof.
  destruct (le_lt_dec (length sights0) 1) as [H|H].
  - rewrite optimizeTourSimple_small by assumption. apply incl_refl.
  - destruct (optimizeTourSimple_walk userLocation sights0 maxDistance
                wizardSettings H) as (w & -> & I & _).
    apply (inv_incl _ _ _ _ I).
Qed.

(** It is empty only for an empty candidate list. *)
Lemma optimizeTourSimple_nonempty (userLocation : Location) (sights0 : list Sight)
    (maxDistance : Q) (wizardSettings : option TourWizardSettings) :
  sights0 <> [] ->
  optimizeTourSimple userLocation sights0 maxDistance wizardSettings <> [].
Proof.
  intros Hne. destruct (le_lt_dec (length sights0) 1) as [H|H].
  - now rewrite optimizeTourSimple_small by assumption.
  - destruct (optimizeTourSimple_walk userLocation sights0 maxDistance
                wizardSettings H) as (w & -> & I & _).
    apply (inv_nonempty _ _ _ _ I).
Qed.

(** The wizard settings play no part in the heuristic. *)
Lemma optimizeTourSimple_settings (userLocation : Location) (sights0 : list Sight)
    (maxDistance : Q) (ws ws' : option TourWizardSettings) :
  optimizeTourSimple userLocation sights0 maxDistance ws
  = optimizeTourSimple userLocation sights0 maxDistance ws'.
Proof. reflexivity. Qed.

Lemma closer_spec (cur : Location) (closest sight : Sight) :
  (closer cur closest sight = closest
   /\ (distanceFrom cur closest <= distanceFrom cur sight)%Q)
  \/ (closer cur closest sight = sight
      /\ (distanceFrom cur sight < distanceFrom cur closest)%Q).
Proof.
  unfold closer, JS.lt.
  destruct (Qle_bool (distanceFrom cur closest) (distanceFrom cur sight)) eqn:E;
    simpl.
  - left. split; [reflexivity | now apply Qle_bool_iff].
  - right. split; [reflexivity|].
    apply Qnot_le_lt. intros H. apply Qle_bool_iff in H. congruence.
Qed.

(** [reduce] with [closer] returns the first element of the array that
    is at the least distance from the current location. *)
Lemma fold_closer_first_min (cur : Location) (l : list Sight) :
  forall x r,
    fold_left (closer cur) l x = r ->
    exists l1 l2,
      x :: l = l1 ++ r :: l2
      /\ (forall c, In c l1 -> (distanceFrom cur r < distanceFrom cur c)%Q)
      /\ (forall c, In c l2 -> (distanceFrom cur r <= distanceFrom cur c)%Q).
Proof.
  induction l as [|y l IH]; intros x r Hr; simpl in Hr.
  - subst r. exists [], []. repeat split; intros c [].
  - destruct (closer_spec cur x y) as [[E Hle]|[E Hlt]]; rewrite E in Hr.
    + destruct (IH x r Hr) as (l1 & l2 & Hsplit & Hbefore & Hafter).
      clear IH Hr.
      destruct l1 as [|a l1]; simpl in Hsplit; injection Hsplit as Ha Hl.
      * subst r l. exists [], (y :: l2).
        split; [reflexivity|]. split; [intros c []|].
        intros c [<-|Hc]; [assumption | now apply Hafter].
      * subst a l.
        assert (Hrx : (distanceFrom cur r < distanceFrom cur x)%Q)
          by (apply Hbefore; now left).
        exists (x :: y :: l1), l2.
        split; [reflexivity|]. split; [|assumption].
        intros c [<-|[<-|Hc]].
        -- assumption.
        -- eapply Qlt_le_trans; eassumption.
        -- apply Hbefore. now right.
    + destruct (IH y r Hr) as (l1 & l2 & Hsplit & Hbefore & Hafter).
      clear IH Hr.
      exists (x :: l1), l2. simpl. rewrite Hsplit.
      split; [reflexivity|]. split; [|assumption].
      intros c [<-|Hc]; [|now apply Hbefore].
      destruct l1 as [|a l1]; simpl in Hsplit; injection Hsplit as Ha _.
      * now subst r.
      * subst a. eapply Qlt_trans; [|exact Hlt]. apply Hbefore. now left.
Qed.

Lemma nearestRemaining_first_min (userLocation : Location)
    (sights0 route0 : list Sight) (s : Sight) :
  nearestRemaining userLocation sights0 route0 = Some s ->
  exists l1 l2,
    remaining sights0 route0 = l1 ++ s :: l2
    /\ (forall c, In c l1 ->
          (distanceFrom (whereAfter userLocation route0) s
           < distanceFrom (whereAfter userLocation route0) c)%Q)
    /\ (forall c, In c l2 ->
          (distanceFrom (whereAfter userLocation route0) s
           <= distanceFrom (whereAfter userLocation route0) c)%Q).
Proof.
  unfold nearestRemaining.
  destruct (remaining sights0 route0) as [|x l]; simpl; [discriminate|].
  intros [= H]. now apply fold_closer_first_min.
Qed.

Lemma remaining_In (sights0 route0 : list Sight) (c : Sight) :
  In c (remaining sights0 route0)
  <-> In c sights0 /\ ~ In (id c) (map id route0).
Proof.
  unfold remaining. rewrite filter_In, negb_true_iff, has_false. tauto.
Qed.

Lemma filter_split_inv {A : Type} (f : A -> bool) (l l1 l2 : list A) (x : A) :
  List.filter f l = l1 ++ x :: l2 ->
  exists a b,
    l = a ++ x :: b
    /\ List.filter f a = l1 /\ List.filter f b = l2 /\ f x = true.
Proof.
  revert l1. induction l as [|y l IH]; intros l1 H; simpl in H.
  - now destruct l1.
  - destruct (f y) eqn:Fy.
    + destruct l1 as [|z l1]; simpl in H; injection H as Hy H; subst y.
      * exists [], l. simpl. auto.
      * destruct (IH l1 H) as (a & b & -> & Ha & Hb & Hx).
        exists (z :: a), b. simpl. rewrite Fy, Ha. auto.
    + destruct (IH l1 H) as (a & b & -> & Ha & Hb & Hx).
      exists (y :: a), b. simpl. rewrite Fy. auto.
Qed.

(** What [reduce] with [closer] picks among the remaining candidates, in
    terms of distances only. *)
Lemma nearestRemaining_nearestUnvisited (userLocation : Location)
    (sights0 route0 : list Sight) (s : Sight) :
  nearestRemaining userLocation sights0 route0 = Some s ->
  nearestUnvisited userLocation sights0 route0 s.
Proof.
  intros H.
  destruct (nearestRemaining_first_min _ _ _ _ H)
    as (l1 & l2 & Hsplit & Hbefore & Hafter).
  unfold remaining in Hsplit.
  apply filter_split_inv in Hsplit as (a & b & -> & Ha & Hb & Hs).
  exists a, b. split; [reflexivity|].
  apply negb_true_iff, has_false in Hs. split; [exact Hs|]. split.
  - intros c Hc Hfresh. apply Hbefore. rewrite <- Ha.
    apply filter_In. split; [assumption|].
    now apply negb_true_iff, has_false.
  - intros c Hc Hfresh. apply Hafter. rewrite <- Hb.
    apply filter_In. split; [assumption|].
    now apply negb_true_iff, has_false.
Qed.

(** C1. The heuristic optimiser returns at most 8 stops.  Each stop was,
    when it was added, the nearest candidate not yet in the route (the
    first such candidate of the list among equally near ones), and each
    stop after the first was added with accumulated distance + distance
    to it + 0.5 * its distance back to the origin at most 0.9 * budget.
    The loop is left when every candidate is visited, when 8 stops are
    reached, or when the nearest candidate not yet in the route breaks
    that bound, and that candidate is not added. *)
Theorem optimizeTourSimple_cap_and_budget (userLocation : Location)
    (sights0 : list Sight) (maxDistance : Q)
    (wizardSettings : option TourWizardSettings) :
  let r := optimizeTourSimple userLocation sights0 maxDistance wizardSettings in
  (length r <= 8)%nat
  /\ (forall pre s post,
        r = pre ++ s :: post ->
        nearestUnvisited userLocation sights0 pre s
        /\ (pre <> [] ->
            (pathLength pre
             + distanceFrom (whereAfter userLocation pre) s
             + calculateDistance (latitude s) (longitude s)
                 (loc_latitude userLocation) (loc_longitude userLocation) * 0.5
             <= maxDistance * 0.9)%Q))
  /\ ((forall s, In s sights0 -> In (id s) (map id r))
      \/ length r = 8%nat
      \/ exists c,
           nearestUnvisited userLocation sights0 r c
           /\ (maxDistance * 0.9
               < pathLength r
                 + distanceFrom (whereAfter userLocation r) c
                 + calculateDistance (latitude c) (longitude c)
                     (loc_latitude userLocation) (loc_longitude userLocation)
                   * 0.5)%Q
           /\ ~ In c r).
Proof.
  intros r. subst r.
  assert (Hgreedy : greedyStops userLocation sights0 maxDistance
                      (optimizeTourSimple userLocation sights0 maxDistance
                         wizardSettings)
                    /\ stopReason userLocation sights0 maxDistance
                         (optimizeTourSimple userLocation sights0 maxDistance
                            wizardSettings)
                    /\ (length (optimizeTourSimple userLocation sights0
                                  maxDistance wizardSettings) <= 8)%nat).
  { destruct (le_lt_dec (length sights0) 1) as [H|H].
    - rewrite optimizeTourSimple_small by assumption.
      destruct sights0 as [|x [|y l]]; simpl in H; try lia.
      + split; [|split; [|simpl; lia]].
        * intros pre s post E. now destruct pre.
        * left. intros s [].
      + split; [|split; [|simpl; lia]].
        * intros pre s post E. destruct pre as [|p pre].
          -- injection E as <- _. split; [reflexivity | congruence].
          -- injection E as _ E. now destruct pre.
        * left. intros s [<-|[]]. now left.
    - destruct (optimizeTourSimple_walk userLocation sights0 maxDistance
                  wizardSettings H) as (w & -> & I & Hexit).
      split; [|split].
      + apply (inv_greedy _ _ _ _ I).
      + now apply (walkStep_None userLocation sights0 maxDistance w).
      + pose proof (inv_cap _ _ _ _ I) as Hc.
        now rewrite (inv_visited _ _ _ _ I), length_map in Hc. }
  destruct Hgreedy as (Hg & Hstop & Hlen).
  split; [exact Hlen|]. split.
  - intros pre s post E. destruct (Hg pre s post E) as [Hn Hb].
    split; [now apply nearestRemaining_nearestUnvisited | exact Hb].
  - destruct Hstop as [Hall|[H8|(c & Hn & Hover & Hnot)]].
    + left. exact Hall.
    + right. left. exact H8.
    + right. right. exists c.
      split; [now apply nearestRemaining_nearestUnvisited|].
      split; assumption.
Qed.

(** ** The sort by distance *)

Lemma insertByDistance_perm (x : Sight) (l : list Sight) :
  Permutation (insertByDistance x l) (x :: l).
Proof.
  induction l as [|y l IH]; simpl; [apply Permutation_refl|].
  destruct (JS.lt _ _).
  - eapply Permutation_trans; [apply perm_skip, IH | apply perm_swap].
  - apply Permutation_refl.
Qed.

Lemma sortByDistance_perm (l : list Sight) : Permutation (sortByDistance l) l.
Proof.
  induction l as [|x l IH]; simpl; [apply Permutation_refl|].
  eapply Permutation_trans; [apply insertByDistance_perm|].
  now apply perm_skip.
Qed.

Lemma insertByDistance_sorted (x : Sight) (l : list Sight) :
  StronglySorted byDistance l -> StronglySorted byDistance (insertByDistance x l).
Proof.
  induction l as [|y l IH]; intros S; simpl.
  - constructor; constructor.
  - inversion S as [|? ? S' F]; subst.
    unfold JS.lt.
    destruct (Qle_bool (distanceOrZero x) (distanceOrZero y)) eqn:E; simpl.
    + apply Qle_bool_iff in E. constructor; [assumption|].
      constructor; [assumption|].
      eapply List.Forall_impl; [|exact F]. intros z Hz. unfold byDistance in *.
      eapply Qle_trans; eassumption.
    + assert (Hyx : byDistance y x).
      { unfold byDistance. apply Qlt_le_weak, Qnot_le_lt. intros H.
        apply Qle_bool_iff in H. congruence. }
      constructor; [now apply IH|].
      eapply Permutation_Forall.
      * apply Permutation_sym, insertByDistance_perm.
      * now constructor.
Qed.

Lemma sortByDistance_sorted (l : list Sight) :
  StronglySorted byDistance (sortByDistance l).
Proof.
  induction l as [|x l IH]; simpl; [constructor|].
  now apply insertByDistance_sorted.
Qed.

Lemma sortByDistance_In (l : list Sight) (x : Sight) :
  In x (sortByDistance l) <-> In x l.
Proof.
  split; apply Permutation_in;
    [apply sortByDistance_perm | apply Permutation_sym, sortByDistance_perm].
Qed.

Lemma sortByDistance_length (l : list Sight) :
  length (sortByDistance l) = length l.
Proof. apply Permutation_length, sortByDistance_perm. Qed.

Lemma firstn_min_length {A : Type} (n : nat) (l : list A) :
  firstn (Nat.min n (length l)) l = firstn n l.
Proof.
  destruct (le_lt_dec n (length l)) as [H|H].
  - now rewrite Nat.min_l.
  - rewrite Nat.min_r by lia. rewrite !firstn_all2 by lia. reflexivity.
Qed.

Lemma firstn_incl {A : Type} (n : nat) (l : list A) : incl (firstn n l) l.
Proof.
  revert l. induction n as [|n IH]; intros [|a l] x; simpl; try tauto.
  intros [<-|H]; [now left | right; now apply IH].
Qed.

Lemma StronglySorted_split {A : Type} (R : A -> A -> Prop) (l k : list A) :
  StronglySorted R (l ++ k) ->
  StronglySorted R l /\ forall x y, In x l -> In y k -> R x y.
Proof.
  induction l as [|a l IH]; simpl; intros S.
  - split; [constructor | intros x y []].
  - inversion S as [|? ? S' F]; subst. destruct (IH S') as [Sl Hlk].
    split.
    + constructor; [assumption|]. apply List.Forall_app in F. tauto.
    + intros x y [<-|Hx] Hy.
      * rewrite List.Forall_forall in F. apply F, in_or_app. now right.
      * now apply Hlk.
Qed.

(** The sort is stable: the elements at any one distance keep the order
    they had. *)
Lemma insertByDistance_stable (d : Q) (x : Sight) (l : list Sight) :
  List.filter (fun s => Qeq_bool (distanceOrZero s) d) (insertByDistance x l)
  = List.filter (fun s => Qeq_bool (distanceOrZero s) d) (x :: l).
Proof.
  induction l as [|y l IH]; [reflexivity|].
  simpl insertByDistance. unfold JS.lt.
  destruct (Qle_bool (distanceOrZero x) (distanceOrZero y)) eqn:E;
    [reflexivity|].
  simpl negb. cbv iota.
  change (List.filter (fun s => Qeq_bool (distanceOrZero s) d)
            (y :: insertByDistance x l))
    with (if Qeq_bool (distanceOrZero y) d
          then y :: List.filter (fun s => Qeq_bool (distanceOrZero s) d)
                      (insertByDistance x l)
          else List.filter (fun s => Qeq_bool (distanceOrZero s) d)
                 (insertByDistance x l)).
  rewrite IH. simpl.
  destruct (Qeq_bool (distanceOrZero y) d) eqn:Ey;
    destruct (Qeq_bool (distanceOrZero x) d) eqn:Ex; try reflexivity.
  exfalso. apply Qeq_bool_iff in Ey, Ex.
  assert (H : (distanceOrZero x <= distanceOrZero y)%Q)
    by (rewrite Ex, Ey; apply Qle_refl).
  apply Qle_bool_iff in H. congruence.
Qed.

Lemma sortByDistance_stable (d : Q) (l : list Sight) :
  List.filter (fun s => Qeq_bool (distanceOrZero s) d) (sortByDistance l)
  = List.filter (fun s => Qeq_bool (distanceOrZero s) d) l.
Proof.
  induction l as [|x l IH]; [reflexivity|].
  simpl sortByDistance. rewrite insertByDistance_stable. simpl.
  now rewrite IH.
Qed.

(** The first [n] of the sorted candidates are sorted, and none of the
    others is closer than any of them. *)
Lemma closest_of_sorted (n : nat) (l : list Sight) :
  let sortedSights := sortByDistance l in
  Permutation (firstn n sortedSights ++ skipn n sortedSights) l
  /\ StronglySorted byDistance (firstn n sortedSights)
  /\ forall c f, In c (firstn n sortedSights) -> In f (skipn n sortedSights) ->
                 byDistance c f.
Proof.
  intros sortedSights. split.
  - rewrite firstn_skipn. apply sortByDistance_perm.
  - apply StronglySorted_split. rewrite firstn_skipn. apply sortByDistance_sorted.
Qed.

(** ** The delegated optimiser *)

Lemma pushMatch_incl (sights0 r : list Sight) (name0 : string) :
  incl r sights0 -> incl (pushMatch sights0 r name0) sights0.
Proof.
  intros H. unfold pushMatch.
  destruct (List.find _ sights0) as [s|] eqn:F; [|assumption].
  destruct (inRoute r (id s)); [assumption|].
  apply incl_app; [assumption|]. intros x [<-|[]].
  now apply find_some in F as [F _].
Qed.

Lemma fold_pushMatch_incl (sights0 : list Sight) (names : list string) :
  forall r, incl r sights0 -> incl (fold_left (pushMatch sights0) names r) sights0.
Proof.
  induction names as [|n names IH]; intros r H; simpl; [assumption|].
  apply IH. now apply pushMatch_incl.
Qed.

Lemma topUp_incl (sights0 r : list Sight) :
  incl r sights0 -> incl (topUp sights0 r) sights0.
Proof.
  intros H. unfold topUp. destruct (length r <? 3)%nat; [|assumption].
  apply incl_app; [assumption|]. intros x Hx.
  rewrite firstn_min_length in Hx. apply firstn_incl in Hx.
  apply (proj1 (sortByDistance_In _ _)) in Hx.
  now apply filter_In in Hx as [Hx _].
Qed.

Lemma delegatedRoute_incl (response : FetchOutcome) (userLocation : Location)
    (sights0 : list Sight) (maxDistance : Q) (r : list Sight) :
  delegatedRoute response userLocation sights0 maxDistance = Some r ->
  incl r sights0.
Proof.
  destruct response as [|[|] [completion|]]; simpl; try discriminate.
  intros [= <-]. destruct (0 <? length _)%nat.
  - apply topUp_incl, fold_pushMatch_incl. intros x [].
  - apply optimizeTourSimple_incl.
Qed.

Lemma delegatedRoute_nonempty (response : FetchOutcome) (userLocation : Location)
    (sights0 : list Sight) (maxDistance : Q) (r : list Sight) :
  sights0 <> [] ->
  delegatedRoute response userLocation sights0 maxDistance = Some r ->
  r <> [].
Proof.
  intros Hne. destruct response as [|[|] [completion|]]; simpl; try discriminate.
  intros [= <-]. destruct (0 <? length _)%nat eqn:E.
  - apply Nat.ltb_lt in E. intros H. rewrite H in E. simpl in E. lia.
  - now apply optimizeTourSimple_nonempty.
Qed.

(** A failed external call leaves the delegated optimiser with the
    heuristic route. *)
Lemma optimizeTourWithAI_failure (response : FetchOutcome) (userLocation : Location)
    (sights0 : list Sight) (maxDistance : Q)
    (wizardSettings : option TourWizardSettings) :
  externalCallFails response = true ->
  optimizeTourWithAI response userLocation sights0 maxDistance wizardSettings
  = optimizeTourSimple userLocation sights0 maxDistance wizardSettings.
Proof.
  unfold optimizeTourWithAI.
  destruct response as [|[|] [completion|]]; simpl; try reflexivity.
  discriminate.
Qed.

(** So does the choice between the optimisers. *)
Lemma optimizeRoute_failure (env : Env) (userLocation : Location)
    (nearSights : list Sight) (maxDistance : Q)
    (wizardSettings : option TourWizardSettings) :
  externalCallFails (fetchOutcome env) = true ->
  optimizeRoute env userLocation nearSights maxDistance wizardSettings
  = optimizeTourSimple userLocation nearSights maxDistance wizardSettings.
Proof.
  intros H. unfold optimizeRoute.
  destruct (_ && _); [now apply optimizeTourWithAI_failure | reflexivity].
Qed.

Lemma optimizeRoute_incl (env : Env) (userLocation : Location)
    (nearSights : list Sight) (maxDistance : Q)
    (wizardSettings : option TourWizardSettings) :
  incl (optimizeRoute env userLocation nearSights maxDistance wizardSettings)
    nearSights.
Proof.
  unfold optimizeRoute, optimizeTourWithAI.
  destruct (_ && _); [|apply optimizeTourSimple_incl].
  destruct (delegatedRoute _ _ _ _) eqn:E.
  - eapply delegatedRoute_incl, E.
  - apply optimizeTourSimple_incl.
Qed.

(** Neither optimiser returns an empty route from candidates. *)
Lemma optimizeRoute_nonempty (env : Env) (userLocation : Location)
    (nearSights : list Sight) (maxDistance : Q)
    (wizardSettings : option TourWizardSettings) :
  nearSights <> [] ->
  optimizeRoute env userLocation nearSights maxDistance wizardSettings <> [].
Proof.
  intros Hne. unfold optimizeRoute, optimizeTourWithAI.
  destruct (_ && _); [|now apply optimizeTourSimple_nonempty].
  destruct (delegatedRoute _ _ _ _) eqn:E.
  - eapply delegatedRoute_nonempty; eassumption.
  - now apply optimizeTourSimple_nonempty.
Qed.

(** ** The candidate selection *)

Lemma length_zero_nil {A : Type} (l : list A) :
  (length l =? 0)%nat = true <-> l = [].
Proof.
  rewrite Nat.eqb_eq. destruct l; simpl; split; congruence.
Qed.

(** The selection reads nothing from the store and publishes nothing. *)
Lemma selectCandidates_pure (maxDistance : Q) (filteredSights : list Sight)
    (st : TourState) :
  selectCandidates maxDistance filteredSights st
  = mkOutcome st [] (result (selectCandidates maxDistance filteredSights initialState)).
Proof.
  unfold selectCandidates.
  destruct (length (List.filter (withinRadius maxDistance) filteredSights) =? 0)%nat;
    [|reflexivity].
  destruct (length (List.filter _ filteredSights) =? 0)%nat; reflexivity.
Qed.

Lemma selectCandidates_error (maxDistance : Q) (filteredSights : list Sight)
    (st : TourState) (e : TourError) :
  result (selectCandidates maxDistance filteredSights st) = inl e <->
  List.filter (withinRadius (timesDouble maxDistance 1.5)) filteredSights = []
  /\ List.filter (withinRadius maxDistance) filteredSights = []
  /\ e = NoSightsFound (timesDouble maxDistance 1.5).
Proof.
  unfold selectCandidates.
  destruct (length (List.filter (withinRadius maxDistance) filteredSights)
            =? 0)%nat eqn:E1.
  - apply length_zero_nil in E1.
    destruct (length (List.filter (withinRadius (timesDouble maxDistance 1.5))
                        filteredSights) =? 0)%nat eqn:E2.
    + apply length_zero_nil in E2. simpl. split.
      * intros [= <-]. auto.
      * intros (_ & _ & ->). reflexivity.
    + simpl. split; [discriminate|]. intros (H & _).
      apply length_zero_nil in H. congruence.
  - simpl. split; [discriminate|]. intros (_ & H & _).
    apply length_zero_nil in H. congruence.
Qed.

(** What the optimiser is handed: the candidates within the budget or,
    when there is none, the closest 8 within the widened radius. *)
Lemma selectCandidates_ok (maxDistance : Q) (filteredSights : list Sight)
    (st : TourState) (nearSights : list Sight) :
  result (selectCandidates maxDistance filteredSights st) = inr nearSights <->
  (List.filter (withinRadius maxDistance) filteredSights <> []
   /\ nearSights = List.filter (withinRadius maxDistance) filteredSights)
  \/ (List.filter (withinRadius maxDistance) filteredSights = []
      /\ List.filter (withinRadius (timesDouble maxDistance 1.5)) filteredSights <> []
      /\ nearSights
         = firstn 8 (sortByDistance
                       (List.filter (withinRadius (timesDouble maxDistance 1.5))
                          filteredSights))).
Proof.
  unfold selectCandidates.
  destruct (length (List.filter (withinRadius maxDistance) filteredSights)
            =? 0)%nat eqn:E1.
  - pose proof E1 as E1'. apply length_zero_nil in E1'. rewrite E1'.
    destruct (length (List.filter (withinRadius (timesDouble maxDistance 1.5))
                        filteredSights) =? 0)%nat eqn:E2.
    + apply length_zero_nil in E2. simpl. split; [discriminate|].
      intros [[H _]|(_ & H & _)]; congruence.
    + rewrite firstn_min_length. simpl. split.
      * intros [= <-]. right. split; [reflexivity|]. split; [|reflexivity].
        intros H. rewrite H in E2. discriminate.
      * intros [[H _]|(_ & _ & ->)]; congruence.
  - simpl. split.
    + intros [= <-]. left. split; [|reflexivity].
      intros H. rewrite H in E1. discriminate.
    + intros [[_ ->]|(H & _)]; [reflexivity|].
      rewrite H in E1. discriminate.
Qed.

Lemma withinRadius_distance (radius : Q) (s : Sight) :
  withinRadius radius s = true ->
  exists d, distance s = Some d /\ (d <= radius)%Q.
Proof.
  unfold withinRadius. destruct (distance s) as [d|]; [|discriminate].
  intros H. exists d. split; [reflexivity|]. now apply Qle_bool_iff.
Qed.

(** Every selected candidate passed the tier filter and has a distance
    from the user; the selection is never empty. *)
Lemma selectCandidates_sound (maxDistance : Q) (filteredSights : list Sight)
    (st : TourState) (nearSights : list Sight) :
  result (selectCandidates maxDistance filteredSights st) = inr nearSights ->
  nearSights <> []
  /\ forall s, In s nearSights ->
       In s filteredSights
       /\ exists d, distance s = Some d
                    /\ (d <= timesDouble maxDistance 1.5 \/ d <= maxDistance)%Q.
Proof.
  intros H. apply selectCandidates_ok in H as [[Hne ->]|(_ & Hne & ->)].
  - split; [assumption|]. intros s Hs. apply filter_In in Hs as [Hs Hw].
    split; [assumption|]. apply withinRadius_distance in Hw as (d & Hd & Hle).
    eauto.
  - split.
    + intros E. apply Hne. apply length_zero_iff_nil.
      rewrite <- sortByDistance_length.
      destruct (sortByDistance _); [reflexivity | discriminate].
    + intros s Hs. apply firstn_incl in Hs.
      apply (proj1 (sortByDistance_In _ _)) in Hs.
      apply filter_In in Hs as [Hs Hw].
      split; [assumption|]. apply withinRadius_distance in Hw as (d & Hd & Hle).
      eauto.
Qed.

(** ** The runs of [generateTour] *)

Section Runs.

Variables (env : Env) (userLocation : Location) (maxDistance : Q)
  (availableSights : list Sight) (wizardSettings : option TourWizardSettings).

Local Abbreviation candidates st :=
  (result (selectCandidates maxDistance
             (filterByTier wizardSettings availableSights) st)).

(** A failed selection: the error reaches the caller, the current tour is
    untouched and the busy flag was raised and lowered. *)
Lemma generateTour_error (st : TourState) (e : TourError) :
  candidates st = inl e ->
  generateTour env userLocation maxDistance availableSights wizardSettings st
  = mkOutcome (patch_isGenerating false (patch_isGenerating true st))
      [patch_isGenerating true st;
       patch_isGenerating false (patch_isGenerating true st)]
      (inl e).
Proof.
  intros H. rewrite selectCandidates_pure in H. simpl in H.
  unfold generateTour, generateTourBody, tryFinally, tryCatch, mbind, Store_bind.
  simpl. rewrite selectCandidates_pure. simpl. rewrite H. reflexivity.
Qed.

(** A successful selection: the route of the optimiser is assembled and
    published as the current tour. *)
Lemma generateTour_success (st : TourState) (nearSights : list Sight) :
  candidates st = inr nearSights ->
  let tour :=
    assembleTour env wizardSettings
      (optimizeRoute env userLocation nearSights maxDistance wizardSettings) in
  let st1 := patch_isGenerating true st in
  let st2 := patch_currentTour (Some tour) st1 in
  let st3 := patch_isGenerating false st2 in
  generateTour env userLocation maxDistance availableSights wizardSettings st
  = mkOutcome st3 [st1; st2; st3] (inr tt).
Proof.
  intros H. pose proof (selectCandidates_sound _ _ _ _ H) as [Hne _].
  rewrite selectCandidates_pure in H. simpl in H.
  unfold generateTour, generateTourBody, tryFinally, tryCatch, mbind, Store_bind.
  simpl. rewrite selectCandidates_pure. simpl. rewrite H. simpl.
  destruct (length _ =? 0)%nat eqn:E.
  - apply length_zero_nil in E.
    now apply optimizeRoute_nonempty in E.
  - reflexivity.
Qed.

(** The "could not create a tour" error is never raised. *)
Lemma generateTour_result (st : TourState) :
  result (generateTour env userLocation maxDistance availableSights
            wizardSettings st)
  = match candidates st with
    | inl e => inl e
    | inr _ => inr tt
    end.
Proof.
  destruct (candidates st) as [e|nearSights] eqn:H.
  - now rewrite (generateTour_error st e H).
  - now rewrite (generateTour_success st nearSights H).
Qed.

(** Inversion of a successful run. *)
Lemma generateTour_inr (st : TourState) :
  result (generateTour env userLocation maxDistance availableSights
            wizardSettings st) = inr tt ->
  exists nearSights,
    candidates st = inr nearSights
    /\ currentTour
         (final (generateTour env userLocation maxDistance availableSights
                   wizardSettings st))
       = Some (assembleTour env wizardSettings
                 (optimizeRoute env userLocation nearSights maxDistance
                    wizardSettings)).
Proof.
  rewrite generateTour_result.
  destruct (candidates st) as [e|nearSights] eqn:H; [discriminate|].
  intros _. exists nearSights. split; [reflexivity|].
  now rewrite (generateTour_success st nearSights H).
Qed.

End Runs.

(** ** The assembler *)

Lemma toTourStop_sight (ws : option TourWizardSettings) (r : list Sight)
    (i : nat) (s : Sight) :
  stop_sight (toTourStop ws r i s) = s.
Proof. unfold toTourStop. now destruct (r !! S i). Qed.

Lemma toTourStop_order (ws : option TourWizardSettings) (r : list Sight)
    (i : nat) (s : Sight) :
  order (toTourStop ws r i s) = Z.of_nat i + 1.
Proof. unfold toTourStop. now destruct (r !! S i). Qed.

Lemma assembleTour_lookup (env : Env) (ws : option TourWizardSettings)
    (r : list Sight) (i : nat) :
  sights (assembleTour env ws r) !! i = toTourStop ws r i <$> r !! i.
Proof. unfold assembleTour. simpl. apply list_lookup_imap. Qed.

Lemma assembleTour_length (env : Env) (ws : option TourWizardSettings)
    (r : list Sight) :
  length (sights (assembleTour env ws r)) = length r.
Proof. unfold assembleTour. simpl. apply length_imap. Qed.

(** The stops are the sights of the route, in its order. *)
Lemma assembleTour_route (env : Env) (ws : option TourWizardSettings)
    (r : list Sight) :
  map stop_sight (sights (assembleTour env ws r)) = r.
Proof.
  apply list_eq. intros i.
  change (map stop_sight (sights (assembleTour env ws r)))
    with (stop_sight <$> sights (assembleTour env ws r)).
  rewrite list_lookup_fmap, assembleTour_lookup.
  destruct (r !! i) as [s|]; simpl; [|reflexivity].
  now rewrite toTourStop_sight.
Qed.

Lemma assembleTour_orders (env : Env) (ws : option TourWizardSettings)
    (r : list Sight) :
  map order (sights (assembleTour env ws r))
  = map Z.of_nat (seq 1 (length r)).
Proof.
  apply list_eq. intros i.
  change (map order (sights (assembleTour env ws r)))
    with (order <$> sights (assembleTour env ws r)).
  change (map Z.of_nat (seq 1 (length r)))
    with (Z.of_nat <$> seq 1 (length r)).
  rewrite !list_lookup_fmap, assembleTour_lookup.
  destruct (r !! i) as [s|] eqn:E; simpl.
  - rewrite toTourStop_order.
    apply lookup_lt_Some in E.
    rewrite (lookup_seq_lt 1 (length r) i E). simpl. f_equal. lia.
  - apply lookup_ge_None in E.
    now rewrite (lookup_seq_ge 1 (length r) i E).
Qed.

Lemma orZero_eq (x : Q) : (JS.orZero x == x)%Q.
Proof.
  unfold JS.orZero, JS.truthy. destruct (Qeq_bool x 0) eqn:E; simpl.
  - apply Qeq_bool_iff in E. now symmetry.
  - reflexivity.
Qed.

Lemma totalWalkingDistance_sum (stops : list TourStop) :
  forall acc,
    (fold_left (fun sum stop => sum + distanceToNextOrZero stop) stops acc
     == acc + sumDistanceToNext stops)%Q.
Proof.
  induction stops as [|stop stops IH]; intros acc; simpl.
  - ring.
  - rewrite IH. unfold distanceToNextOrZero.
    destruct (distanceToNext stop) as [d|].
    + rewrite orZero_eq. ring.
    + ring.
Qed.

Lemma totalWalkingTime_sum (stops : list TourStop) :
  forall acc,
    fold_left (fun sum stop => sum + walkingTimeToNextOrZero stop) stops acc
    = acc + sumWalkingTimeToNext stops.
Proof.
  induction stops as [|stop stops IH]; intros acc; simpl.
  - lia.
  - rewrite IH. unfold walkingTimeToNextOrZero.
    destruct (walkingTimeToNext stop) as [t|]; [|lia].
    destruct (Z.eqb_spec t 0); lia.
Qed.

Lemma assembleTour_totalDistance (env : Env) (ws : option TourWizardSettings)
    (r : list Sight) :
  (totalDistance (assembleTour env ws r)
   == sumDistanceToNext (sights (assembleTour env ws r)))%Q.
Proof.
  unfold assembleTour. simpl. rewrite totalWalkingDistance_sum. ring.
Qed.

Lemma assembleTour_estimatedDuration (env : Env) (ws : option TourWizardSettings)
    (r : list Sight) :
  estimatedDuration (assembleTour env ws r)
  = sumWalkingTimeToNext (sights (assembleTour env ws r))
    + Z.of_nat (length (sights (assembleTour env ws r)))
      * match ws with
        | Some w => getDetailLevelTime (detailLevelPerSight w)
        | None => 15
        end.
Proof.
  unfold assembleTour. simpl. rewrite totalWalkingTime_sum. lia.
Qed.

(** The per-stop fields of a stop that has a successor, and of the last. *)
Lemma toTourStop_next (ws : option TourWizardSettings) (r : list Sight)
    (i : nat) (s next : Sight) :
  r !! S i = Some next ->
  let d := distanceFrom (locationOf s) next in
  toTourStop ws r i s
  = mkStop s (Z.of_nat i + 1) (Some d)
      (Some (JS.ceil (d * match ws with
                          | Some w => getTransportTimeMultiplier (transportMode w)
                          | None => 12
                          end))).
Proof. intros H. unfold toTourStop. now rewrite H. Qed.

Lemma toTourStop_last (ws : option TourWizardSettings) (r : list Sight)
    (i : nat) (s : Sight) :
  r !! S i = None ->
  toTourStop ws r i s = mkStop s (Z.of_nat i + 1) (Some 0%Q) (Some 0).
Proof. intros H. unfold toTourStop. now rewrite H. Qed.

(** ** Properties of [generateTour] *)

Section Claims.

Variables (env : Env) (userLocation : Location) (maxDistance : Q)
  (availableSights : list Sight) (wizardSettings : option TourWizardSettings)
  (st : TourState).

(** C3, as the code has it.  When no candidate passes the tier and budget
    filters and the retry at the widened radius (the double product of
    the budget and 1.5) finds some, those candidates are sorted by
    ascending distance from the user, a stable sort, and the first 8 of
    them at most, none of the others closer, are the candidates of the
    optimiser.  The optimiser runs on them like on any other candidates:
    the delegated one when a credential is configured and they are more
    than 3, the heuristic one otherwise.  [generateTour] succeeds and the
    stops of the tour are the route the optimiser returns. *)
Theorem generateTour_expanded_retry :
  let filteredSights := filterByTier wizardSettings availableSights in
  let run :=
    generateTour env userLocation maxDistance availableSights wizardSettings st in
  let expandedSights :=
    List.filter (withinRadius (timesDouble maxDistance 1.5)) filteredSights in
  let sortedSights := sortByDistance expandedSights in
  let closest := firstn 8 sortedSights in
  List.filter (withinRadius maxDistance) filteredSights = [] ->
  expandedSights <> [] ->
  (Permutation sortedSights expandedSights
   /\ StronglySorted byDistance sortedSights
   /\ (forall d,
         List.filter (fun s => Qeq_bool (distanceOrZero s) d) sortedSights
         = List.filter (fun s => Qeq_bool (distanceOrZero s) d) expandedSights)
   /\ forall c f, In c closest -> In f (skipn 8 sortedSights) -> byDistance c f)
  /\ result run = inr tt
  /\ exists tour,
       currentTour (final run) = Some tour
       /\ map stop_sight (sights tour)
          = if JS.nonEmpty (openAiApiKey env) && (3 <? length closest)%nat
            then optimizeTourWithAI (fetchOutcome env) userLocation closest
                   maxDistance wizardSettings
            else optimizeTourSimple userLocation closest maxDistance
                   wizardSettings.
Proof.
  intros filteredSights run. subst filteredSights run.
  intros expandedSights sortedSights closest Hnear Hexp.
  split.
  { split; [apply sortByDistance_perm|].
    split; [apply sortByDistance_sorted|].
    split; [intros d; apply sortByDistance_stable|].
    apply (closest_of_sorted 8 expandedSights). }
  assert (H : result (selectCandidates maxDistance
                        (filterByTier wizardSettings availableSights) st)
              = inr closest).
  { apply selectCandidates_ok. right. auto. }
  rewrite (generateTour_success _ _ _ _ _ st closest H). simpl.
  split; [reflexivity|]. eexists. split; [reflexivity|].
  apply assembleTour_route.
Qed.

(** C4. When the external call of the delegated optimiser fails, with a
    credential configured and more than 3 candidates, [generateTour]
    raises nothing and publishes a tour whose stops are the route of the
    heuristic optimiser on the same candidates; the whole run is the run
    without a credential. *)
Theorem generateTour_delegation_failure (nearSights : list Sight) :
  let filteredSights := filterByTier wizardSettings availableSights in
  let run :=
    generateTour env userLocation maxDistance availableSights wizardSettings st in
  externalCallFails (fetchOutcome env) = true ->
  JS.nonEmpty (openAiApiKey env) = true ->
  result (selectCandidates maxDistance filteredSights st) = inr nearSights ->
  (3 < length nearSights)%nat ->
  result run = inr tt
  /\ (exists tour,
        currentTour (final run) = Some tour
        /\ sights tour <> []
        /\ map stop_sight (sights tour)
           = optimizeTourSimple userLocation nearSights maxDistance wizardSettings)
  /\ run = generateTour (withApiKey "" env) userLocation maxDistance
             availableSights wizardSettings st.
Proof.
  intros filteredSights run. subst filteredSights run.
  intros Hfail Hkey Hsel Hlen.
  assert (Hdelegated :
    optimizeRoute env userLocation nearSights maxDistance wizardSettings
    = optimizeTourWithAI (fetchOutcome env) userLocation nearSights
        maxDistance wizardSettings).
  { unfold optimizeRoute. rewrite Hkey.
    now replace (3 <? length nearSights)%nat with true
      by (symmetry; now apply Nat.ltb_lt). }
  pose proof (optimizeTourWithAI_failure (fetchOutcome env) userLocation
                nearSights maxDistance wizardSettings Hfail) as Hfallback.
  assert (Hroute :
    optimizeRoute env userLocation nearSights maxDistance wizardSettings
    = optimizeTourSimple userLocation nearSights maxDistance wizardSettings)
    by (now rewrite Hdelegated).
  rewrite (generateTour_success _ _ _ _ _ st nearSights Hsel).
  rewrite (generateTour_success (withApiKey "" env) _ _ _ _ st nearSights Hsel).
  simpl. rewrite Hroute. split; [reflexivity|]. split.
  - eexists. split; [reflexivity|]. split.
    + intros E. apply (f_equal (@length _)) in E.
      rewrite assembleTour_length in E. simpl in E.
      apply length_zero_iff_nil in E. revert E.
      apply optimizeTourSimple_nonempty. intros ->. simpl in Hlen. lia.
    + apply assembleTour_route.
  - reflexivity.
Qed.

(** C6. A generated tour has one stop for each stop of the route that the
    optimiser returned, the delegated one or the heuristic one, in the
    order of the route; with N the number of stops of that route, N is
    at least 1 and the [order] values of the stops are 1, 2, ..., N in
    the order of [Tour.sights]: the stop at index [i] has order
    [i + 1]. *)
Theorem generateTour_order_contiguous :
  let run :=
    generateTour env userLocation maxDistance availableSights wizardSettings st in
  result run = inr tt ->
  exists nearSights optimizedRoute tour,
    result (selectCandidates maxDistance
              (filterByTier wizardSettings availableSights) st)
    = inr nearSights
    /\ optimizedRoute
       = (if JS.nonEmpty (openAiApiKey env) && (3 <? length nearSights)%nat
          then optimizeTourWithAI (fetchOutcome env) userLocation nearSights
                 maxDistance wizardSettings
          else optimizeTourSimple userLocation nearSights maxDistance
                 wizardSettings)
    /\ currentTour (final run) = Some tour
    /\ map stop_sight (sights tour) = optimizedRoute
    /\ (1 <= length optimizedRoute)%nat
    /\ map order (sights tour)
       = map Z.of_nat (seq 1 (length optimizedRoute))
    /\ forall (i : nat) (stop : TourStop),
         sights tour !! i = Some stop -> order stop = Z.of_nat i + 1.
Proof.
  intros run. subst run.
  intros H. apply generateTour_inr in H as (nearSights & Hsel & ->).
  exists nearSights,
    (optimizeRoute env userLocation nearSights maxDistance wizardSettings).
  eexists. split; [exact Hsel|]. split; [reflexivity|].
  split; [reflexivity|]. split; [apply assembleTour_route|]. split; [|split].
  - assert (Hne : optimizeRoute env userLocation nearSights maxDistance
                    wizardSettings <> []).
    { apply optimizeRoute_nonempty. now apply selectCandidates_sound in Hsel. }
    destruct (optimizeRoute _ _ _ _ _); [congruence | simpl; lia].
  - apply assembleTour_orders.
  - intros i stop. rewrite assembleTour_lookup.
    destruct (_ !! i) as [s|]; simpl; [|discriminate].
    intros [= <-]. apply toTourStop_order.
Qed.

(** C7, as the code has it.  The last stop of a generated tour carries
    both fields, with the value 0. *)
Theorem generateTour_last_stop_zero :
  let run :=
    generateTour env userLocation maxDistance availableSights wizardSettings st in
  result run = inr tt ->
  exists tour lastStop,
    currentTour (final run) = Some tour
    /\ last (sights tour) = Some lastStop
    /\ distanceToNext lastStop = Some 0%Q
    /\ walkingTimeToNext lastStop = Some 0.
Proof.
  intros run. subst run.
  intros H. apply generateTour_inr in H as (nearSights & Hsel & ->).
  set (r := optimizeRoute env userLocation nearSights maxDistance wizardSettings).
  assert (Hne : r <> []).
  { apply optimizeRoute_nonempty. now apply selectCandidates_sound in Hsel. }
  destruct (last r) as [s|] eqn:Hlast; [|now apply last_None in Hlast].
  rewrite last_lookup in Hlast.
  assert (Hnext : r !! S (Nat.pred (length r)) = None).
  { apply lookup_ge_None. lia. }
  exists (assembleTour env wizardSettings r),
         (toTourStop wizardSettings r (Nat.pred (length r)) s).
  split; [reflexivity|]. split.
  - rewrite last_lookup, assembleTour_length, assembleTour_lookup.
    now rewrite Hlast.
  - now rewrite (toTourStop_last _ _ _ _ Hnext).
Qed.

(** C8. On every exit of [generateTour] the busy flag was the first thing
    published, set; it stayed set in every state published before the
    last; and the last published state, which is the state the caller
    finds, has it cleared. *)
Theorem generateTour_busy_flag :
  let run :=
    generateTour env userLocation maxDistance availableSights wizardSettings st in
  exists during,
    published run = during ++ [final run]
    /\ head during = Some (patch_isGenerating true st)
    /\ Forall (fun s => isGenerating s = true) during
    /\ isGenerating (final run) = false.
Proof.
  intros run. subst run.
  destruct (result (selectCandidates maxDistance
                      (filterByTier wizardSettings availableSights) st))
    as [e|nearSights] eqn:H.
  - rewrite (generateTour_error _ _ _ _ _ st e H). simpl.
    exists [patch_isGenerating true st]. repeat split.
    repeat constructor.
  - rewrite (generateTour_success _ _ _ _ _ st nearSights H). simpl.
    eexists [_; _]. repeat split. repeat constructor.
Qed.

(** C5. In a tour generated with wizard settings, a stop that has a
    successor carries the great-circle distance to it and, as travel
    time, that distance times the minutes per kilometre of the transport
    mode (walk 12, taxi 3, public 6, mix 8) rounded up to a whole minute;
    the total distance is the sum of the stops' distances to the next
    stop; the estimated duration is the sum of the stops' travel times
    plus the number of stops times the dwell minutes of the detail level
    (brief 5, medium 15, expert 25). *)
Theorem generateTour_metrics (w : TourWizardSettings) :
  let run :=
    generateTour env userLocation maxDistance availableSights wizardSettings st in
  wizardSettings = Some w ->
  result run = inr tt ->
  let minutesPerKm :=
    match transportMode w with
    | Walk => 12%Q | Taxi => 3%Q | Public => 6%Q | Mix => 8%Q
    end in
  let dwellMinutes :=
    match detailLevelPerSight w with
    | Brief => 5 | Medium => 15 | Expert => 25
    end in
  exists tour,
    currentTour (final run) = Some tour
    /\ (forall (i : nat) (stop next : TourStop),
          sights tour !! i = Some stop ->
          sights tour !! S i = Some next ->
          let d := distanceFrom (locationOf stop) next in
          distanceToNext stop = Some d
          /\ walkingTimeToNext stop = Some (Qceiling (d * minutesPerKm)))
    /\ (totalDistance tour == sumDistanceToNext (sights tour))%Q
    /\ estimatedDuration tour
       = sumWalkingTimeToNext (sights tour)
         + Z.of_nat (length (sights tour)) * dwellMinutes.
Proof.
  intros run. subst run.
  intros Hw H minutesPerKm dwellMinutes.
  apply generateTour_inr in H as (nearSights & _ & ->).
  eexists. split; [reflexivity|]. split; [|split].
  - intros i stop next. rewrite !assembleTour_lookup.
    set (r := optimizeRoute env userLocation nearSights maxDistance wizardSettings).
    destruct (r !! i) as [a|] eqn:Ha; simpl; [|discriminate].
    destruct (r !! S i) as [b|] eqn:Hb; simpl; [|discriminate].
    intros [= <-] [= <-].
    rewrite (toTourStop_next wizardSettings r i a b Hb). simpl.
    rewrite toTourStop_sight. split; [reflexivity|].
    rewrite Hw. subst minutesPerKm. unfold JS.ceil.
    now destruct (transportMode w).
  - apply assembleTour_totalDistance.
  - rewrite assembleTour_estimatedDuration, Hw. subst dwellMinutes.
    now destruct (detailLevelPerSight w).
Qed.

(** C10. A candidate without a distance from the user never is a stop of
    a generated tour: every stop is a candidate that passed the tier
    filter and has a distance.  When no candidate that passed the tier
    filter has a distance, [generateTour] fails with the "no sights
    found" error and leaves the current tour as it was. *)
Theorem generateTour_requires_distance :
  let filteredSights := filterByTier wizardSettings availableSights in
  let run :=
    generateTour env userLocation maxDistance availableSights wizardSettings st in
  (result run = inr tt ->
   exists tour,
     currentTour (final run) = Some tour
     /\ (forall stop, In stop (sights tour) ->
           In (stop_sight stop) filteredSights /\ distance stop <> None)
     /\ (forall s, distance s = None -> ~ In s (map stop_sight (sights tour))))
  /\ (Forall (fun s => distance s = None) filteredSights ->
      result run = inl (NoSightsFound (timesDouble maxDistance 1.5))
      /\ currentTour (final run) = currentTour st).
Proof.
  intros filteredSights run. subst filteredSights run.
  split.
  - intros H. apply generateTour_inr in H as (nearSights & Hsel & ->).
    apply selectCandidates_sound in Hsel as [_ Hsel].
    set (r := optimizeRoute env userLocation nearSights maxDistance wizardSettings).
    assert (Hr : forall s, In s r ->
                 In s (filterByTier wizardSettings availableSights)
                 /\ distance s <> None).
    { intros s Hs. apply optimizeRoute_incl in Hs.
      destruct (Hsel s Hs) as (Hin & d & Hd & _). split; [assumption|].
      now rewrite Hd. }
    eexists. split; [reflexivity|]. split.
    + intros stop Hstop. apply Hr.
      rewrite <- (assembleTour_route env wizardSettings r). now apply in_map.
    + intros s Hs Hin. rewrite assembleTour_route in Hin.
      now apply Hr in Hin as [_ Hd].
  - intros Hall.
    assert (Hnone : forall radius,
               List.filter (withinRadius radius)
                 (filterByTier wizardSettings availableSights) = []).
    { intros radius. rewrite List.Forall_forall in Hall.
      destruct (List.filter _ _) as [|x l] eqn:E; [reflexivity|].
      assert (Hx : In x (List.filter (withinRadius radius)
                           (filterByTier wizardSettings availableSights)))
        by (rewrite E; now left).
      apply filter_In in Hx as [Hx Hw]. unfold withinRadius in Hw.
      rewrite (Hall x Hx) in Hw. discriminate. }
    assert (H : result (selectCandidates maxDistance
                          (filterByTier wizardSettings availableSights) st)
                = inl (NoSightsFound (timesDouble maxDistance 1.5))).
    { apply selectCandidates_error. auto. }
    now rewrite (generateTour_error _ _ _ _ _ st _ H).
Qed.

End Claims.

(** Whatever the [try] block does and however it ends, the [finally]
    clause leaves the busy flag cleared. *)
Lemma tryFinally_clears_flag {A : Type} (body : Store A) (st : TourState) :
  isGenerating (final (tryFinally body (set (patch_isGenerating false)) st))
  = false.
Proof. reflexivity. Qed.

(** ** More on the heuristic optimiser *)

(** The route of the heuristic is greedy, whatever the number of
    candidates. *)
Lemma optimizeTourSimple_greedy (userLocation : Location) (sights0 : list Sight)
    (maxDistance : Q) (wizardSettings : option TourWizardSettings) :
  greedyStops userLocation sights0 maxDistance
    (optimizeTourSimple userLocation sights0 maxDistance wizardSettings).
Proof.
  destruct (le_lt_dec (length sights0) 1) as [H|H].
  - rewrite optimizeTourSimple_small by assumption.
    destruct sights0 as [|x [|y l]]; simpl in H; try lia.
    + intros pre s post E. now destruct pre.
    + intros pre s post E. destruct pre as [|p pre].
      * injection E as <- _. split; [reflexivity | congruence].
      * injection E as _ E. now destruct pre.
  - destruct (optimizeTourSimple_walk userLocation sights0 maxDistance
                wizardSettings H) as (w & -> & I & _).
    apply (inv_greedy _ _ _ _ I).
Qed.

(** X1. Nearest neighbour, in terms of distances: every stop of the heuristic
    route is at most as far from the stop before it (from the user, for
    the first stop) as any candidate whose identifier was not visited
    yet; among the candidates at that least distance it is the first in
    the order of the candidate list. *)
Theorem optimizeTourSimple_nearest_neighbour (userLocation : Location)
    (sights0 : list Sight) (maxDistance : Q)
    (wizardSettings : option TourWizardSettings) (pre post : list Sight)
    (s : Sight) :
  optimizeTourSimple userLocation sights0 maxDistance wizardSettings
  = pre ++ s :: post ->
  (forall c, In c sights0 -> ~ In (id c) (map id pre) ->
     (distanceFrom (whereAfter userLocation pre) s
      <= distanceFrom (whereAfter userLocation pre) c)%Q)
  /\ exists earlier later,
       remaining sights0 pre = earlier ++ s :: later
       /\ forall c, In c earlier ->
            (distanceFrom (whereAfter userLocation pre) s
             < distanceFrom (whereAfter userLocation pre) c)%Q.
Proof.
  intros E.
  destruct (optimizeTourSimple_greedy userLocation sights0 maxDistance
              wizardSettings pre s post E) as [Hn _].
  destruct (nearestRemaining_first_min _ _ _ _ Hn)
    as (l1 & l2 & Hsplit & Hbefore & Hafter).
  split.
  - intros c Hc Hfresh.
    assert (Hin : In c (remaining sights0 pre))
      by (apply remaining_In; split; assumption).
    rewrite Hsplit in Hin. apply in_app_or in Hin as [Hin|[<-|Hin]].
    + now apply Qlt_le_weak, Hbefore.
    + apply Qle_refl.
    + now apply Hafter.
  - exists l1, l2. split; assumption.
Qed.

Lemma optimizeTourSimple_NoDup_ids (userLocation : Location)
    (sights0 : list Sight) (maxDistance : Q)
    (wizardSettings : option TourWizardSettings) :
  List.NoDup (map id (optimizeTourSimple userLocation sights0 maxDistance
                        wizardSettings)).
Proof.
  destruct (le_lt_dec (length sights0) 1) as [H|H].
  - rewrite optimizeTourSimple_small by assumption.
    destruct sights0 as [|x [|y l]]; simpl in H; try lia; simpl.
    + constructor.
    + constructor; [intros [] | constructor].
  - destruct (optimizeTourSimple_walk userLocation sights0 maxDistance
                wizardSettings H) as (w & -> & I & _).
    rewrite <- (inv_visited _ _ _ _ I). apply (inv_nodup _ _ _ _ I).
Qed.

Lemma optimizeTourSimple_length (userLocation : Location)
    (sights0 : list Sight) (maxDistance : Q)
    (wizardSettings : option TourWizardSettings) :
  (length (optimizeTourSimple userLocation sights0 maxDistance wizardSettings)
   <= 8)%nat.
Proof.
  destruct (le_lt_dec (length sights0) 1) as [H|H].
  - rewrite optimizeTourSimple_small by assumption. lia.
  - destruct (optimizeTourSimple_walk userLocation sights0 maxDistance
                wizardSettings H) as (w & -> & I & _).
    pose proof (inv_cap _ _ _ _ I) as Hc.
    now rewrite (inv_visited _ _ _ _ I), length_map in Hc.
Qed.

(** X2. The heuristic route never holds an identifier twice, holds only
    candidates, and is empty only when there is no candidate. *)
Theorem optimizeTourSimple_route_wellformed (userLocation : Location)
    (sights0 : list Sight) (maxDistance : Q)
    (wizardSettings : option TourWizardSettings) :
  let r := optimizeTourSimple userLocation sights0 maxDistance wizardSettings in
  List.NoDup (map id r)
  /\ incl r sights0
  /\ (r = [] <-> sights0 = []).
Proof.
  intros r. subst r. split; [|split].
  - apply optimizeTourSimple_NoDup_ids.
  - apply optimizeTourSimple_incl.
  - split.
    + intros E. destruct sights0 as [|x l]; [reflexivity|]. exfalso.
      revert E. now apply optimizeTourSimple_nonempty.
    + intros ->. reflexivity.
Qed.

Lemma optimizeTourSimple_last_within_budget (userLocation : Location)
    (sights0 : list Sight) (maxDistance : Q)
    (wizardSettings : option TourWizardSettings) (lastStop : Sight) :
  let r := optimizeTourSimple userLocation sights0 maxDistance wizardSettings in
  (2 <= length r)%nat ->
  last r = Some lastStop ->
  (pathLength r + returnEstimate userLocation lastStop <= maxDistance * 0.9)%Q.
Proof.
  intros r Hlen Hlast.
  pose proof (optimizeTourSimple_greedy userLocation sights0 maxDistance
                wizardSettings) as G. fold r in G.
  destruct r as [|x r'] using rev_ind; [discriminate|]. clear IHr'.
  rewrite last_snoc in Hlast. injection Hlast as ->.
  assert (Hne : r' <> []).
  { intros ->. simpl in Hlen. lia. }
  destruct (G r' lastStop [] eq_refl) as [_ Hb].
  rewrite (pathLength_snoc userLocation r' lastStop Hne).
  exact (Hb Hne).
Qed.

(** X3. The budget test, read on the finished route: when the heuristic
    route has two stops or more, the distance walked along it plus half
    the straight-line distance from its last stop back to the user is at
    most 0.9 times the budget. *)
Theorem optimizeTourSimple_return_budget (userLocation : Location)
    (sights0 : list Sight) (maxDistance : Q)
    (wizardSettings : option TourWizardSettings) (lastStop : Sight) :
  let r := optimizeTourSimple userLocation sights0 maxDistance wizardSettings in
  (2 <= length r)%nat ->
  last r = Some lastStop ->
  (pathLength r + returnEstimate userLocation lastStop <= maxDistance * 0.9)%Q.
Proof. apply optimizeTourSimple_last_within_budget. Qed.

Lemma pathFrom_legsTotal (rest : list Sight) :
  forall acc x, (pathFrom acc x rest == acc + legsTotal (x :: rest))%Q.
Proof.
  induction rest as [|y rest IH]; intros acc x.
  - simpl. ring.
  - change (pathFrom acc x (y :: rest))
      with (pathFrom (acc + distanceFrom (locationOf x) y)%Q y rest).
    rewrite IH.
    change (legsTotal (x :: y :: rest))
      with (distanceFrom (locationOf x) y + legsTotal (y :: rest))%Q.
    ring.
Qed.

Lemma pathLength_legsTotal (r : list Sight) : (pathLength r == legsTotal r)%Q.
Proof.
  destruct r as [|x rest]; [reflexivity|].
  unfold pathLength. rewrite pathFrom_legsTotal. ring.
Qed.

Lemma legsTotal_nonneg (r : list Sight) :
  (forall a b c d, 0 <= calculateDistance a b c d)%Q ->
  (0 <= legsTotal r)%Q.
Proof.
  intros Hpos. induction r as [|a [|b rest] IH]; try apply Qle_refl.
  change (legsTotal (a :: b :: rest))
    with (distanceFrom (locationOf a) b + legsTotal (b :: rest))%Q.
  pose proof (Hpos (loc_latitude (locationOf a)) (loc_longitude (locationOf a))
                (latitude b) (longitude b)) as Hd.
  unfold distanceFrom. lra.
Qed.

(** The distances to the next stop that the assembler writes add up to
    the length of the route. *)
Lemma assembled_legs (ws : option TourWizardSettings) (r suffix : list Sight) :
  forall k,
    drop k r = suffix ->
    (sumDistanceToNext (imap (fun i => toTourStop ws r (k + i)) suffix)
     == legsTotal suffix)%Q.
Proof.
  induction suffix as [|a rest IH]; intros k Hk; [reflexivity|].
  assert (Hnext : r !! S k = rest !! 0%nat).
  { replace (S k) with (k + 1)%nat by lia.
    rewrite <- (lookup_drop r k 1), Hk. reflexivity. }
  assert (Hrest : drop (S k) r = rest).
  { replace (S k) with (k + 1)%nat by lia.
    rewrite <- (drop_drop r 1 k), Hk. reflexivity. }
  rewrite imap_cons.
  rewrite (imap_ext _ (fun i => toTourStop ws r (S k + i)) rest).
  2:{ intros i x _. simpl. f_equal. lia. }
  change (sumDistanceToNext (?s :: ?l))
    with (match distanceToNext s with
          | Some d => (d + sumDistanceToNext l)%Q
          | None => sumDistanceToNext l
          end).
  rewrite Nat.add_0_r. unfold toTourStop at 1. rewrite Hnext.
  destruct rest as [|b rest']; simpl distanceToNext; cbv iota.
  - simpl. ring.
  - rewrite (IH (S k) Hrest).
    change (legsTotal (a :: b :: rest'))
      with (distanceFrom (locationOf a) b + legsTotal (b :: rest'))%Q.
    reflexivity.
Qed.

Lemma assembleTour_pathLength (env : Env) (ws : option TourWizardSettings)
    (r : list Sight) :
  (totalDistance (assembleTour env ws r) == pathLength r)%Q.
Proof.
  rewrite assembleTour_totalDistance, pathLength_legsTotal.
  unfold assembleTour. simpl sights.
  apply (assembled_legs ws r r 0%nat). apply drop_0.
Qed.

(** With distances that are not negative and a budget that is not
    negative, the heuristic route is no longer than 0.9 times the
    budget. *)
Lemma optimizeTourSimple_pathLength (userLocation : Location)
    (sights0 : list Sight) (maxDistance : Q)
    (wizardSettings : option TourWizardSettings) :
  (forall a b c d, 0 <= calculateDistance a b c d)%Q ->
  (0 <= maxDistance)%Q ->
  (pathLength (optimizeTourSimple userLocation sights0 maxDistance wizardSettings)
   <= maxDistance * 0.9)%Q.
Proof.
  intros Hpos Hmax.
  set (r := optimizeTourSimple userLocation sights0 maxDistance wizardSettings).
  destruct (le_lt_dec 2 (length r)) as [H|H].
  - destruct (last r) as [s|] eqn:Hlast.
    + pose proof (optimizeTourSimple_last_within_budget userLocation sights0
                    maxDistance wizardSettings s H Hlast) as Hb.
      fold r in Hb. unfold returnEstimate in Hb.
      pose proof (Hpos (latitude s) (longitude s) (loc_latitude userLocation)
                    (loc_longitude userLocation)) as Hs.
      lra.
    + apply last_None in Hlast. rewrite Hlast in H. simpl in H. lia.
  - destruct r as [|x [|y r']]; simpl in H; try lia; simpl; lra.
Qed.

(** ** More on [generateTour] *)

Section MoreRuns.

Variables (env : Env) (userLocation : Location) (maxDistance : Q)
  (availableSights : list Sight) (wizardSettings : option TourWizardSettings)
  (st : TourState).

(** X4. The total distance of a generated tour is the length of the path
    through its stops, first to last, whichever optimiser made the
    route. *)
Theorem generateTour_totalDistance_pathLength :
  let run :=
    generateTour env userLocation maxDistance availableSights wizardSettings st in
  result run = inr tt ->
  exists tour,
    currentTour (final run) = Some tour
    /\ (totalDistance tour == pathLength (map stop_sight (sights tour)))%Q.
Proof.
  intros run H. subst run.
  apply generateTour_inr in H as (nearSights & _ & ->).
  eexists. split; [reflexivity|].
  rewrite assembleTour_route. apply assembleTour_pathLength.
Qed.

(** X5. Without a credential, or when the external call fails, a generated
    tour has at most 8 stops, no sight twice, and, for distances and a
    budget that are not negative, a total distance of at most 0.9 times
    the budget. *)
Theorem generateTour_heuristic_guarantee :
  let run :=
    generateTour env userLocation maxDistance availableSights wizardSettings st in
  JS.nonEmpty (openAiApiKey env) = false
  \/ externalCallFails (fetchOutcome env) = true ->
  (forall a b c d, 0 <= calculateDistance a b c d)%Q ->
  (0 <= maxDistance)%Q ->
  result run = inr tt ->
  exists tour,
    currentTour (final run) = Some tour
    /\ (1 <= length (sights tour) <= 8)%nat
    /\ List.NoDup (map id (map stop_sight (sights tour)))
    /\ (totalDistance tour <= maxDistance * 0.9)%Q.
Proof.
  intros run Hpath Hpos Hmax H. subst run.
  apply generateTour_inr in H as (nearSights & Hsel & ->).
  assert (Hroute :
    optimizeRoute env userLocation nearSights maxDistance wizardSettings
    = optimizeTourSimple userLocation nearSights maxDistance wizardSettings).
  { destruct Hpath as [Hkey|Hfail].
    - unfold optimizeRoute. now rewrite Hkey.
    - now apply optimizeRoute_failure. }
  eexists. split; [reflexivity|]. rewrite Hroute.
  split; [|split].
  - rewrite assembleTour_length. split; [|apply optimizeTourSimple_length].
    apply selectCandidates_sound in Hsel as [Hne _].
    pose proof (optimizeTourSimple_nonempty userLocation nearSights maxDistance
                  wizardSettings Hne) as Hr.
    destruct (optimizeTourSimple _ _ _ _); [congruence | simpl; lia].
  - rewrite assembleTour_route. apply optimizeTourSimple_NoDup_ids.
  - rewrite assembleTour_pathLength. now apply optimizeTourSimple_pathLength.
Qed.

Lemma tierAccepted_In (w : TourWizardSettings) (s : Sight) :
  tierAccepted w s = true <-> In (tier s) (interestLevel w).
Proof.
  unfold tierAccepted. rewrite existsb_exists. split.
  - intros (t & Hin & Heq).
    assert (E : tier s = t) by (destruct (tier s), t; (reflexivity || discriminate)).
    now rewrite E.
  - intros Hin. exists (tier s). split; [assumption|]. now destruct (tier s).
Qed.

(** The tier filter of [generateTour], in terms of membership. *)
Lemma filterByTier_In (ws : option TourWizardSettings) (l : list Sight)
    (s : Sight) :
  In s (filterByTier ws l)
  <-> In s l /\ forall w, ws = Some w -> In (tier s) (interestLevel w).
Proof.
  destruct ws as [w|]; simpl.
  - rewrite filter_In, tierAccepted_In. split.
    + intros [Hin Ht]. split; [assumption|]. now intros w' [= <-].
    + intros [Hin Ht]. split; [assumption|]. now apply Ht.
  - split; [|now intros [H _]]. intros H. split; [assumption|]. discriminate.
Qed.

(** X6. [generateTour] succeeds exactly when some available sight, of a
    tier of the interest level when wizard settings are given, has a
    recorded distance that is at most the budget or at most the widened
    radius, the double product of the budget and 1.5; otherwise it
    raises the "no sights found" error with that widened radius.  The
    "could not create a tour" error is never raised. *)
Theorem generateTour_succeeds_iff :
  let run :=
    generateTour env userLocation maxDistance availableSights wizardSettings st in
  let reachable (s : Sight) :=
    In s availableSights
    /\ (forall w, wizardSettings = Some w -> In (tier s) (interestLevel w))
    /\ exists d, distance s = Some d
                 /\ (d <= maxDistance \/ d <= timesDouble maxDistance 1.5)%Q in
  (result run = inr tt <-> exists s, reachable s)
  /\ (result run <> inr tt ->
      result run = inl (NoSightsFound (timesDouble maxDistance 1.5)))
  /\ result run <> inl CouldNotCreateTour.
Proof.
  intros run reachable. subst run. rewrite generateTour_result.
  destruct (result (selectCandidates maxDistance
                      (filterByTier wizardSettings availableSights) st))
    as [e|nearSights] eqn:Hsel.
  - apply selectCandidates_error in Hsel as (Hexp & Hnear & ->).
    split; [|split]; [|reflexivity|discriminate].
    split; [discriminate|]. intros (s & Hin & Htier & d & Hd & Hle). exfalso.
    assert (Hf : In s (filterByTier wizardSettings availableSights))
      by (apply filterByTier_In; split; assumption).
    assert (Hw : forall radius, (d <= radius)%Q -> withinRadius radius s = true).
    { intros radius Hr. unfold withinRadius. rewrite Hd.
      now apply Qle_bool_iff. }
    destruct Hle as [Hle|Hle].
    + assert (Hs : In s (List.filter (withinRadius maxDistance)
                           (filterByTier wizardSettings availableSights)))
        by (apply filter_In; auto).
      now rewrite Hnear in Hs.
    + assert (Hs : In s (List.filter (withinRadius (timesDouble maxDistance 1.5))
                           (filterByTier wizardSettings availableSights)))
        by (apply filter_In; auto).
      now rewrite Hexp in Hs.
  - split; [|split]; [|congruence|discriminate].
    split; [|reflexivity]. intros _.
    apply selectCandidates_sound in Hsel as [Hne Hall].
    destruct nearSights as [|s l]; [congruence|].
    exists s. destruct (Hall s (or_introl eq_refl)) as (Hin & d & Hd & Hle).
    apply filterByTier_In in Hin as [Hin Htier].
    split; [assumption|]. split; [assumption|]. exists d.
    split; [assumption|]. destruct Hle; [now right | now left].
Qed.

(** X7. No run of [generateTour] touches the saved tours or the tour
    distance, in any state it publishes; a run that fails leaves the
    current tour as it was, in every state it publishes. *)
Theorem generateTour_keeps_the_rest :
  let run :=
    generateTour env userLocation maxDistance availableSights wizardSettings st in
  Forall (fun s => savedTours s = savedTours st
                   /\ tourDistance s = tourDistance st)
    (final run :: published run)
  /\ (result run <> inr tt ->
      Forall (fun s => currentTour s = currentTour st)
        (final run :: published run)).
Proof.
  intros run. subst run.
  destruct (result (selectCandidates maxDistance
                      (filterByTier wizardSettings availableSights) st))
    as [e|nearSights] eqn:Hsel.
  - rewrite (generateTour_error _ _ _ _ _ st e Hsel). simpl.
    split; [|intros _]; repeat constructor.
  - rewrite (generateTour_success _ _ _ _ _ st nearSights Hsel). simpl.
    split; [repeat constructor | congruence].
Qed.

End MoreRuns.

(** ** More on the delegated optimiser *)

Lemma inRoute_In (r : list Sight) (i : SightId) :
  inRoute r i = true <-> In i (map id r).
Proof.
  unfold inRoute. induction r as [|x r IH]; simpl.
  - split; [discriminate | intros []].
  - destruct (SightId_eqb (id x) i) eqn:E.
    + apply SightId_eqb_eq in E. split; auto.
    + rewrite IH. split; [auto|]. intros [H|H]; [|assumption].
      apply SightId_eqb_eq in H. congruence.
Qed.

Lemma inRoute_false (r : list Sight) (i : SightId) :
  inRoute r i = false <-> ~ In i (map id r).
Proof.
  rewrite <- inRoute_In. destruct (inRoute r i); split; congruence.
Qed.

Lemma NoDup_ids_snoc (r : list Sight) (s : Sight) :
  List.NoDup (map id r) -> ~ In (id s) (map id r) ->
  List.NoDup (map id (r ++ [s])).
Proof.
  intros Hr Hs. rewrite map_app. apply List.NoDup_app.
  - assumption.
  - constructor; [intros [] | constructor].
  - intros x Hx [<-|[]]. now apply Hs.
Qed.

Lemma pushMatch_NoDup (sights0 r : list Sight) (name0 : string) :
  List.NoDup (map id r) -> List.NoDup (map id (pushMatch sights0 r name0)).
Proof.
  intros H. unfold pushMatch.
  destruct (List.find _ sights0) as [s|]; [|assumption].
  destruct (inRoute r (id s)) eqn:E; [assumption|].
  apply NoDup_ids_snoc; [assumption | now apply inRoute_false].
Qed.

Lemma fold_pushMatch_NoDup (sights0 : list Sight) (names : list string) :
  forall r, List.NoDup (map id r) ->
            List.NoDup (map id (fold_left (pushMatch sights0) names r)).
Proof.
  induction names as [|n names IH]; intros r H; simpl; [assumption|].
  apply IH. now apply pushMatch_NoDup.
Qed.

Lemma fold_pushMatch_length (sights0 : list Sight) (names : list string) :
  forall r, (length (fold_left (pushMatch sights0) names r)
             <= length r + length names)%nat.
Proof.
  induction names as [|n names IH]; intros r; simpl; [lia|].
  etransitivity; [apply IH|]. unfold pushMatch.
  destruct (List.find _ sights0) as [s|]; [|lia].
  destruct (inRoute r (id s)); [lia|]. rewrite length_app. simpl. lia.
Qed.

(** The fold of [forEach] keeps, of the candidates found for the names,
    the first one of each identifier, in the order of the names. *)
Lemma fold_pushMatch_keepNew (sights0 : list Sight) (names : list string) :
  forall r,
    fold_left (pushMatch sights0) names r
    = r ++ keepNew r (omap (fun n => List.find (nameMatches n) sights0) names).
Proof.
  induction names as [|n names IH]; intros r; simpl.
  - now rewrite app_nil_r.
  - rewrite IH. unfold pushMatch.
    destruct (List.find (nameMatches n) sights0) as [s|]; simpl; [|reflexivity].
    destruct (inRoute r (id s)); [reflexivity|].
    now rewrite <- app_assoc.
Qed.

Lemma NoDup_ids_filter (f : Sight -> bool) (l : list Sight) :
  List.NoDup (map id l) -> List.NoDup (map id (List.filter f l)).
Proof.
  induction l as [|x l IH]; simpl; intros H; [constructor|].
  inversion H as [|? ? Hx Hl]; subst.
  destruct (f x); simpl; [|now apply IH].
  constructor; [|now apply IH].
  intros Hin. apply Hx. apply in_map_iff in Hin as (y & Hy & Hin).
  apply filter_In in Hin as [Hin _]. rewrite <- Hy. now apply in_map.
Qed.

Lemma NoDup_ids_firstn (n : nat) (l : list Sight) :
  List.NoDup (map id l) -> List.NoDup (map id (firstn n l)).
Proof.
  intros H. rewrite <- (firstn_skipn n l), map_app in H.
  now apply NoDup_app_remove_r in H.
Qed.

Lemma NoDup_ids_sort (l : list Sight) :
  List.NoDup (map id l) -> List.NoDup (map id (sortByDistance l)).
Proof.
  intros H. eapply Permutation_NoDup; [|exact H].
  apply Permutation_map, Permutation_sym, sortByDistance_perm.
Qed.

Lemma topUp_NoDup (sights0 r : list Sight) :
  List.NoDup (map id sights0) -> List.NoDup (map id r) ->
  List.NoDup (map id (topUp sights0 r)).
Proof.
  intros Hs Hr. unfold topUp. destruct (length r <? 3)%nat; [|assumption].
  rewrite firstn_min_length, map_app. apply List.NoDup_app.
  - assumption.
  - now apply NoDup_ids_firstn, NoDup_ids_sort, NoDup_ids_filter.
  - intros i Hi Hi'. apply in_map_iff in Hi' as (x & <- & Hx).
    apply firstn_incl in Hx. apply (proj1 (sortByDistance_In _ _)) in Hx.
    apply filter_In in Hx as [_ Hx]. apply negb_true_iff in Hx.
    now apply inRoute_false in Hx.
Qed.

Lemma topUp_length (sights0 r : list Sight) :
  ((length r < 3 -> length (topUp sights0 r) <= length r + 5)
   /\ (3 <= length r -> topUp sights0 r = r))%nat.
Proof.
  unfold topUp. split; intros H.
  - replace (length r <? 3)%nat with true by (symmetry; now apply Nat.ltb_lt).
    rewrite length_app, firstn_min_length, length_firstn. lia.
  - now replace (length r <? 3)%nat with false
      by (symmetry; apply Nat.ltb_ge; lia).
Qed.

Lemma topUp_nil (sights0 r : list Sight) :
  topUp sights0 r = [] -> sights0 = [].
Proof.
  unfold topUp. destruct (length r <? 3)%nat eqn:E.
  - intros T. apply app_eq_nil in T as [-> T].
    rewrite firstn_min_length in T.
    destruct sights0 as [|s rest]; [reflexivity|]. exfalso.
    assert (Hs : In s (sortByDistance
                         (List.filter (fun sight => negb (inRoute [] (id sight)))
                            (s :: rest)))).
    { apply sortByDistance_In. apply filter_In. split; [now left | reflexivity]. }
    destruct (sortByDistance _); [destruct Hs | discriminate].
  - intros ->. discriminate.
Qed.

(** The route of a readable answer. *)
Lemma delegatedRoute_readable (userLocation : Location) (sights0 : list Sight)
    (maxDistance : Q) (wizardSettings : option TourWizardSettings)
    (completion : string) :
  optimizeTourWithAI (FetchResponse true (Some completion)) userLocation
    sights0 maxDistance wizardSettings
  = topUp sights0 (matchedRoute sights0 completion).
Proof.
  unfold optimizeTourWithAI, delegatedRoute.
  fold (answerNames completion). fold (matchedRoute sights0 completion).
  destruct (topUp sights0 (matchedRoute sights0 completion)) as [|x l] eqn:T;
    [|reflexivity].
  apply topUp_nil in T. subst sights0. reflexivity.
Qed.

Lemma matchedRoute_NoDup (sights0 : list Sight) (completion : string) :
  List.NoDup (map id (matchedRoute sights0 completion)).
Proof. apply fold_pushMatch_NoDup. constructor. Qed.

Lemma filter_not_inRoute_nil (l : list Sight) :
  List.filter (fun sight => negb (inRoute [] (id sight))) l = l.
Proof.
  induction l as [|x l IH]; simpl; [reflexivity|]. f_equal. exact IH.
Qed.

(** X8. Whatever the service answers, the delegated optimiser returns
    candidates only, returns an empty route only when there is no
    candidate, and, when the candidates have distinct identifiers,
    returns no candidate twice. *)
Theorem optimizeTourWithAI_route_wellformed (response : FetchOutcome)
    (userLocation : Location) (sights0 : list Sight) (maxDistance : Q)
    (wizardSettings : option TourWizardSettings) :
  let r := optimizeTourWithAI response userLocation sights0 maxDistance
             wizardSettings in
  incl r sights0
  /\ (r = [] <-> sights0 = [])
  /\ (List.NoDup (map id sights0) -> List.NoDup (map id r)).
Proof.
  intros r. subst r. unfold optimizeTourWithAI.
  destruct (delegatedRoute response userLocation sights0 maxDistance)
    as [r|] eqn:E.
  - split; [|split].
    + eapply delegatedRoute_incl, E.
    + split.
      * intros ->. destruct sights0 as [|s l]; [reflexivity|]. exfalso.
        eapply (delegatedRoute_nonempty response userLocation (s :: l));
          [discriminate | exact E | reflexivity].
      * intros ->. apply delegatedRoute_incl in E.
        destruct r as [|x r]; [reflexivity|]. destruct (E x). now left.
    + intros Hs.
      destruct response as [|[|] [completion|]]; simpl in E; try discriminate.
      injection E as <-.
      destruct (0 <? length _)%nat.
      * apply topUp_NoDup; [assumption|].
        apply fold_pushMatch_NoDup. constructor.
      * apply optimizeTourSimple_NoDup_ids.
  - split; [|split].
    + apply optimizeTourSimple_incl.
    + split.
      * intros Hr. destruct sights0 as [|s l]; [reflexivity|]. exfalso.
        revert Hr. now apply optimizeTourSimple_nonempty.
      * intros ->. reflexivity.
    + intros _. apply optimizeTourSimple_NoDup_ids.
Qed.

Lemma prefix_spec (a s : string) :
  String.prefix a s = true <-> exists post : string, s = (a ++ post)%string.
Proof.
  revert s. induction a as [|c a IH]; intros s; simpl.
  - destruct s; split; eauto.
  - destruct s as [|d s]; simpl.
    + split; [discriminate|]. intros (post & H). discriminate.
    + destruct (ascii_dec c d) as [->|Hne].
      * rewrite IH. split.
        -- intros (post & ->). now exists post.
        -- intros (post & [= ->]). now exists post.
      * split; [discriminate|]. intros (post & [= E _]). congruence.
Qed.

(** [s.includes(sub)] is the test of [occursIn]. *)
Lemma includes_spec (s sub : string) :
  JS.includes s sub = true <-> occursIn sub s.
Proof.
  unfold occursIn. induction s as [|c s IH].
  - change (JS.includes "" sub)
      with (if String.prefix sub "" then true else false).
    destruct (String.prefix sub "") eqn:P.
    + apply prefix_spec in P as (post & P). split; [|reflexivity].
      intros _. exists "", post. exact P.
    + split; [discriminate|]. intros (pre & post & H). exfalso.
      destruct pre; [|discriminate]. simpl in H.
      assert (P' : String.prefix sub "" = true)
        by (apply prefix_spec; now exists post).
      congruence.
  - change (JS.includes (String c s) sub)
      with (if String.prefix sub (String c s) then true
            else JS.includes s sub).
    destruct (String.prefix sub (String c s)) eqn:P.
    + apply prefix_spec in P as (post & P). split; [|reflexivity].
      intros _. exists "", post. exact P.
    + rewrite IH. split.
      * intros (pre & post & ->). now exists (String c pre), post.
      * intros (pre & post & H). destruct pre as [|d pre].
        -- exfalso. simpl in H.
           assert (P' : String.prefix sub (String c s) = true)
             by (apply prefix_spec; now exists post).
           congruence.
        -- injection H as _ ->. now exists pre, post.
Qed.

Lemma nameMatches_namesAlike (n : string) (s : Sight) :
  nameMatches n s = true <-> namesAlike n s.
Proof.
  unfold nameMatches, namesAlike.
  now rewrite orb_true_iff, !includes_spec.
Qed.

(** X9. A readable answer.  A name matches a candidate when, in lower
    case, one of the two names occurs in the other.  The matched stops
    are the first candidate that each name of the answer matches, in the
    order of the names, the first of each identifier only.  With 3
    matched stops or more they are the route, as many as they are; with
    fewer, the nearest of the other candidates by recorded distance are
    appended, 5 at most, so that the route has at most 7 stops. *)
Theorem optimizeTourWithAI_readable_answer (userLocation : Location)
    (sights0 : list Sight) (maxDistance : Q)
    (wizardSettings : option TourWizardSettings) (completion : string) :
  let matched := matchedRoute sights0 completion in
  let r := optimizeTourWithAI (FetchResponse true (Some completion))
             userLocation sights0 maxDistance wizardSettings in
  (forall n s, nameMatches n s = true <-> namesAlike n s)
  /\ matched
     = keepNew [] (omap (fun n => List.find (nameMatches n) sights0)
                     (answerNames completion))
  /\ (length matched <= length (answerNames completion))%nat
  /\ ((3 <= length matched)%nat -> r = matched)
  /\ ((length matched < 3)%nat ->
      r = matched
            ++ firstn 5 (sortByDistance
                           (List.filter
                              (fun sight => negb (inRoute matched (id sight)))
                              sights0))
      /\ (length r <= 7)%nat).
Proof.
  intros matched r. subst r. rewrite delegatedRoute_readable. fold matched.
  split; [exact nameMatches_namesAlike|].
  split; [|split; [|split]].
  - unfold matched, matchedRoute. now rewrite fold_pushMatch_keepNew.
  - unfold matched, matchedRoute.
    etransitivity; [apply fold_pushMatch_length | simpl; lia].
  - apply topUp_length.
  - intros H. split.
    + unfold topUp.
      replace (length matched <? 3)%nat with true
        by (symmetry; now apply Nat.ltb_lt).
      now rewrite firstn_min_length.
    + pose proof (proj1 (topUp_length sights0 matched) H). lia.
Qed.

(** X10. An answer none of whose names is like the name of a candidate (in
    lower case, neither occurs in the other): the route is the 5
    candidates nearest by recorded distance, not the heuristic route. *)
Theorem optimizeTourWithAI_unmatched_answer (userLocation : Location)
    (sights0 : list Sight) (maxDistance : Q)
    (wizardSettings : option TourWizardSettings) (completion : string) :
  (forall n s, In n (answerNames completion) -> In s sights0 ->
               ~ namesAlike n s) ->
  optimizeTourWithAI (FetchResponse true (Some completion)) userLocation
    sights0 maxDistance wizardSettings
  = firstn 5 (sortByDistance sights0).
Proof.
  intros Hno'.
  assert (Hno : forall n s, In n (answerNames completion) -> In s sights0 ->
                            nameMatches n s = false).
  { intros n s Hn Hs. destruct (nameMatches n s) eqn:E; [|reflexivity].
    exfalso. apply (Hno' n s Hn Hs). now apply nameMatches_namesAlike. }
  clear Hno'. revert Hno.

  intros Hno. rewrite delegatedRoute_readable.
  assert (Hm : matchedRoute sights0 completion = []).
  { unfold matchedRoute.
    assert (Hfold : forall names, incl names (answerNames completion) ->
              fold_left (pushMatch sights0) names [] = []).
    { induction names as [|n names IH]; intros Hincl; [reflexivity|].
      simpl. unfold pushMatch at 2.
      destruct (List.find (nameMatches n) sights0) as [s|] eqn:F.
      - apply find_some in F as [Hs Hmatch].
        rewrite (Hno n s) in Hmatch; [discriminate | | assumption].
        apply Hincl. now left.
      - apply IH. intros x Hx. apply Hincl. now right. }
    apply Hfold, incl_refl. }
  rewrite Hm. unfold topUp.
  rewrite firstn_min_length, filter_not_inRoute_nil. reflexivity.
Qed.

Lemma nameMatches_blank (s : Sight) : nameMatches "" s = true.
Proof using toLowerCase_empty.
  unfold nameMatches. rewrite toLowerCase_empty.
  destruct (toLowerCase (name s)); reflexivity.
Qed.

(** X11. An answer whose names are all blank (an empty completion, commas and
    spaces only): the blank name, whose lower-case form is blank as well,
    matches every candidate, so the route is the first candidate of the
    list followed by the 5 nearest, by recorded distance, of the
    candidates with another identifier. *)
Theorem optimizeTourWithAI_blank_answer (userLocation : Location)
    (first : Sight) (others : list Sight) (maxDistance : Q)
    (wizardSettings : option TourWizardSettings) (completion : string) :
  Forall (fun n => n = EmptyString) (answerNames completion) ->
  optimizeTourWithAI (FetchResponse true (Some completion)) userLocation
    (first :: others) maxDistance wizardSettings
  = first
      :: firstn 5 (sortByDistance
                     (List.filter
                        (fun sight => negb (inRoute [first] (id sight)))
                        others)).
Proof using toLowerCase_empty.
  intros Hblank. rewrite delegatedRoute_readable.
  assert (Hself : inRoute [first] (id first) = true).
  { apply inRoute_In. now left. }
  assert (Hm : matchedRoute (first :: others) completion = [first]).
  { unfold matchedRoute.
    assert (Hne : answerNames completion <> []).
    { unfold answerNames. destruct completion as [|c rest]; simpl; [discriminate|].
      destruct (Ascii.eqb c ","); [discriminate|].
      destruct (JS.splitComma rest); discriminate. }
    assert (Hstep : forall r, pushMatch (first :: others) r ""
                              = if inRoute r (id first) then r else r ++ [first]).
    { intros r. unfold pushMatch. simpl List.find.
      now rewrite nameMatches_blank. }
    destruct (answerNames completion) as [|n names]; [congruence|].
    apply List.Forall_cons_iff in Hblank as [-> Hrest].
    simpl. rewrite Hstep. simpl.
    induction names as [|n names IH]; [reflexivity|].
    apply List.Forall_cons_iff in Hrest as [-> Hrest].
    simpl. rewrite Hstep, Hself. now apply IH. }
  rewrite Hm. unfold topUp. rewrite firstn_min_length.
  simpl List.filter. rewrite Hself. reflexivity.
Qed.

(** ** [fetchNearbySights] *)

Section Fetch.

Variables (settings : SettingsState) (response : PlacesOutcome)
  (latitude0 longitude0 : Q) (st : SightsStore.SightsState).

Lemma fetchNearbySights_failed :
  JS.nonEmpty (googleMapsApiKey settings) = false
  \/ fetchedSights (googleMapsApiKey settings) response latitude0 longitude0
     = None ->
  let st1 := SightsStore.patch_loading true st in
  fetchNearbySights settings response latitude0 longitude0 st
  = [st1; clearSights st1; SightsStore.patch_loading false (clearSights st1)].
Proof.
  intros H st1. unfold fetchNearbySights. fold st1.
  destruct (JS.nonEmpty (googleMapsApiKey settings)); simpl; [|reflexivity].
  destruct H as [H|H]; [discriminate|]. now rewrite H.
Qed.

Lemma fetchNearbySights_fetched (sortedSights : list Sight) :
  JS.nonEmpty (googleMapsApiKey settings) = true ->
  fetchedSights (googleMapsApiKey settings) response latitude0 longitude0
  = Some sortedSights ->
  let st1 := SightsStore.patch_loading true st in
  let st2 := SightsStore.patch_allSights sortedSights st1 in
  let st3 := SightsStore.filterSightsByRadius settings st2 in
  fetchNearbySights settings response latitude0 longitude0 st
  = [st1; st2; st3; SightsStore.patch_loading false st3].
Proof.
  intros Hkey H st1 st2 st3. unfold fetchNearbySights. fold st1.
  rewrite Hkey, H. reflexivity.
Qed.

(** When the [try] block throws: the request is rejected, the response is
    no success, the body cannot be read, or its status is neither [OK]
    nor [ZERO_RESULTS]. *)
Lemma fetchedSights_None (key : string) :
  fetchedSights key response latitude0 longitude0 = None <->
  match response with
  | PlacesRejected => True
  | PlacesResponse ok body =>
      ok = false
      \/ match body with
         | None => True
         | Some (status, _) => status <> "OK" /\ status <> "ZERO_RESULTS"
         end
  end.
Proof.
  unfold fetchedSights.
  destruct response as [|[|] [[status results]|]]; try tauto.
  destruct (String.eqb_spec status "OK") as [->|H1]; simpl.
  - split; [discriminate|]. intros [H|[H _]]; congruence.
  - destruct (String.eqb_spec status "ZERO_RESULTS") as [->|H2]; simpl.
    + split; [discriminate|]. intros [H|[_ H]]; congruence.
    + tauto.
Qed.

(** X12. The busy flag of the sights store: [fetchNearbySights] publishes the
    flag set first, keeps it set in every state before the last, and
    leaves it cleared, on success and on every failure; it never changes
    the favourites, the radius or the user's location. *)
Theorem fetchNearbySights_loading :
  let states := fetchNearbySights settings response latitude0 longitude0 st in
  let st' := afterFetch settings response latitude0 longitude0 st in
  exists during,
    states = during ++ [st']
    /\ head during = Some (SightsStore.patch_loading true st)
    /\ Forall (fun s => SightsStore.loading s = true) during
    /\ SightsStore.loading st' = false
    /\ Forall (fun s => SightsStore.favorites s = SightsStore.favorites st
                        /\ SightsStore.radius s = SightsStore.radius st
                        /\ SightsStore.userLocation s = SightsStore.userLocation st)
         states.
Proof.
  intros states st'. subst states st'. unfold afterFetch.
  destruct (JS.nonEmpty (googleMapsApiKey settings)) eqn:Hkey.
  - destruct (fetchedSights (googleMapsApiKey settings) response latitude0
                longitude0) as [l|] eqn:F.
    + rewrite (fetchNearbySights_fetched l Hkey F). simpl.
      eexists [_; _; _]. repeat split; repeat constructor.
    + rewrite (fetchNearbySights_failed (or_intror F)). simpl.
      eexists [_; _]. repeat split; repeat constructor.
  - rewrite (fetchNearbySights_failed (or_introl Hkey)). simpl.
    eexists [_; _]. repeat split; repeat constructor.
Qed.

(** X13. Without a key for the places service, or when the request fails in
    any way, [fetchNearbySights] leaves the cache and the visible list
    empty: what was cached before is lost. *)
Theorem fetchNearbySights_failure_clears :
  JS.nonEmpty (googleMapsApiKey settings) = false
  \/ match response with
     | PlacesRejected => True
     | PlacesResponse ok body =>
         ok = false
         \/ match body with
            | None => True
            | Some (status, _) => status <> "OK" /\ status <> "ZERO_RESULTS"
            end
     end ->
  let st' := afterFetch settings response latitude0 longitude0 st in
  SightsStore.allSights st' = [] /\ SightsStore.sights st' = [].
Proof.
  intros H st'. subst st'. unfold afterFetch.
  rewrite fetchNearbySights_failed.
  - split; reflexivity.
  - destruct H as [H|H]; [now left | right].
    now apply fetchedSights_None.
Qed.

Lemma imap_In {A B : Type} (f : nat -> A -> B) (l : list A) (y : B) :
  In y (imap f l) <-> exists i x, l !! i = Some x /\ y = f i x.
Proof.
  rewrite <- list_elem_of_In, list_elem_of_lookup. split.
  - intros [i Hi]. rewrite list_lookup_imap in Hi.
    destruct (l !! i) as [x|] eqn:E; [|discriminate].
    injection Hi as <-. eauto.
  - intros (i & x & Hx & ->). exists i. now rewrite list_lookup_imap, Hx.
Qed.

Lemma filterSightsByTiers_sights (cached : SightsStore.SightsState) :
  SightsStore.sights (SightsStore.filterSightsByTiers settings cached)
  = List.filter (SightsStore.tierSelected (selectedTiers settings))
      (List.filter (withinRadius (SightsStore.radius cached))
         (SightsStore.allSights cached)).
Proof. reflexivity. Qed.

(** X14. A successful fetch.  The cache becomes the sights made from the
    results of the response (one per result, made by [placeToSight] from
    the result and its index), in ascending order of their recorded
    distance; each has a distance and no saved narration, so narrations
    saved for sights of the former cache are gone; the visible list is
    the part of the new cache within the radius of the store and of a
    selected tier. *)
Theorem fetchNearbySights_success (status : string)
    (results : option (list Place)) :
  JS.nonEmpty (googleMapsApiKey settings) = true ->
  response = PlacesResponse true (Some (status, results)) ->
  status = "OK" \/ status = "ZERO_RESULTS" ->
  let places := match results with Some l => l | None => [] end in
  let st' := afterFetch settings response latitude0 longitude0 st in
  Permutation (SightsStore.allSights st')
    (imap (placeToSight (googleMapsApiKey settings) latitude0 longitude0) places)
  /\ StronglySorted byDistance (SightsStore.allSights st')
  /\ (forall s, In s (SightsStore.allSights st') ->
        (exists i place,
           places !! i = Some place
           /\ s = placeToSight (googleMapsApiKey settings) latitude0 longitude0
                    i place)
        /\ (exists d, distance s = Some d)
        /\ savedContent s = None)
  /\ SightsStore.sights st'
     = List.filter (SightsStore.tierSelected (selectedTiers settings))
         (List.filter (withinRadius (SightsStore.radius st))
            (SightsStore.allSights st')).
Proof.
  intros Hkey Hresp Hstatus places st'. subst st'. unfold afterFetch.
  set (made := imap (placeToSight (googleMapsApiKey settings) latitude0
                       longitude0) places).
  assert (F : fetchedSights (googleMapsApiKey settings) response latitude0
                longitude0 = Some (sortByDistance made)).
  { rewrite Hresp. unfold fetchedSights.
    destruct Hstatus as [-> | ->]; reflexivity. }
  rewrite (fetchNearbySights_fetched (sortByDistance made) Hkey F). simpl.
  split; [apply sortByDistance_perm|]. split; [apply sortByDistance_sorted|].
  split; [|reflexivity].
  intros s Hs. apply (proj1 (sortByDistance_In _ _)) in Hs.
  apply imap_In in Hs as (i & place & Hi & ->).
  split; [eauto|]. split; [eexists; reflexivity | reflexivity].
Qed.

End Fetch.

Lemma filter_all {A : Type} (f : A -> bool) (l : list A) :
  (forall x, In x l -> f x = true) -> List.filter f l = l.
Proof.
  induction l as [|x l IH]; intros H; simpl; [reflexivity|].
  rewrite (H x (or_introl eq_refl)). f_equal. apply IH.
  intros y Hy. apply H. now right.
Qed.

Lemma afterFetch_visible_within (settings : SettingsState)
    (response : PlacesOutcome) (latitude0 longitude0 : Q)
    (sst : SightsStore.SightsState) (s : Sight) :
  In s (SightsStore.sights (afterFetch settings response latitude0 longitude0 sst)) ->
  withinRadius (SightsStore.radius sst) s = true.
Proof.
  unfold afterFetch.
  destruct (JS.nonEmpty (googleMapsApiKey settings)) eqn:Hkey.
  - destruct (fetchedSights (googleMapsApiKey settings) response latitude0
                longitude0) as [l|] eqn:F.
    + rewrite (fetchNearbySights_fetched settings response latitude0 longitude0
                 sst l Hkey F). simpl.
      intros H. apply filter_In in H as [H _]. now apply filter_In in H as [_ H].
    + rewrite (fetchNearbySights_failed settings response latitude0 longitude0
                 sst (or_intror F)). intros [].
  - rewrite (fetchNearbySights_failed settings response latitude0 longitude0
               sst (or_introl Hkey)). intros [].
Qed.

(** X15. From the places search to the tour.  When the budget of the tour is
    at least the radius of the sights store, [generateTour] on the
    visible sights that [fetchNearbySights] left drops none of them for
    its distance and never widens the radius: the optimiser is handed
    every visible sight of an accepted tier, and the only failure is that
    there is none. *)
Theorem generateTour_on_fetched_sights (env : Env) (userLocation : Location)
    (maxDistance : Q) (wizardSettings : option TourWizardSettings)
    (st : TourState) (settings : SettingsState) (response : PlacesOutcome)
    (latitude0 longitude0 : Q) (sst : SightsStore.SightsState) :
  let visible :=
    SightsStore.sights (afterFetch settings response latitude0 longitude0 sst) in
  let accepted := filterByTier wizardSettings visible in
  let run := generateTour env userLocation maxDistance visible wizardSettings st in
  (SightsStore.radius sst <= maxDistance)%Q ->
  (accepted = [] -> result run = inl (NoSightsFound (timesDouble maxDistance 1.5)))
  /\ (accepted <> [] ->
      result run = inr tt
      /\ exists tour,
           currentTour (final run) = Some tour
           /\ map stop_sight (sights tour)
              = optimizeRoute env userLocation accepted maxDistance
                  wizardSettings).
Proof.
  intros visible accepted run Hradius. subst run.
  assert (Hall : List.filter (withinRadius maxDistance) accepted = accepted).
  { apply filter_all. intros s Hs.
    assert (Hv : In s visible).
    { unfold accepted, filterByTier in Hs. destruct wizardSettings; [|assumption].
      now apply filter_In in Hs as [Hs _]. }
    apply afterFetch_visible_within in Hv.
    apply withinRadius_distance in Hv as (d & Hd & Hle).
    unfold withinRadius. rewrite Hd. apply Qle_bool_iff.
    now apply Qle_trans with (SightsStore.radius sst). }
  split.
  - intros Hnil.
    assert (H : result (selectCandidates maxDistance accepted st)
                = inl (NoSightsFound (timesDouble maxDistance 1.5))).
    { apply selectCandidates_error. now rewrite Hnil. }
    now rewrite (generateTour_error _ _ _ _ _ st _ H).
  - intros Hne.
    assert (H : result (selectCandidates maxDistance accepted st) = inr accepted).
    { apply selectCandidates_ok. left. rewrite Hall. auto. }
    rewrite (generateTour_success _ _ _ _ _ st accepted H). simpl.
    split; [reflexivity|]. eexists. split; [reflexivity|].
    apply assembleTour_route.
Qed.
End Engine.

(** ** The string helpers on an answer of the completion service *)

Example splitComma_trim_sample :
  map Samples.trimAscii (JS.splitComma " Zeta, delta ,,Old Town ")
  = ["Zeta"; "delta"; ""; "Old Town"].
Proof. reflexivity. Qed.

Example includes_sample :
  JS.includes (Samples.lowerAscii "Old Town Hall") (Samples.lowerAscii "town") = true
  /\ JS.includes "delta" "" = true
  /\ JS.includes "delta" "deltas" = false.
Proof. repeat split. Qed.

(** ** The tier classifier *)

(** The boundaries the specification lists. *)
Example determineSightTier_boundaries :
  determineSightTier (Some 4.3%Q) (Some 500%Q) = Tier1
  /\ determineSightTier (Some 4.3%Q) (Some 499%Q) = Tier2
  /\ determineSightTier (Some 3.9%Q) (Some 1000%Q) = Tier3
  /\ determineSightTier None (Some 1000%Q) = Tier2.
Proof. repeat split. Qed.

(** A rating of 0 with 100 reviews: the classifier answers tier 2 where
    the reference definition answers tier 3; likewise for 0 reviews. *)
Lemma determineSightTier_zero_is_tier2 :
  determineSightTier (Some 0%Q) (Some 100%Q) = Tier2
  /\ referenceTier (Some 0%Q) (Some 100%Q) = Tier3
  /\ determineSightTier (Some 4.5%Q) (Some 0%Q) = Tier2
  /\ referenceTier (Some 4.5%Q) (Some 0%Q) = Tier3
  /\ determineSightTier (Some 0%Q) (Some 100%Q)
     <> referenceTier (Some 0%Q) (Some 100%Q).
Proof. repeat split. discriminate. Qed.

(** C2, as the code has it.  A rating or review count that is missing or
    zero gives tier 2; on every other input the classifier is the
    reference definition: tier 1 for rating >= 4.3 and count >= 500,
    else tier 3 for rating < 4.0 or count < 50, else tier 2. *)
Theorem determineSightTier_reference (rating userRatingsTotal : option Q) :
  let missingOrZero (x : option Q) :=
    match x with
    | None => True
    | Some v => (v == 0)%Q
    end in
  (missingOrZero rating \/ missingOrZero userRatingsTotal ->
   determineSightTier rating userRatingsTotal = Tier2)
  /\ (~ missingOrZero rating -> ~ missingOrZero userRatingsTotal ->
      determineSightTier rating userRatingsTotal
      = referenceTier rating userRatingsTotal).
Proof.
  intros missingOrZero.
  assert (Hfalsy : forall x, falsyNumber x = true <-> missingOrZero x).
  { intros [v|]; simpl; [|tauto]. unfold JS.truthy.
    rewrite negb_involutive. apply Qeq_bool_iff. }
  split.
  - intros H. unfold determineSightTier.
    destruct (falsyNumber rating) eqn:E1; [reflexivity|].
    destruct (falsyNumber userRatingsTotal) eqn:E2; [reflexivity|].
    destruct H as [H|H]; apply Hfalsy in H; congruence.
  - intros H1 H2. unfold determineSightTier.
    destruct (falsyNumber rating) eqn:E1; [now apply Hfalsy in E1|].
    destruct (falsyNumber userRatingsTotal) eqn:E2; [now apply Hfalsy in E2|].
    destruct rating as [r|]; [|discriminate].
    destruct userRatingsTotal as [n|]; [|discriminate].
    reflexivity.
Qed.

Lemma determineSightTier_reference_witness :
  determineSightTier (Some 0%Q) (Some 100%Q) = Tier2
  /\ determineSightTier (Some 3.9%Q) (Some 1000%Q)
     = referenceTier (Some 3.9%Q) (Some 1000%Q).
Proof.
  split.
  - apply (determineSightTier_reference (Some 0%Q) (Some 100%Q)).
    left. reflexivity.
  - apply (determineSightTier_reference (Some 3.9%Q) (Some 1000%Q));
      simpl; discriminate.
Defined.

(** ** Saved tours *)

Lemma list_find_insert_found {A : Type} (P : A -> Prop)
    `{forall x, Decision (P x)} (l : list A) (i : nat) (x y : A) :
  list_find P l = Some (i, x) -> P y ->
  list_find P (<[i := y]> l) = Some (i, y).
Proof.
  intros Hfind Hy. apply list_find_Some in Hfind as (Hi & _ & Hbefore).
  apply list_find_Some. split; [|split].
  - apply list_lookup_insert_eq. now apply lookup_lt_Some in Hi.
  - assumption.
  - intros j z Hj Hlt. rewrite list_lookup_insert_ne in Hj by lia.
    now apply (Hbefore j z).
Qed.

Lemma list_find_snoc_fresh {A : Type} (P : A -> Prop)
    `{forall x, Decision (P x)} (l : list A) (y : A) :
  list_find P l = None -> P y ->
  list_find P (l ++ [y]) = Some (length l, y).
Proof.
  intros Hnone Hy. rewrite list_find_app_r by assumption.
  simpl. destruct (decide (P y)); [|contradiction].
  simpl. f_equal.
Qed.

(** What [saveTour] leaves in the saved collection: the current tour
    under the new name, found first by its identifier. *)
Lemma saveTour_saved (name0 : string) (st : TourState) (current : Tour) :
  currentTour st = Some current ->
  let saved :=
    renameTour current
      (if JS.nonEmpty name0 then name0 else tour_name current) in
  exists i,
    list_find (fun t => tour_id t = tour_id current)
      (savedTours (final (saveTour name0 st))) = Some (i, saved)
    /\ currentTour (final (saveTour name0 st)) = Some current.
Proof.
  intros Hcur saved. unfold saveTour, mbind, Store_bind. simpl. rewrite Hcur.
  fold saved. change (tour_id saved) with (tour_id current).
  destruct (list_find _ (savedTours st)) as [[i old]|] eqn:F; simpl.
  - exists i. split; [|assumption].
    now apply (list_find_insert_found _ _ _ old).
  - exists (length (savedTours st)). split; [|assumption].
    now apply list_find_snoc_fresh.
Qed.

Lemma loadTour_found (tourId : string) (st : TourState) (i : nat) (t : Tour) :
  list_find (fun t => tour_id t = tourId) (savedTours st) = Some (i, t) ->
  final (loadTour tourId st) = patch_currentTour (Some t) st.
Proof.
  intros H. unfold loadTour, mbind, Store_bind. simpl. now rewrite H.
Qed.

(** C9. With a current tour and a non-empty name X, [saveTour X] followed
    by [loadTour] with the identifier of that tour makes the current tour
    the saved one: its name is X and its stops are the stops at save
    time. *)
Theorem saveTour_loadTour_roundtrip (X : string) (st : TourState) (current : Tour) :
  currentTour st = Some current ->
  X <> EmptyString ->
  let st' := final (loadTour (tour_id current) (final (saveTour X st))) in
  exists loaded,
    currentTour st' = Some loaded
    /\ tour_name loaded = X
    /\ sights loaded = sights current
    /\ tour_id loaded = tour_id current.
Proof.
  intros Hcur HX st'.
  destruct (saveTour_saved X st current Hcur) as (i & Hfind & _).
  assert (HXne : JS.nonEmpty X = true) by (destruct X; [congruence | reflexivity]).
  rewrite HXne in Hfind.
  exists (renameTour current X). subst st'.
  rewrite (loadTour_found _ _ _ _ Hfind). repeat split.
Qed.

Lemma saveTour_loadTour_roundtrip_witness :
  let stops :=
    [mkStop Samples.gamma 1 (Some 0.2224%Q) (Some 3);
     mkStop Samples.delta 2 (Some 0%Q) (Some 0)] in
  let current :=
    mkTour "1700000000000" "2-Stop Tour" stops 0.2224%Q 33 1700000000001 in
  let older :=
    mkTour "1600000000000" "Harbour" [mkStop Samples.zeta 1 (Some 0%Q) (Some 0)]
      0%Q 15 1600000000001 in
  let earlierSave :=
    mkTour "1700000000000" "First try" [mkStop Samples.gamma 1 (Some 0%Q) (Some 0)]
      0%Q 15 1700000000001 in
  (* the tour is saved for the first time: it is appended *)
  (let st := mkState (Some current) [older] false 5%Q in
   exists loaded,
     currentTour
       (final (loadTour "1700000000000" (final (saveTour "Old town" st))))
     = Some loaded
     /\ tour_name loaded = "Old town"
     /\ sights loaded = stops
     /\ tour_id loaded = "1700000000000")
  (* an entry with its identifier is there: it is replaced *)
  /\ (let st := mkState (Some current) [older; earlierSave] false 5%Q in
      exists loaded,
        currentTour
          (final (loadTour "1700000000000" (final (saveTour "Old town" st))))
        = Some loaded
        /\ tour_name loaded = "Old town"
        /\ sights loaded = stops
        /\ tour_id loaded = "1700000000000").
Proof.
  intros stops current older earlierSave. split.
  - apply (saveTour_loadTour_roundtrip "Old town"
             (mkState (Some current) [older] false 5%Q) current).
    + reflexivity.
    + discriminate.
  - apply (saveTour_loadTour_roundtrip "Old town"
             (mkState (Some current) [older; earlierSave] false 5%Q) current).
    + reflexivity.
    + discriminate.
Defined.

(** The saved collection in the two cases of that witness: the tour is
    appended after the older one, or takes the place of the entry with
    its identifier. *)
Example saveTour_branches_sample :
  let current :=
    mkTour "1700000000000" "2-Stop Tour"
      [mkStop Samples.gamma 1 (Some 0.2224%Q) (Some 3);
       mkStop Samples.delta 2 (Some 0%Q) (Some 0)] 0.2224%Q 33 1700000000001 in
  let older := mkTour "1600000000000" "Harbour" [] 0%Q 15 1600000000001 in
  let earlierSave :=
    mkTour "1700000000000" "First try" [] 0%Q 15 1700000000001 in
  map tour_name
    (savedTours (final (saveTour "Old town"
                          (mkState (Some current) [older] false 5%Q))))
  = ["Harbour"; "Old town"]
  /\ map tour_name
       (savedTours (final (saveTour "Old town"
                             (mkState (Some current) [earlierSave; older]
                                false 5%Q))))
     = ["Old town"; "Harbour"].
Proof. split; reflexivity. Qed.

(** ** Runs of the engine on the sample data *)

Import Samples.

(** The heuristic on six candidates with a budget of 1 km stops after four
    stops: the nearest of the two left would need more than 0.9 km. *)
Example optimizeTourSimple_sample :
  optimizeTourSimple gridDistance origin
    [alpha; beta; gamma; delta; epsilon; zeta] 1%Q None
  = [gamma; delta; epsilon; zeta].
Proof. vm_compute. reflexivity. Qed.

(** Ten candidates 111 m apart and a budget of 50 km: the cap of 8 stops
    ends the walk, nearest first. *)
Example optimizeTourSimple_cap_sample :
  map id (optimizeTourSimple gridDistance origin cluster 50%Q None)
  = map (fun k => IdNum (100 + k)) [1; 2; 3; 4; 5; 6; 7; 8].
Proof. vm_compute. reflexivity. Qed.

(** A successful answer of the delegated optimiser, topped up with the two
    nearest unused candidates. *)
Example optimizeTourWithAI_sample :
  optimizeTourWithAI gridDistance lowerAscii trimAscii
    (FetchResponse true (Some "Zeta, delta"))
    origin [gamma; delta; epsilon; zeta] 5%Q None
  = [zeta; delta; gamma; epsilon].
Proof. vm_compute. reflexivity. Qed.

(** Budget 1 km, two candidates at 1.22 km and 1.33 km: none within the
    budget, both within 1.5 km.  The closest up to 8 of them are both,
    but the tour has one stop: the optimiser ran on them and left the
    second out. *)
Lemma expanded_retry_runs_the_optimizer :
  let availableSights := [alpha; beta] in
  let run :=
    generateTour gridDistance exactTimes lowerAscii trimAscii noKey origin 1%Q
      availableSights None initialState in
  List.filter (withinRadius 1%Q) availableSights = []
  /\ firstn 8 (sortByDistance
                 (List.filter (withinRadius (exactTimes 1 1.5)) availableSights))
     = [alpha; beta]
  /\ exists tour,
       currentTour (final run) = Some tour
       /\ map stop_sight (sights tour) = [alpha]
       /\ map stop_sight (sights tour)
          <> firstn 8 (sortByDistance
                         (List.filter (withinRadius (exactTimes 1 1.5))
                            availableSights)).
Proof.
  vm_compute. split; [reflexivity|]. split; [reflexivity|].
  eexists. split; [reflexivity|]. split; [reflexivity | discriminate].
Qed.

(** Where the rounding of the widened radius decides.  The double
    product of 0.6 and 1.5 is 0.8999999999999999, below 0.9: with a
    budget of 0.6 km a sight recorded at 0.9 km is outside the widened
    radius as well, and no tour is made. *)
Remark generateTour_rounded_radius (timesDouble : Q -> Q -> Q) :
  (timesDouble 0.6 1.5 < 0.9)%Q ->
  result
    (generateTour gridDistance timesDouble lowerAscii trimAscii noKey origin
       0.6%Q [sightAt 8 "Theta" 0.008 (Some 0.9%Q) Tier1] None initialState)
  = inl (NoSightsFound (timesDouble 0.6 1.5)%Q).
Proof.
  intros H. rewrite generateTour_result.
  assert (E : Qle_bool 0.9 (timesDouble 0.6 1.5)%Q = false).
  { destruct (Qle_bool 0.9 (timesDouble 0.6 1.5)%Q) eqn:E; [|reflexivity].
    apply Qle_bool_iff in E. lra. }
  unfold selectCandidates, filterByTier, sightAt, withinRadius, JS.le.
  cbn [List.filter distance]. rewrite E. reflexivity.
Qed.

Lemma generateTour_expanded_retry_witness :
  let run :=
    generateTour gridDistance exactTimes lowerAscii trimAscii noKey origin 1%Q
      [alpha; beta] None initialState in
  let closest :=
    firstn 8 (sortByDistance
                (List.filter (withinRadius (exactTimes 1 1.5)) [alpha; beta])) in
  result run = inr tt
  /\ exists tour,
       currentTour (final run) = Some tour
       /\ map stop_sight (sights tour)
          = if JS.nonEmpty (openAiApiKey noKey) && (3 <? length closest)%nat
            then optimizeTourWithAI gridDistance lowerAscii trimAscii
                   (fetchOutcome noKey) origin closest 1%Q None
            else optimizeTourSimple gridDistance origin closest 1%Q None.
Proof.
  apply (generateTour_expanded_retry gridDistance exactTimes lowerAscii
           trimAscii noKey origin 1%Q [alpha; beta] None initialState).
  - reflexivity.
  - discriminate.
Defined.

Lemma generateTour_delegation_failure_witness :
  let run := generateTour gridDistance exactTimes lowerAscii trimAscii
               keyButOffline origin 5%Q
               [gamma; delta; epsilon; zeta] None initialState in
  result run = inr tt
  /\ (exists tour,
        currentTour (final run) = Some tour
        /\ sights tour <> []
        /\ map stop_sight (sights tour)
           = optimizeTourSimple gridDistance origin
               [gamma; delta; epsilon; zeta] 5%Q None)
  /\ run = generateTour gridDistance exactTimes lowerAscii trimAscii
             (withApiKey "" keyButOffline) origin 5%Q
             [gamma; delta; epsilon; zeta] None initialState.
Proof.
  apply (generateTour_delegation_failure gridDistance exactTimes lowerAscii trimAscii
             keyButOffline origin 5%Q
           [gamma; delta; epsilon; zeta] None initialState
           [gamma; delta; epsilon; zeta]).
  - reflexivity.
  - reflexivity.
  - reflexivity.
  - simpl. lia.
Defined.

Lemma generateTour_metrics_witness :
  let run := generateTour gridDistance exactTimes lowerAscii trimAscii
               keyAndAnswer origin 5%Q
               [gamma; delta; epsilon; zeta] (Some walkingTour) initialState in
  exists tour,
    currentTour (final run) = Some tour
    /\ (forall (i : nat) (stop next : TourStop),
          sights tour !! i = Some stop ->
          sights tour !! S i = Some next ->
          distanceToNext stop
          = Some (distanceFrom gridDistance (locationOf stop) next)
          /\ walkingTimeToNext stop
             = Some (Qceiling (distanceFrom gridDistance (locationOf stop) next * 12)))
    /\ (totalDistance tour == sumDistanceToNext (sights tour))%Q
    /\ estimatedDuration tour
       = sumWalkingTimeToNext (sights tour)
         + Z.of_nat (length (sights tour)) * 15.
Proof.
  apply (generateTour_metrics gridDistance exactTimes lowerAscii trimAscii
             keyAndAnswer origin 5%Q
           [gamma; delta; epsilon; zeta] (Some walkingTour) initialState
           walkingTour).
  - reflexivity.
  - reflexivity.
Defined.

Lemma generateTour_order_contiguous_witness :
  let run :=
    generateTour gridDistance exactTimes lowerAscii trimAscii keyAndAnswer
      origin 5%Q [gamma; delta; epsilon; zeta] (Some walkingTour)
      initialState in
  exists nearSights optimizedRoute tour,
    result (selectCandidates exactTimes 5%Q
              (filterByTier (Some walkingTour) [gamma; delta; epsilon; zeta])
              initialState)
    = inr nearSights
    /\ optimizedRoute
       = (if JS.nonEmpty (openAiApiKey keyAndAnswer)
             && (3 <? length nearSights)%nat
          then optimizeTourWithAI gridDistance lowerAscii trimAscii
                 (fetchOutcome keyAndAnswer) origin nearSights 5%Q
                 (Some walkingTour)
          else optimizeTourSimple gridDistance origin nearSights 5%Q
                 (Some walkingTour))
    /\ currentTour (final run) = Some tour
    /\ map stop_sight (sights tour) = optimizedRoute
    /\ (1 <= length optimizedRoute)%nat
    /\ map order (sights tour)
       = map Z.of_nat (seq 1 (length optimizedRoute))
    /\ forall (i : nat) (stop : TourStop),
         sights tour !! i = Some stop -> order stop = Z.of_nat i + 1.
Proof.
  apply (generateTour_order_contiguous gridDistance exactTimes lowerAscii
           trimAscii keyAndAnswer origin 5%Q [gamma; delta; epsilon; zeta]
           (Some walkingTour) initialState).
  reflexivity.
Defined.

(** The run of that witness: the delegated route of four stops, numbered
    1 to 4. *)
Example generateTour_order_sample :
  let run :=
    generateTour gridDistance exactTimes lowerAscii trimAscii keyAndAnswer
      origin 5%Q [gamma; delta; epsilon; zeta] (Some walkingTour)
      initialState in
  exists tour,
    currentTour (final run) = Some tour
    /\ map stop_sight (sights tour) = [zeta; delta; gamma; epsilon]
    /\ map order (sights tour) = [1; 2; 3; 4].
Proof. vm_compute. eexists. repeat split. Qed.

(** The last stop of a two-stop tour: both fields are there, with 0. *)
Lemma last_stop_fields_present :
  let run := generateTour gridDistance exactTimes lowerAscii trimAscii
               noKey origin 5%Q [gamma; delta] None
               initialState in
  exists tour lastStop,
    currentTour (final run) = Some tour
    /\ last (sights tour) = Some lastStop
    /\ stop_sight lastStop = delta
    /\ distanceToNext lastStop = Some 0%Q
    /\ walkingTimeToNext lastStop = Some 0
    /\ distanceToNext lastStop <> None
    /\ walkingTimeToNext lastStop <> None.
Proof.
  vm_compute. eexists. eexists. split; [reflexivity|]. split; [reflexivity|].
  repeat split; discriminate.
Qed.

Lemma generateTour_last_stop_zero_witness :
  let run := generateTour gridDistance exactTimes lowerAscii trimAscii
               noKey origin 5%Q [gamma; delta] None
               initialState in
  exists tour lastStop,
    currentTour (final run) = Some tour
    /\ last (sights tour) = Some lastStop
    /\ distanceToNext lastStop = Some 0%Q
    /\ walkingTimeToNext lastStop = Some 0.
Proof.
  apply (generateTour_last_stop_zero gridDistance exactTimes lowerAscii trimAscii
             noKey origin 5%Q
           [gamma; delta] None initialState).
  reflexivity.
Defined.

Lemma generateTour_requires_distance_witness :
  (let run := generateTour gridDistance exactTimes lowerAscii trimAscii
                noKey origin 5%Q [eta; gamma; delta]
                None initialState in
   exists tour,
     currentTour (final run) = Some tour
     /\ (forall stop, In stop (sights tour) ->
           In (stop_sight stop) [eta; gamma; delta] /\ distance stop <> None)
     /\ (forall s, distance s = None -> ~ In s (map stop_sight (sights tour))))
  /\ (let run := generateTour gridDistance exactTimes lowerAscii trimAscii
                   noKey origin 5%Q [eta] None
                   initialState in
      result run = inl (NoSightsFound (exactTimes 5 1.5))
      /\ currentTour (final run) = None).
Proof.
  split.
  - apply (generateTour_requires_distance gridDistance exactTimes lowerAscii trimAscii
             noKey origin 5%Q
             [eta; gamma; delta] None initialState).
    reflexivity.
  - apply (generateTour_requires_distance gridDistance exactTimes lowerAscii trimAscii
             noKey origin 5%Q
             [eta] None initialState).
    repeat constructor.
Defined.

(** The busy flag on a failing run: raised, then cleared, while the error
    reaches the caller. *)
Example generateTour_busy_flag_on_error :
  let run := generateTour gridDistance exactTimes lowerAscii trimAscii
               noKey origin 1%Q
               [sightAt 9 "Far" 0.9 (Some 100%Q) Tier1] None initialState in
  result run = inl (NoSightsFound 1.5%Q)
  /\ map isGenerating (published run) = [true; false]
  /\ isGenerating (final run) = false.
Proof. vm_compute. repeat split. Qed.

(** ** More on the saved tours *)

Lemma filter_sublist {A : Type} (f : A -> bool) (l : list A) :
  sublist (List.filter f l) l.
Proof.
  induction l as [|x l IH]; simpl; [constructor|].
  destruct (f x); now constructor.
Qed.

(** The saved collection that [saveTour] writes. *)
Lemma saveTour_final (name0 : string) (st : TourState) (current : Tour) :
  currentTour st = Some current ->
  let tourToSave :=
    renameTour current
      (if JS.nonEmpty name0 then name0 else tour_name current) in
  final (saveTour name0 st)
  = patch_savedTours
      (match list_find (fun t => tour_id t = tour_id current) (savedTours st) with
       | Some (existingIndex, _) => <[existingIndex := tourToSave]> (savedTours st)
       | None => savedTours st ++ [tourToSave]
       end) st.
Proof.
  intros Hcur tourToSave. unfold saveTour, mbind, Store_bind. simpl.
  rewrite Hcur. fold tourToSave.
  change (tour_id tourToSave) with (tour_id current).
  now destruct (list_find _ (savedTours st)) as [[i old]|].
Qed.

Lemma saveTour_no_current (name0 : string) (st : TourState) :
  currentTour st = None -> saveTour name0 st = mkOutcome st [] (inr tt).
Proof.
  intros Hcur. unfold saveTour, mbind, Store_bind. simpl. now rewrite Hcur.
Qed.

(** X16. After [deleteTour(id)] the saved collection holds exactly the
    tours with another identifier, in their order; the current tour
    stays, also when it is the deleted one; and [loadTour(id)] finds
    nothing and changes nothing. *)
Theorem deleteTour_then_loadTour (tourId : string) (st : TourState) :
  let st' := final (deleteTour tourId st) in
  (forall t, In t (savedTours st')
             <-> In t (savedTours st) /\ tour_id t <> tourId)
  /\ sublist (savedTours st') (savedTours st)
  /\ currentTour st' = currentTour st
  /\ loadTour tourId st' = mkOutcome st' [] (inr tt).
Proof.
  intros st'. subst st'. unfold deleteTour, mbind, Store_bind. simpl.
  assert (Hin : forall t,
             In t (List.filter (fun tour => negb (String.eqb (tour_id tour) tourId))
                     (savedTours st))
             <-> In t (savedTours st) /\ tour_id t <> tourId).
  { intros t. rewrite filter_In, negb_true_iff, String.eqb_neq. tauto. }
  split; [exact Hin|]. split; [apply filter_sublist|]. split; [reflexivity|].
  unfold loadTour, mbind, Store_bind. simpl.
  destruct (list_find _ _) as [[i t]|] eqn:F; [|reflexivity].
  apply list_find_Some in F as (Hi & Hid & _). exfalso.
  apply list_elem_of_lookup_2, list_elem_of_In, Hin in Hi. tauto.
Qed.

(** X17. Saving never duplicates an identifier: when the saved tours have
    distinct identifiers they still have after [saveTour]; the current
    tour replaces the entry with its identifier, or is appended when
    there is none, and every entry with another identifier stays. *)
Theorem saveTour_keeps_ids_distinct (name0 : string) (st : TourState)
    (current : Tour) :
  currentTour st = Some current ->
  List.NoDup (map tour_id (savedTours st)) ->
  let st' := final (saveTour name0 st) in
  List.NoDup (map tour_id (savedTours st'))
  /\ (In (tour_id current) (map tour_id (savedTours st)) ->
      map tour_id (savedTours st') = map tour_id (savedTours st))
  /\ (~ In (tour_id current) (map tour_id (savedTours st)) ->
      map tour_id (savedTours st')
      = map tour_id (savedTours st) ++ [tour_id current])
  /\ (forall t, In t (savedTours st) -> tour_id t <> tour_id current ->
                In t (savedTours st')).
Proof.
  intros Hcur Hnd st'. subst st'. rewrite (saveTour_final name0 st current Hcur).
  simpl savedTours.
  set (new := renameTour current
                (if JS.nonEmpty name0 then name0 else tour_name current)).
  destruct (list_find _ (savedTours st)) as [[i old]|] eqn:F.
  - apply list_find_Some in F as (Hi & Hid & _).
    assert (Hids : map tour_id (<[i:=new]> (savedTours st))
                   = map tour_id (savedTours st)).
    { change (tour_id <$> <[i:=new]> (savedTours st) = tour_id <$> savedTours st).
      rewrite list_fmap_insert. apply list_insert_id.
      rewrite list_lookup_fmap, Hi. simpl. now rewrite Hid. }
    rewrite Hids. split; [assumption|]. split; [reflexivity|]. split.
    + intros Hnot. exfalso. apply Hnot. rewrite <- Hid.
      apply in_map. eapply list_elem_of_In, list_elem_of_lookup_2, Hi.
    + intros t Ht Hne. apply list_elem_of_In in Ht.
      apply list_elem_of_lookup in Ht as [j Hj].
      apply list_elem_of_In. apply list_elem_of_lookup. exists j.
      rewrite list_lookup_insert_ne; [assumption|].
      intros <-. rewrite Hi in Hj. injection Hj as <-. congruence.
  - apply list_find_None in F. rewrite List.Forall_forall in F.
    assert (Hfresh : ~ In (tour_id current) (map tour_id (savedTours st))).
    { intros Hin. apply in_map_iff in Hin as (t & Hid & Ht). now apply (F t). }
    rewrite map_app. simpl. split; [|split; [|split]].
    + apply List.NoDup_app; [assumption | | ].
      * constructor; [intros [] | constructor].
      * intros x Hx [<-|[]]. now apply Hfresh.
    + intros Hin. contradiction.
    + reflexivity.
    + intros t Ht _. apply in_or_app. now left.
Qed.

(** X18. The last save wins: saving twice in a row, under any two names,
    leaves the store as the second save alone would. *)
Theorem saveTour_twice (name1 name2 : string) (st : TourState) :
  final (saveTour name2 (final (saveTour name1 st)))
  = final (saveTour name2 st).
Proof.
  destruct (currentTour st) as [current|] eqn:Hcur.
  - rewrite (saveTour_final name1 st current Hcur).
    set (new1 := renameTour current
                   (if JS.nonEmpty name1 then name1 else tour_name current)).
    set (saved1 := match list_find _ (savedTours st) with
                   | Some (i, _) => <[i:=new1]> (savedTours st)
                   | None => savedTours st ++ [new1]
                   end).
    assert (Hcur1 : currentTour (patch_savedTours saved1 st) = Some current)
      by exact Hcur.
    rewrite (saveTour_final name2 _ current Hcur1).
    rewrite (saveTour_final name2 st current Hcur).
    set (new2 := renameTour current
                   (if JS.nonEmpty name2 then name2 else tour_name current)).
    simpl savedTours. subst saved1.
    destruct (list_find _ (savedTours st)) as [[i old]|] eqn:F.
    + rewrite (list_find_insert_found _ _ i old new1 F eq_refl).
      now rewrite list_insert_insert_eq.
    + rewrite (list_find_snoc_fresh _ _ new1 F eq_refl).
      rewrite insert_app_r_alt by lia. now rewrite Nat.sub_diag.
  - rewrite (saveTour_no_current name1 st Hcur). reflexivity.
Qed.

(** ** The sights store *)

Lemma existsb_eqb_In (k : string) (l : list string) :
  existsb (String.eqb k) l = true <-> In k l.
Proof.
  rewrite existsb_exists. split.
  - intros (x & Hx & E). apply String.eqb_eq in E. now subst.
  - intros H. exists k. split; [assumption | apply String.eqb_refl].
Qed.

Lemma filter_neq_In (k x : string) (l : list string) :
  In x (List.filter (fun i => negb (String.eqb i k)) l) <-> In x l /\ x <> k.
Proof.
  rewrite filter_In, negb_true_iff, String.eqb_neq. tauto.
Qed.

Lemma filter_neq_absent (k : string) (l : list string) :
  ~ In k l -> List.filter (fun i => negb (String.eqb i k)) l = l.
Proof.
  induction l as [|x l IH]; simpl; intros H; [reflexivity|].
  destruct (String.eqb_spec x k) as [->|Hne]; simpl.
  - exfalso. apply H. now left.
  - f_equal. apply IH. tauto.
Qed.

(** X19. [toggleFavorite] flips whether the identifier, as a string, is a
    favourite and leaves every other favourite as it is; it never
    introduces a duplicate; and toggling a sight that was no favourite
    twice restores the list. *)
Theorem toggleFavorite_flips (sightId : SightId) (st : SightsStore.SightsState) :
  let key := SightsStore.idString sightId in
  let st' := SightsStore.toggleFavorite sightId st in
  (In key (SightsStore.favorites st') <-> ~ In key (SightsStore.favorites st))
  /\ (forall k, k <> key ->
        (In k (SightsStore.favorites st') <-> In k (SightsStore.favorites st)))
  /\ (List.NoDup (SightsStore.favorites st) ->
      List.NoDup (SightsStore.favorites st'))
  /\ (~ In key (SightsStore.favorites st) ->
      SightsStore.favorites (SightsStore.toggleFavorite sightId st')
      = SightsStore.favorites st).
Proof.
  intros key st'. subst st'. unfold SightsStore.toggleFavorite. fold key.
  destruct (existsb (String.eqb key) (SightsStore.favorites st)) eqn:E.
  - apply existsb_eqb_In in E. simpl. split; [|split; [|split]].
    + rewrite filter_neq_In. tauto.
    + intros k Hk. rewrite filter_neq_In. tauto.
    + intros Hnd. now apply List.NoDup_filter.
    + intros Hnot. contradiction.
  - assert (Hnot : ~ In key (SightsStore.favorites st)).
    { intros H. apply existsb_eqb_In in H. congruence. }
    simpl. split; [|split; [|split]].
    + rewrite in_app_iff. simpl. tauto.
    + intros k Hk. rewrite in_app_iff. simpl. split; [|tauto].
      intros [H|[H|[]]]; [assumption | congruence].
    + intros Hnd. apply List.NoDup_app; [assumption | |].
      * constructor; [intros [] | constructor].
      * intros x Hx [<-|[]]. contradiction.
    + intros _.
      assert (Hin : existsb (String.eqb key) (SightsStore.favorites st ++ [key])
                    = true).
      { apply existsb_eqb_In, in_or_app. right. now left. }
      rewrite Hin. simpl. rewrite List.filter_app. simpl.
      rewrite String.eqb_refl. simpl. rewrite app_nil_r.
      now apply filter_neq_absent.
Qed.

Lemma toggleFavorite_flips_witness :
  let st := SightsStore.patch_favorites ["7"; "ChIJ-abc"] SightsStore.initialState in
  SightsStore.favorites
    (SightsStore.toggleFavorite (IdNum 42)
       (SightsStore.toggleFavorite (IdNum 42) st))
  = ["7"; "ChIJ-abc"].
Proof.
  intros st.
  apply (toggleFavorite_flips (IdNum 42) st).
  vm_compute. intros [H|[H|[]]]; discriminate.
Defined.

Lemma filter_sublist_implied {A : Type} (f g : A -> bool) (l : list A) :
  (forall x, f x = true -> g x = true) ->
  sublist (List.filter f l) (List.filter g l).
Proof.
  intros Hfg. induction l as [|x l IH]; simpl; [constructor|].
  destruct (f x) eqn:F.
  - rewrite (Hfg x F). now constructor.
  - destruct (g x); [now constructor | assumption].
Qed.

Lemma tierSelected_In (tiers : list SightTier) (s : Sight) :
  SightsStore.tierSelected tiers s = true <-> In (tier s) tiers.
Proof.
  unfold SightsStore.tierSelected. rewrite existsb_exists. split.
  - intros (x & Hx & E). destruct (tier s), x; try discriminate; assumption.
  - intros H. exists (tier s). split; [assumption|]. now destruct (tier s).
Qed.

(** X20. After [setRadius(r)] the visible sights are exactly the cached sights
    that have a distance of at most [r] and a selected tier, in the order
    of the cache (a cached sight without a distance is never visible);
    the cache itself is untouched. *)
Theorem setRadius_visible (settings : SettingsState) (r : Q)
    (st : SightsStore.SightsState) :
  let st' := SightsStore.setRadius settings r st in
  (forall s, In s (SightsStore.sights st')
             <-> In s (SightsStore.allSights st)
                 /\ (exists d, distance s = Some d /\ (d <= r)%Q)
                 /\ In (tier s) (selectedTiers settings))
  /\ sublist (SightsStore.sights st') (SightsStore.allSights st)
  /\ SightsStore.allSights st' = SightsStore.allSights st
  /\ SightsStore.radius st' = r.
Proof.
  intros st'. subst st'.
  unfold SightsStore.setRadius, SightsStore.filterSightsByRadius,
    SightsStore.filterSightsByTiers. simpl.
  split; [|split; [|split]]; try reflexivity.
  - intros s. rewrite !filter_In, tierSelected_In. unfold withinRadius.
    destruct (distance s) as [d|].
    + unfold JS.le. rewrite Qle_bool_iff. split.
      * intros [[Hin Hle] Ht]. eauto.
      * intros (Hin & (d' & [= <-] & Hle) & Ht). auto.
    + split; [intros [[_ H] _]; discriminate|].
      intros (_ & (d & H & _) & _). discriminate.
  - etransitivity; apply filter_sublist.
Qed.

(** X21. A smaller radius shows a sub-sequence of what a larger one shows. *)
Theorem setRadius_monotone (settings : SettingsState) (r1 r2 : Q)
    (st : SightsStore.SightsState) :
  (r1 <= r2)%Q ->
  sublist (SightsStore.sights (SightsStore.setRadius settings r1 st))
    (SightsStore.sights (SightsStore.setRadius settings r2 st)).
Proof.
  intros Hr.
  unfold SightsStore.setRadius, SightsStore.filterSightsByRadius,
    SightsStore.filterSightsByTiers. simpl.
  induction (SightsStore.allSights st) as [|x l IH]; simpl; [constructor|].
  assert (Himp : withinRadius r1 x = true -> withinRadius r2 x = true).
  { unfold withinRadius, JS.le. destruct (distance x) as [d|]; [|discriminate].
    rewrite !Qle_bool_iff. intros H. now apply Qle_trans with r1. }
  destruct (withinRadius r1 x) eqn:W1.
  - rewrite (Himp eq_refl). simpl.
    destruct (SightsStore.tierSelected _ x); [now constructor | assumption].
  - destruct (withinRadius r2 x); simpl; [|assumption].
    destruct (SightsStore.tierSelected _ x); [now constructor | assumption].
Qed.

Lemma setRadius_monotone_witness :
  sublist
    (SightsStore.sights
       (SightsStore.setRadius
          (mkSettings "" "" "" "EN" "" [Tier1; Tier2] Medium Samples.walkingTour)
          0.5%Q
          (SightsStore.patch_allSights
             [Samples.gamma; Samples.delta; Samples.epsilon; Samples.zeta]
             SightsStore.initialState)))
    (SightsStore.sights
       (SightsStore.setRadius
          (mkSettings "" "" "" "EN" "" [Tier1; Tier2] Medium Samples.walkingTour)
          5%Q
          (SightsStore.patch_allSights
             [Samples.gamma; Samples.delta; Samples.epsilon; Samples.zeta]
             SightsStore.initialState))).
Proof.
  apply (setRadius_monotone
           (mkSettings "" "" "" "EN" "" [Tier1; Tier2] Medium Samples.walkingTour)
           0.5%Q 5%Q).
  vm_compute. discriminate.
Defined.

Lemma find_map_same {A : Type} (p : A -> bool) (u : A -> A) (l : list A) :
  (forall x, p (u x) = p x) ->
  List.find p (map u l) = option_map u (List.find p l).
Proof.
  intros H. induction l as [|x l IH]; simpl; [reflexivity|].
  rewrite H. destruct (p x); [reflexivity | assumption].
Qed.

Lemma find_app_first {A : Type} (p : A -> bool) (l : list A) (x : A) :
  List.find p (l ++ [x])
  = match List.find p l with
    | Some y => Some y
    | None => if p x then Some x else None
    end.
Proof.
  induction l as [|y l IH]; simpl; [reflexivity|].
  destruct (p y); [reflexivity | assumption].
Qed.

Lemma getSavedContent_cachedContent (sightId : SightId)
    (language0 length0 interests : string) (st : SightsStore.SightsState) :
  SightsStore.getSavedContent sightId language0 length0 interests st
  = match cachedContent sightId st with
    | Some l =>
        List.find (SightsStore.contentMatches language0 length0 interests) l
    | None => None
    end.
Proof.
  unfold SightsStore.getSavedContent, cachedContent.
  destruct (List.find _ _) as [sight|]; [|reflexivity].
  now destruct (savedContent sight).
Qed.

Lemma saveSightContent_cachedContent (clock : SightsStore.Clock)
    (sightId : SightId) (language0 length0 interests content : string)
    (st : SightsStore.SightsState) :
  cachedContent sightId
    (SightsStore.saveSightContent clock sightId language0 length0 interests
       content st)
  = option_map
      (fun l => l ++ [mkSavedContent (JS.toString (SightsStore.clockNow clock))
                        language0 length0 interests content
                        (SightsStore.clockDate clock)])
      (cachedContent sightId st).
Proof.
  unfold cachedContent, SightsStore.saveSightContent.
  cbn [SightsStore.allSights SightsStore.patch_allSights].
  rewrite find_map_same.
  - destruct (List.find _ (SightsStore.allSights st)) as [sight|] eqn:F;
      [|reflexivity].
    apply find_some in F as [_ F]. cbn [option_map]. rewrite F.
    reflexivity.
  - intros x. destruct (SightsStore.sameIdString sightId x) eqn:E; exact E.
Qed.

Lemma deleteSavedContent_cachedContent (sightId : SightId) (contentId : string)
    (st : SightsStore.SightsState) :
  cachedContent sightId (SightsStore.deleteSavedContent sightId contentId st)
  = option_map
      (List.filter (fun content => negb (String.eqb (sc_id content) contentId)))
      (cachedContent sightId st).
Proof.
  unfold cachedContent, SightsStore.deleteSavedContent.
  cbn [SightsStore.allSights SightsStore.patch_allSights].
  rewrite find_map_same.
  - destruct (List.find _ (SightsStore.allSights st)) as [sight|] eqn:F;
      [|reflexivity].
    apply find_some in F as [_ F]. cbn [option_map]. rewrite F.
    now destruct (savedContent sight).
  - intros x. destruct (SightsStore.sameIdString sightId x) eqn:E; exact E.
Qed.

Lemma contentMatches_refl (language0 length0 interests id0 content : string)
    (date : Z) :
  SightsStore.contentMatches language0 length0 interests
    (mkSavedContent id0 language0 length0 interests content date) = true.
Proof.
  unfold SightsStore.contentMatches. simpl. now rewrite !String.eqb_refl.
Qed.

Lemma getSavedContent_after_save (clock : SightsStore.Clock)
    (sightId : SightId) (language0 length0 interests content : string)
    (st : SightsStore.SightsState) :
  (exists s, In s (SightsStore.allSights st)
             /\ SightsStore.idString (id s) = SightsStore.idString sightId) ->
  SightsStore.getSavedContent sightId language0 length0 interests
    (SightsStore.saveSightContent clock sightId language0 length0 interests
       content st)
  = match SightsStore.getSavedContent sightId language0 length0 interests st with
    | Some older => Some older
    | None =>
        Some (mkSavedContent (JS.toString (SightsStore.clockNow clock))
                language0 length0 interests content
                (SightsStore.clockDate clock))
    end.
Proof.
  intros (s & Hin & Hid).
  rewrite !getSavedContent_cachedContent, saveSightContent_cachedContent.
  unfold cachedContent.
  destruct (List.find _ (SightsStore.allSights st)) as [sight|] eqn:F; simpl.
  - rewrite find_app_first, contentMatches_refl.
    now destruct (List.find _ _).
  - exfalso. apply (find_none _ _ F) in Hin.
    unfold SightsStore.sameIdString in Hin.
    rewrite Hid, String.eqb_refl in Hin. discriminate.
Qed.

(** X22. Round trip of a saved narration.  For a sight that is in the cache:
    when nothing was saved for the language, length and interests,
    [getSavedContent] after [saveSightContent] returns the new entry with
    the saved text; when something was, it still returns that older
    entry (the first saved wins).  For a sight that is not in the cache
    the save is lost: [getSavedContent] returns nothing. *)
Theorem saveSightContent_then_get (clock : SightsStore.Clock)
    (sightId : SightId) (language0 length0 interests content : string)
    (st : SightsStore.SightsState) :
  let st' :=
    SightsStore.saveSightContent clock sightId language0 length0 interests
      content st in
  let cached :=
    exists s, In s (SightsStore.allSights st)
              /\ SightsStore.idString (id s) = SightsStore.idString sightId in
  (cached ->
   SightsStore.getSavedContent sightId language0 length0 interests st'
   = match SightsStore.getSavedContent sightId language0 length0 interests st with
     | Some older => Some older
     | None =>
         Some (mkSavedContent (JS.toString (SightsStore.clockNow clock))
                 language0 length0 interests content
                 (SightsStore.clockDate clock))
     end)
  /\ (~ cached ->
      SightsStore.getSavedContent sightId language0 length0 interests st' = None).
Proof.
  intros st' cached. subst st' cached. split.
  - apply getSavedContent_after_save.
  - intros Hnot.
    rewrite getSavedContent_cachedContent, saveSightContent_cachedContent.
    unfold cachedContent.
    destruct (List.find _ (SightsStore.allSights st)) as [sight|] eqn:F;
      [|reflexivity].
    exfalso. apply Hnot. exists sight.
    apply find_some in F as [Hin Hid]. split; [assumption|].
    now apply String.eqb_eq.
Qed.

Lemma saveSightContent_then_get_witness :
  let st :=
    SightsStore.patch_allSights [Samples.gamma; Samples.delta]
      SightsStore.initialState in
  SightsStore.getSavedContent (IdNum 4) "EN" "brief" "general"
    (SightsStore.saveSightContent (SightsStore.mkClock 1700000000000 1700000000001)
       (IdNum 4) "EN" "brief" "general" "A short story." st)
  = Some (mkSavedContent "1700000000000" "EN" "brief" "general" "A short story."
            1700000000001).
Proof.
  intros st.
  apply (saveSightContent_then_get
           (SightsStore.mkClock 1700000000000 1700000000001) (IdNum 4)
           "EN" "brief" "general" "A short story." st).
  exists Samples.delta. split; [right; left; reflexivity | reflexivity].
Defined.

Lemma find_filter_kept {A : Type} (p keep : A -> bool) (l : list A) (c : A) :
  List.find p l = Some c -> keep c = true ->
  List.find p (List.filter keep l) = Some c.
Proof.
  induction l as [|x l IH]; simpl; [discriminate|].
  destruct (p x) eqn:P.
  - intros [= ->] K. rewrite K. simpl. now rewrite P.
  - intros F K. destruct (keep x); simpl; [rewrite P|]; now apply IH.
Qed.

(** X23. After [deleteSavedContent(sightId, contentId)], [getSavedContent] for
    that sight never returns an entry with that content identifier, and
    an entry with another identifier that it returned before is still
    what it returns. *)
Theorem deleteSavedContent_removes (sightId : SightId) (contentId : string)
    (language0 length0 interests : string) (st : SightsStore.SightsState) :
  let st' := SightsStore.deleteSavedContent sightId contentId st in
  (forall c,
     SightsStore.getSavedContent sightId language0 length0 interests st' = Some c ->
     sc_id c <> contentId)
  /\ (forall c,
        SightsStore.getSavedContent sightId language0 length0 interests st = Some c ->
        sc_id c <> contentId ->
        SightsStore.getSavedContent sightId language0 length0 interests st'
        = Some c).
Proof.
  intros st'. subst st'.
  rewrite !getSavedContent_cachedContent, deleteSavedContent_cachedContent.
  destruct (cachedContent sightId st) as [l|]; simpl.
  - split.
    + intros c F. apply find_some in F as [Hin _].
      apply filter_In in Hin as [_ Hid].
      now apply negb_true_iff, String.eqb_neq in Hid.
    + intros c F Hid. apply find_filter_kept; [assumption|].
      now apply negb_true_iff, String.eqb_neq.
  - split; intros c; discriminate.
Qed.

Lemma deleteSavedContent_removes_witness :
  let saved :=
    mkSavedContent "1700000000000" "EN" "brief" "general" "A short story."
      1700000000001 in
  let st :=
    SightsStore.patch_allSights
      [SightsStore.withSavedContent Samples.delta [saved]]
      SightsStore.initialState in
  SightsStore.getSavedContent (IdNum 4) "EN" "brief" "general"
    (SightsStore.deleteSavedContent (IdNum 4) "1600000000000" st)
  = Some saved.
Proof.
  intros saved st.
  apply (deleteSavedContent_removes (IdNum 4) "1600000000000" "EN" "brief"
           "general" st).
  - reflexivity.
  - discriminate.
Defined.



(** The interests are part of the key: after they change, the same call
    asks the service again. *)
Example generateSightContent_other_interests :
  let settings :=
    mkSettings "" "sk-sample" "" "EN" "" [Tier1; Tier2] Medium
      Samples.walkingTour in
  let later :=
    mkSettings "" "sk-sample" "" "EN" "art" [Tier1; Tier2] Medium
      Samples.walkingTour in
  let st :=
    SightsStore.patch_allSights [Samples.gamma; Samples.delta]
      SightsStore.initialState in
  let first :=
    SightsStore.generateSightContent Samples.trimAscii settings
      (SightsStore.mkClock 1700000000000 1700000000001)
      (SightsStore.NarrationBody (Some "Built in 1230.")) Samples.delta "EN"
      "brief" st in
  fst (SightsStore.generateSightContent Samples.trimAscii later
         (SightsStore.mkClock 1800000000000 1800000000001)
         (SightsStore.NarrationBody (Some "Painted in 1480.")) Samples.delta
         "EN" "brief" (snd first))
  = "Painted in 1480.".
Proof. reflexivity. Qed.

(** X25. The radius of the places request is clamped to 100 m .. 50 km, grows
    with the radius of the store, and within that range is the radius in
    metres rounded to the nearest whole metre. *)
Theorem radiusMeters_bounds (radiusKm radiusKm' : Q) :
  100 <= SightsStore.radiusMeters radiusKm <= 50000
  /\ ((radiusKm <= radiusKm')%Q ->
      SightsStore.radiusMeters radiusKm <= SightsStore.radiusMeters radiusKm')
  /\ ((0.1 <= radiusKm)%Q -> (radiusKm <= 50)%Q ->
      (inject_Z (SightsStore.radiusMeters radiusKm) - (1 # 2)
       <= radiusKm * 1000)%Q
      /\ (radiusKm * 1000
          < inject_Z (SightsStore.radiusMeters radiusKm) + (1 # 2))%Q).
Proof.
  unfold SightsStore.radiusMeters. split; [lia|]. split.
  - intros H.
    assert (Hf : Qfloor (radiusKm * 1000 + (1 # 2))
                 <= Qfloor (radiusKm' * 1000 + (1 # 2))).
    { apply Qfloor_resp_le. lra. }
    lia.
  - intros Hlo Hhi.
    set (x := (radiusKm * 1000 + (1 # 2))%Q).
    pose proof (Qfloor_le x) as Hle. pose proof (Qlt_floor x) as Hlt.
    assert (Hge : 100 <= Qfloor x).
    { assert (H : (100 <= x)%Q) by (unfold x; lra).
      apply Qfloor_resp_le in H. exact H. }
    assert (Hmax : Qfloor x <= 50000).
    { assert (H : (x <= 50000 + (1 # 2))%Q) by (unfold x; lra).
      apply Qfloor_resp_le in H. exact H. }
    rewrite Z.min_r by lia. rewrite Z.max_r by lia.
    rewrite inject_Z_plus in Hlt. change (inject_Z 1) with 1%Q in Hlt.
    unfold x in *. split; lra.
Qed.

Lemma radiusMeters_bounds_witness :
  SightsStore.radiusMeters 0.05 <= SightsStore.radiusMeters 10
  /\ (inject_Z (SightsStore.radiusMeters 10) - (1 # 2) <= 10 * 1000)%Q.
Proof.
  split.
  - apply (radiusMeters_bounds 0.05 10). vm_compute. discriminate.
  - apply (radiusMeters_bounds 10 10); vm_compute; discriminate.
Defined.

(** ** The tier selection *)

Lemma sortedTiers_sortedTiersb (l : list SightTier) :
  sortedTiers l -> sortedTiersb l = true.
Proof.
  induction l as [|a [|b rest] IH]; intros S; try reflexivity.
  inversion S as [|? ? S' F]; subst.
  change (sortedTiersb (a :: b :: rest))
    with (Z.ltb (tierNumber a) (tierNumber b) && sortedTiersb (b :: rest)).
  rewrite (IH S'), andb_true_r. apply Z.ltb_lt.
  now inversion F.
Qed.

Lemma sortedTiers_cases (l : list SightTier) :
  sortedTiers l ->
  In l [[]; [Tier1]; [Tier2]; [Tier3]; [Tier1; Tier2]; [Tier1; Tier3];
        [Tier2; Tier3]; [Tier1; Tier2; Tier3]].
Proof.
  intros S. apply sortedTiers_sortedTiersb in S.
  destruct l as [|a [|b [|c [|d rest]]]];
    [ | destruct a | destruct a, b | destruct a, b, c | destruct a, b, c, d ];
    try discriminate S; simpl; tauto.
Qed.

(** X26. [toggleTier] on a selection that is in ascending order without
    repeats (as the defaults are): the result is again in ascending order
    without repeats; the tier is selected afterwards exactly when it was
    not before, and no other tier changes; toggling twice gives the
    selection back. *)
Theorem toggleTier_twice (t : SightTier) (s : SettingsState) :
  sortedTiers (selectedTiers s) ->
  let s' := toggleTier t s in
  sortedTiers (selectedTiers s')
  /\ (In t (selectedTiers s') <-> ~ In t (selectedTiers s))
  /\ (forall u, u <> t -> (In u (selectedTiers s') <-> In u (selectedTiers s)))
  /\ toggleTier t s' = s.
Proof.
  intros S s'. subst s'. destruct s as [k1 k2 n lang ints tiers al ws].
  unfold toggleTier. simpl in *.
  apply sortedTiers_cases in S. simpl in S.
  repeat (destruct S as [<-|S]; [
    destruct t; (split; [unfold sortedTiers; simpl; repeat constructor |
                 split; [simpl; intuition discriminate |
                 split; [intros [] Hu; simpl; intuition (discriminate || congruence) |
                         reflexivity]]]) |]).
  destruct S.
Qed.

(** ** The recorded distance of a fetched sight *)

Lemma inject_Z_tenth (n : Z) : (inject_Z n / 10 == inject_Z n * (1 # 10))%Q.
Proof. reflexivity. Qed.

(** X27. The recorded distance [parseFloat(x.toFixed(1))]: below 10^21 in size
    it is a whole number of tenths, at most 0.05 away from [x], and not
    negative when [x] is not. *)
Theorem roundTenth_nearest (x : Q) :
  (- inject_Z (10 ^ 21) < x)%Q -> (x < inject_Z (10 ^ 21))%Q ->
  (x - (1 # 20) <= roundTenth x)%Q
  /\ (roundTenth x <= x + (1 # 20))%Q
  /\ (exists n : Z, roundTenth x == inject_Z n / 10)%Q
  /\ ((0 <= x)%Q -> (0 <= roundTenth x)%Q).
Proof.
  intros Hlo Hhi. unfold roundTenth.
  destruct (Qle_bool 0 x) eqn:Hsign.
  - apply Qle_bool_iff in Hsign.
    destruct (Qle_bool (inject_Z (10 ^ 21)) x) eqn:Hbig.
    { apply Qle_bool_iff in Hbig. lra. }
    set (y := (x * 10 + (1 # 2))%Q).
    pose proof (Qfloor_le y) as Hle. pose proof (Qlt_floor y) as Hlt.
    rewrite inject_Z_plus in Hlt. change (inject_Z 1) with 1%Q in Hlt.
    assert (Hn : 0 <= Qfloor y).
    { assert (H : (0 <= y)%Q) by (unfold y; lra).
      apply Qfloor_resp_le in H. exact H. }
    assert (Hq : (0 <= inject_Z (Qfloor y))%Q).
    { change 0%Q with (inject_Z 0). now rewrite <- Zle_Qle. }
    rewrite inject_Z_tenth. unfold y in *.
    repeat split; try lra.
    exists (Qfloor (x * 10 + (1 # 2))). reflexivity.
  - assert (Hneg : (x < 0)%Q).
    { apply Qnot_le_lt. intros H. apply Qle_bool_iff in H. congruence. }
    destruct (Qle_bool (inject_Z (10 ^ 21)) (- x)) eqn:Hbig.
    { apply Qle_bool_iff in Hbig. lra. }
    set (y := (- x * 10 + (1 # 2))%Q).
    pose proof (Qfloor_le y) as Hle. pose proof (Qlt_floor y) as Hlt.
    rewrite inject_Z_plus in Hlt. change (inject_Z 1) with 1%Q in Hlt.
    rewrite inject_Z_tenth. unfold y in *.
    repeat split; try lra.
    exists (- Qfloor (- x * 10 + (1 # 2))).
    unfold Qdiv. rewrite inject_Z_opp. ring.
Qed.

(** ** The sights store that filters by the map region *)

Lemma inBox_iff (plusDouble minusDouble : Q -> Q -> Q)
    (region : RegionStore.Region) (s : Sight) :
  RegionStore.inBox plusDouble minusDouble region s = true <->
  (minusDouble (RegionStore.region_latitude region)
     (RegionStore.latitudeDelta region / 2)
   <= latitude s
   <= plusDouble (RegionStore.region_latitude region)
        (RegionStore.latitudeDelta region / 2))%Q
  /\ (minusDouble (RegionStore.region_longitude region)
        (RegionStore.longitudeDelta region / 2)
      <= longitude s
      <= plusDouble (RegionStore.region_longitude region)
           (RegionStore.longitudeDelta region / 2))%Q.
Proof.
  unfold RegionStore.inBox, JS.ge, JS.le.
  rewrite !andb_true_iff, !Qle_bool_iff. tauto.
Qed.

(** X28. After [filterByMapRegion(region)] the visible sights are exactly the
    cached sights of a selected tier whose latitude and longitude lie
    between the borders, the borders themselves included, in the order
    of the cache and whatever their distance from the user.  The borders
    are [centre - delta/2] and [centre + delta/2] as the machine computes
    the difference and the sum, so a sight that sits on the exact border
    can fall outside.  The region is remembered, and applying the filter
    again, directly or through [filterSightsByTiers], changes nothing. *)
Theorem filterByMapRegion_visible (plusDouble minusDouble : Q -> Q -> Q)
    (settings : SettingsState) (region : RegionStore.Region)
    (st : RegionStore.SightsState) :
  let st' :=
    RegionStore.filterByMapRegion plusDouble minusDouble settings region st in
  (forall s,
     In s (RegionStore.sights st')
     <-> In s (RegionStore.allSights st)
         /\ (minusDouble (RegionStore.region_latitude region)
               (RegionStore.latitudeDelta region / 2)
             <= latitude s
             <= plusDouble (RegionStore.region_latitude region)
                  (RegionStore.latitudeDelta region / 2))%Q
         /\ (minusDouble (RegionStore.region_longitude region)
               (RegionStore.longitudeDelta region / 2)
             <= longitude s
             <= plusDouble (RegionStore.region_longitude region)
                  (RegionStore.longitudeDelta region / 2))%Q
         /\ In (tier s) (selectedTiers settings))
  /\ sublist (RegionStore.sights st') (RegionStore.allSights st)
  /\ RegionStore.lastRegion st' = Some region
  /\ RegionStore.filterByMapRegion plusDouble minusDouble settings region st'
     = st'
  /\ RegionStore.filterSightsByTiers plusDouble minusDouble settings st' = st'.
Proof.
  intros st'. subst st'. unfold RegionStore.filterSightsByTiers.
  unfold RegionStore.filterByMapRegion. simpl.
  split; [|split; [|split; [|split]]]; try reflexivity.
  - intros s. rewrite !filter_In, tierSelected_In, inBox_iff. tauto.
  - etransitivity; apply filter_sublist.
Qed.

(** Where the rounding of a border decides.  The double sum of 0.7 and
    0.1 is 0.7999999999999999, below 0.8: in the region centred at 0.7
    with a delta of 0.2 a sight at latitude 0.8 is not shown. *)
Remark filterByMapRegion_rounded_border (plusDouble minusDouble : Q -> Q -> Q)
    (settings : SettingsState) :
  (plusDouble 0.7 (0.2 / 2) < 0.8)%Q ->
  let sight := Samples.sightAt 9 "Iota" 0 None Tier1 in
  let onBorder :=
    mkSight (id sight) (name sight) (category sight) 0.8 0 (distance sight)
      (imageUrl sight) (yearBuilt sight) (briefDescription sight)
      (fullDescription sight) (briefDescriptionDE sight)
      (fullDescriptionDE sight) (rating sight) (placeId sight) (tier sight)
      (savedContent sight) in
  RegionStore.sights
    (RegionStore.filterByMapRegion plusDouble minusDouble settings
       (RegionStore.mkRegion 0.7 0 0.2 1)
       (RegionStore.mkSights [] [onBorder] [] None 10%Q false None))
  = [].
Proof.
  intros H sight onBorder.
  unfold RegionStore.filterByMapRegion. simpl.
  assert (B : RegionStore.inBox plusDouble minusDouble
                (RegionStore.mkRegion 0.7 0 0.2 1) onBorder = false).
  { destruct (RegionStore.inBox _ _ _ onBorder) eqn:B; [|reflexivity].
    apply inBox_iff in B as [[_ B] _]. simpl in B. lra. }
  now rewrite B.
Qed.

(** X29. Zooming out shows more: with the same centre and deltas that are at
    least as large, the visible list of the smaller region is a
    sub-sequence of the visible list of the larger.  All that is needed
    of the double sum and difference is that rounding keeps the order. *)
Theorem filterByMapRegion_zoom_out (plusDouble minusDouble : Q -> Q -> Q)
    (settings : SettingsState)
    (small large : RegionStore.Region) (st : RegionStore.SightsState) :
  (forall a b c, (b <= c)%Q -> (plusDouble a b <= plusDouble a c)%Q) ->
  (forall a b c, (b <= c)%Q -> (minusDouble a c <= minusDouble a b)%Q) ->
  RegionStore.region_latitude small = RegionStore.region_latitude large ->
  RegionStore.region_longitude small = RegionStore.region_longitude large ->
  (RegionStore.latitudeDelta small <= RegionStore.latitudeDelta large)%Q ->
  (RegionStore.longitudeDelta small <= RegionStore.longitudeDelta large)%Q ->
  sublist
    (RegionStore.sights
       (RegionStore.filterByMapRegion plusDouble minusDouble settings small st))
    (RegionStore.sights
       (RegionStore.filterByMapRegion plusDouble minusDouble settings large st)).
Proof.
  intros Hplus Hminus Hlat Hlon Hdlat Hdlon.
  unfold RegionStore.filterByMapRegion. simpl.
  assert (Hhalf : forall d d', (d <= d')%Q -> (d / 2 <= d' / 2)%Q).
  { intros d d' H. unfold Qdiv. change (/ 2)%Q with (1 # 2)%Q. lra. }
  induction (RegionStore.allSights st) as [|x l IH]; simpl; [constructor|].
  assert (Himp : RegionStore.inBox plusDouble minusDouble small x = true ->
                 RegionStore.inBox plusDouble minusDouble large x = true).
  { rewrite !inBox_iff, Hlat, Hlon. intros [[H1 H2] [H3 H4]].
    pose proof (Hminus (RegionStore.region_latitude large) _ _
                  (Hhalf _ _ Hdlat)).
    pose proof (Hplus (RegionStore.region_latitude large) _ _
                  (Hhalf _ _ Hdlat)).
    pose proof (Hminus (RegionStore.region_longitude large) _ _
                  (Hhalf _ _ Hdlon)).
    pose proof (Hplus (RegionStore.region_longitude large) _ _
                  (Hhalf _ _ Hdlon)).
    split; split; eapply Qle_trans; eassumption. }
  destruct (RegionStore.inBox plusDouble minusDouble small x) eqn:B1.
  - rewrite (Himp eq_refl). simpl.
    destruct (SightsStore.tierSelected _ x); [now constructor | assumption].
  - destruct (RegionStore.inBox plusDouble minusDouble large x); simpl;
      [|assumption].
    destruct (SightsStore.tierSelected _ x); [now constructor | assumption].
Qed.

(** ** The category of a fetched sight *)

(** Case analysis on a string that is matched against literals, one bit
    at a time. *)
Ltac split_literals :=
  repeat match goal with
  | |- context [match ?b with true => _ | false => _ end] =>
      is_var b; destruct b; try discriminate
  | |- context [match ?s with EmptyString => _ | String _ _ => _ end] =>
      is_var s; destruct s as [|[? ? ? ? ? ? ? ?] ?]; try discriminate
  end.

Lemma categoryLabels_nonEmpty (t label : string) :
  categoryLabels t = Some label -> JS.nonEmpty label = true.
Proof.
  unfold categoryLabels. split_literals; intros [= <-]; reflexivity.
Qed.

Lemma categoryMap_nonEmpty (t label : string) :
  categoryMap t = OwnLabel label -> JS.nonEmpty label = true.
Proof.
  unfold categoryMap.
  destruct (categoryLabels t) as [l|] eqn:E.
  - intros [= <-]. exact (categoryLabels_nonEmpty t l E).
  - destruct (inheritedMember t); discriminate.
Qed.

Lemma categoryMap_inherited (t : string) :
  inheritedMember t = true -> categoryMap t = Inherited.
Proof.
  unfold inheritedMember. split_literals; intros _; reflexivity.
Qed.

Lemma underscoresToSpaces_length (s : string) :
  String.length (underscoresToSpaces s) = String.length s.
Proof. induction s as [|c r IH]; simpl; [reflexivity | now rewrite IH]. Qed.

Lemma capitalizeWords_length (s : string) :
  forall afterWordChar,
    String.length (capitalizeWords afterWordChar s) = String.length s.
Proof.
  induction s as [|c r IH]; intros b; simpl; [reflexivity | now rewrite IH].
Qed.

Lemma nonEmpty_length (s : string) :
  JS.nonEmpty s = true <-> (0 < String.length s)%nat.
Proof. destruct s; simpl; split; (discriminate || lia || reflexivity). Qed.

(** X30. [formatCategory] never returns a falsy value, so the fallback
    that follows its call in [fetchNearbySights] is never taken: the
    category of a sight made from a result of the places search is
    [formatCategory] of the first type of the result.  A missing or empty
    type gives "Attraction"; a type that names a member of
    [Object.prototype] gives that member, which is no string; and a type
    that is neither in the table nor such a name gives a text as long as
    the type. *)
Theorem formatCategory_never_empty (type : option string) :
  categoryTruthy (formatCategory type) = true
  /\ (forall (calculateDistance : Q -> Q -> Q -> Q -> Q) (key : string)
             (latitude0 longitude0 : Q) (index : nat) (place : Place),
        type = match place_types place with
               | Some (t :: _) => Some t
               | _ => None
               end ->
        category (placeToSight calculateDistance key latitude0 longitude0
                    index place)
        = formatCategory type)
  /\ (type = None \/ type = Some EmptyString ->
      formatCategory type = CategoryText "Attraction")
  /\ (forall t, type = Some t -> inheritedMember t = true ->
        formatCategory type = CategoryMember t)
  /\ (forall t, type = Some t -> JS.nonEmpty t = true ->
        categoryMap t = NoEntry ->
        exists text,
          formatCategory type = CategoryText text
          /\ String.length text = String.length t).
Proof.
  assert (Hne : categoryTruthy (formatCategory type) = true).
  { unfold formatCategory. destruct type as [t|]; [|reflexivity].
    destruct (JS.nonEmpty t) eqn:Ht; simpl; [|reflexivity].
    destruct (categoryMap t) as [label| |] eqn:Hmap; simpl.
    - exact (categoryMap_nonEmpty t label Hmap).
    - reflexivity.
    - apply nonEmpty_length.
      rewrite capitalizeWords_length, underscoresToSpaces_length.
      now apply nonEmpty_length. }
  split; [exact Hne|]. split; [|split; [|split]].
  - intros calc key lat lon index place ->.
    unfold placeToSight. cbn [category]. unfold categoryOr.
    now rewrite Hne.
  - intros [->| ->]; reflexivity.
  - intros t -> Hin. unfold formatCategory.
    rewrite (categoryMap_inherited t Hin).
    destruct t; [discriminate | reflexivity].
  - intros t -> Ht Hmap. unfold formatCategory. rewrite Ht, Hmap. simpl.
    eexists. split; [reflexivity|].
    now rewrite capitalizeWords_length, underscoresToSpaces_length.
Qed.

(** ** The added properties on the sample data *)

Import StoreSamples.

Lemma absQ_nonneg (x : Q) : (0 <= absQ x)%Q.
Proof.
  unfold absQ. destruct (Qle_bool 0 x) eqn:E.
  - now apply Qle_bool_iff.
  - assert (H : ~ (0 <= x)%Q) by (rewrite <- Qle_bool_iff, E; discriminate).
    lra.
Qed.

Lemma gridDistance_nonneg (a b c d : Q) : (0 <= gridDistance a b c d)%Q.
Proof.
  unfold gridDistance, kmPerDegree.
  pose proof (absQ_nonneg (c - a)) as H1.
  pose proof (absQ_nonneg (d - b)) as H2.
  apply Qmult_le_0_compat; [|lra].
  unfold Qle. simpl. lia.
Qed.

Lemma optimizeTourSimple_nearest_neighbour_witness :
  let candidates := [alpha; beta; gamma; delta; epsilon; zeta] in
  (forall c, In c candidates -> ~ In (id c) (map id [gamma]) ->
     (distanceFrom gridDistance (whereAfter origin [gamma]) delta
      <= distanceFrom gridDistance (whereAfter origin [gamma]) c)%Q)
  /\ exists earlier later,
       remaining candidates [gamma] = earlier ++ delta :: later
       /\ forall c, In c earlier ->
            (distanceFrom gridDistance (whereAfter origin [gamma]) delta
             < distanceFrom gridDistance (whereAfter origin [gamma]) c)%Q.
Proof.
  intros candidates.
  apply (optimizeTourSimple_nearest_neighbour gridDistance origin candidates
           1%Q None [gamma] [epsilon; zeta] delta).
  reflexivity.
Defined.

Lemma optimizeTourSimple_return_budget_witness :
  (pathLength gridDistance [gamma; delta; epsilon; zeta]
   + returnEstimate gridDistance origin zeta <= 1 * 0.9)%Q.
Proof.
  apply (optimizeTourSimple_return_budget gridDistance origin
           [alpha; beta; gamma; delta; epsilon; zeta] 1%Q None zeta).
  - vm_compute. lia.
  - reflexivity.
Defined.

Lemma generateTour_totalDistance_pathLength_witness :
  let run := generateTour gridDistance exactTimes lowerAscii trimAscii
               keyAndAnswer origin 5%Q
               [gamma; delta; epsilon; zeta] (Some walkingTour) initialState in
  exists tour,
    currentTour (final run) = Some tour
    /\ (totalDistance tour
        == pathLength gridDistance (map stop_sight (sights tour)))%Q.
Proof.
  apply (generateTour_totalDistance_pathLength gridDistance exactTimes lowerAscii trimAscii
             keyAndAnswer origin
           5%Q [gamma; delta; epsilon; zeta] (Some walkingTour) initialState).
  reflexivity.
Defined.

Lemma generateTour_heuristic_guarantee_witness :
  let run := generateTour gridDistance exactTimes lowerAscii trimAscii
               keyButOffline origin 1%Q
               ([alpha; beta] ++ cluster) None initialState in
  exists tour,
    currentTour (final run) = Some tour
    /\ (1 <= length (sights tour) <= 8)%nat
    /\ List.NoDup (map id (map stop_sight (sights tour)))
    /\ (totalDistance tour <= 1 * 0.9)%Q.
Proof.
  apply (generateTour_heuristic_guarantee gridDistance exactTimes lowerAscii trimAscii
             keyButOffline origin 1%Q
           ([alpha; beta] ++ cluster) None initialState).
  - right. reflexivity.
  - exact gridDistance_nonneg.
  - vm_compute. discriminate.
  - reflexivity.
Defined.

Lemma optimizeTourWithAI_unmatched_answer_witness :
  optimizeTourWithAI gridDistance lowerAscii trimAscii
    (FetchResponse true (Some "Louvre, Orsay"))
    origin [zeta; epsilon; delta; gamma] 5%Q None
  = firstn 5 (sortByDistance [zeta; epsilon; delta; gamma]).
Proof.
  apply (optimizeTourWithAI_unmatched_answer gridDistance lowerAscii trimAscii
             origin
           [zeta; epsilon; delta; gamma] 5%Q None "Louvre, Orsay").
  intros n s Hn Hs Halike.
  apply (nameMatches_namesAlike lowerAscii) in Halike. revert Halike.
  vm_compute in Hn.
  destruct Hn as [<-|[<-|[]]];
    destruct Hs as [<-|[<-|[<-|[<-|[]]]]]; vm_compute; discriminate.
Defined.

Lemma optimizeTourWithAI_blank_answer_witness :
  optimizeTourWithAI gridDistance lowerAscii trimAscii
    (FetchResponse true (Some " , ")) origin
    [zeta; epsilon; delta; gamma] 5%Q None
  = zeta
      :: firstn 5 (sortByDistance
                     (List.filter
                        (fun sight => negb (inRoute [zeta] (id sight)))
                        [epsilon; delta; gamma])).
Proof.
  apply (optimizeTourWithAI_blank_answer gridDistance lowerAscii trimAscii
             eq_refl
           origin zeta
           [epsilon; delta; gamma] 5%Q None " , ").
  vm_compute. repeat constructor.
Defined.

Lemma fetchNearbySights_failure_clears_witness :
  (let st' := afterFetch gridDistance sampleSettings
                (PlacesResponse true (Some ("REQUEST_DENIED", None))) 0 0
                cachedStore in
   SightsStore.allSights st' = [] /\ SightsStore.sights st' = [])
  /\ (let st' := afterFetch gridDistance
                   (mkSettings EmptyString "sk-sample" "" "EN" ""
                      [Tier1; Tier2] Medium walkingTour)
                   sampleResponse 0 0 cachedStore in
      SightsStore.allSights st' = [] /\ SightsStore.sights st' = []).
Proof.
  split.
  - apply (fetchNearbySights_failure_clears gridDistance sampleSettings
             (PlacesResponse true (Some ("REQUEST_DENIED", None))) 0 0
             cachedStore).
    right. right. split; discriminate.
  - apply (fetchNearbySights_failure_clears gridDistance
             (mkSettings EmptyString "sk-sample" "" "EN" "" [Tier1; Tier2]
                Medium walkingTour)
             sampleResponse 0 0 cachedStore).
    left. reflexivity.
Defined.

Lemma fetchNearbySights_success_witness :
  let st' := afterFetch gridDistance sampleSettings sampleResponse 0 0
               cachedStore in
  Permutation (SightsStore.allSights st')
    (imap (placeToSight gridDistance (googleMapsApiKey sampleSettings) 0 0)
       samplePlaces)
  /\ StronglySorted byDistance (SightsStore.allSights st')
  /\ (forall s, In s (SightsStore.allSights st') ->
        (exists i place,
           samplePlaces !! i = Some place
           /\ s = placeToSight gridDistance (googleMapsApiKey sampleSettings)
                    0 0 i place)
        /\ (exists d, distance s = Some d)
        /\ savedContent s = None)
  /\ SightsStore.sights st'
     = List.filter (SightsStore.tierSelected (selectedTiers sampleSettings))
         (List.filter (withinRadius (SightsStore.radius cachedStore))
            (SightsStore.allSights st')).
Proof.
  apply (fetchNearbySights_success gridDistance sampleSettings sampleResponse
           0 0 cachedStore "OK" (Some samplePlaces)).
  - reflexivity.
  - reflexivity.
  - left. reflexivity.
Defined.

Lemma generateTour_on_fetched_sights_witness :
  let visible :=
    SightsStore.sights
      (afterFetch gridDistance sampleSettings sampleResponse 0 0 cachedStore) in
  let accepted := filterByTier None visible in
  let run := generateTour gridDistance exactTimes lowerAscii trimAscii
               noKey origin 10%Q visible None
               initialState in
  (accepted = [] -> result run = inl (NoSightsFound (exactTimes 10 1.5)))
  /\ (accepted <> [] ->
      result run = inr tt
      /\ exists tour,
           currentTour (final run) = Some tour
           /\ map stop_sight (sights tour)
              = optimizeRoute gridDistance lowerAscii trimAscii
                  noKey origin accepted 10%Q None).
Proof.
  apply (generateTour_on_fetched_sights gridDistance exactTimes lowerAscii trimAscii
             noKey origin 10%Q None
           initialState sampleSettings sampleResponse 0 0 cachedStore).
  vm_compute. discriminate.
Defined.

Lemma saveTour_keeps_ids_distinct_witness :
  let current := mkTour "1700000000002" "2-Stop Tour" [] 0%Q 30 1700000000003 in
  let older := mkTour "1700000000000" "Old town" [] 0%Q 45 1700000000001 in
  let st := mkState (Some current) [older] false 5%Q in
  let st' := final (saveTour "Harbour" st) in
  List.NoDup (map tour_id (savedTours st'))
  /\ (In (tour_id current) (map tour_id (savedTours st)) ->
      map tour_id (savedTours st') = map tour_id (savedTours st))
  /\ (~ In (tour_id current) (map tour_id (savedTours st)) ->
      map tour_id (savedTours st')
      = map tour_id (savedTours st) ++ [tour_id current])
  /\ (forall t, In t (savedTours st) -> tour_id t <> tour_id current ->
                In t (savedTours st')).
Proof.
  intros current older st.
  apply (saveTour_keeps_ids_distinct "Harbour" st current).
  - reflexivity.
  - simpl. repeat constructor. intros [].
Defined.

Lemma toggleTier_twice_witness :
  let s' := toggleTier Tier3 sampleSettings in
  sortedTiers (selectedTiers s')
  /\ (In Tier3 (selectedTiers s') <-> ~ In Tier3 (selectedTiers sampleSettings))
  /\ (forall u, u <> Tier3 ->
        (In u (selectedTiers s') <-> In u (selectedTiers sampleSettings)))
  /\ toggleTier Tier3 s' = sampleSettings.
Proof.
  apply (toggleTier_twice Tier3 sampleSettings).
  unfold sortedTiers. simpl. repeat constructor.
Defined.

Lemma roundTenth_nearest_witness :
  (1.234 - (1 # 20) <= roundTenth 1.234)%Q
  /\ (roundTenth 1.234 <= 1.234 + (1 # 20))%Q
  /\ (exists n : Z, roundTenth 1.234 == inject_Z n / 10)%Q
  /\ ((0 <= 1.234)%Q -> (0 <= roundTenth 1.234)%Q).
Proof.
  apply (roundTenth_nearest 1.234%Q); vm_compute; reflexivity.
Defined.

Lemma filterByMapRegion_zoom_out_witness :
  let st :=
    RegionStore.mkSights [] [gamma; delta; epsilon; zeta] [] None 10%Q false
      None in
  sublist
    (RegionStore.sights
       (RegionStore.filterByMapRegion exactPlus exactMinus sampleSettings
          (RegionStore.mkRegion 0 0.004 0.01 0.003) st))
    (RegionStore.sights
       (RegionStore.filterByMapRegion exactPlus exactMinus sampleSettings
          (RegionStore.mkRegion 0 0.004 0.02 0.01) st)).
Proof.
  intros st.
  apply (filterByMapRegion_zoom_out exactPlus exactMinus sampleSettings
           (RegionStore.mkRegion 0 0.004 0.01 0.003)
           (RegionStore.mkRegion 0 0.004 0.02 0.01) st).
  - intros a b c H. unfold exactPlus. lra.
  - intros a b c H. unfold exactMinus. lra.
  - reflexivity.
  - reflexivity.
  - vm_compute. discriminate.
  - vm_compute. discriminate.
Defined.
